(** * N-Queens benchmark harness: the orchestration and measurement core

    A shallow embedding of [scripts/run_nqueens_benchmarks.py] and of
    [read_rows] from [scripts/plot_nqueens_results.py].

    Python [str] values are lists of characters; a character is a code
    point below 256 ([ascii]).  Integers are [Z].  Effects (file system,
    external commands, console) are threaded through an explicit world
    by a state-and-exception monad. *)

From Stdlib Require Import ZArith List Ascii String Bool Lia.
From stdpp Require Import gmap strings list.
Import ListNotations.

Local Open Scope Z_scope.
Local Open Scope list_scope.

(** ** Characters and strings *)

Definition lit (s : string) : list ascii := list_ascii_of_string s.

Definition code (c : ascii) : N := N_of_ascii c.

Definition chr (n : N) : ascii := ascii_of_N n.

Definition LF : ascii := chr 10.
Definition CR : ascii := chr 13.
Definition COMMA : ascii := chr 44.
Definition QUOTE : ascii := chr 34.
Definition SPACE : ascii := chr 32.

(** [str.isspace] and the regular expression class [\s] on code points
    below 256: TAB..CR, FS..US, space, NEL and NBSP. *)
Definition isspace (c : ascii) : bool :=
  let n := code c in
  ((9 <=? n) && (n <=? 13) || (28 <=? n) && (n <=? 31) || (n =? 32)
   || (n =? 133) || (n =? 160))%N.

(** The class [\d]: the only decimal digits below 256 are 0..9. *)
Definition isdigit (c : ascii) : bool :=
  let n := code c in ((48 <=? n) && (n <=? 57))%N.

(** Line boundaries of [str.splitlines] other than CR and LF:
    VT, FF, FS, GS, RS and NEL. *)
Definition islinebreak (c : ascii) : bool :=
  let n := code c in
  ((n =? 10) || (n =? 11) || (n =? 12) || (n =? 28) || (n =? 29)
   || (n =? 30) || (n =? 133))%N.

Definition ascii_eqb (a b : ascii) : bool := (code a =? code b)%N.

(** [str.strip()] *)
Fixpoint lstrip (s : list ascii) : list ascii :=
  match s with
  | c :: s' => if isspace c then lstrip s' else s
  | [] => []
  end.

Definition rstrip (s : list ascii) : list ascii := rev (lstrip (rev s)).

Definition strip (s : list ascii) : list ascii := rstrip (lstrip s).

(** [str.splitlines()]: [cur] is the line being read. A CR directly
    followed by LF is one boundary; a final boundary opens no empty
    last line. *)
Fixpoint splitlines_from (cur s : list ascii) : list (list ascii) :=
  match s with
  | [] => match cur with [] => [] | _ => [cur] end
  | c :: s' =>
      if ascii_eqb c CR then
        match s' with
        | d :: s'' => if ascii_eqb d LF then cur :: splitlines_from [] s''
                      else cur :: splitlines_from [] s'
        | [] => [cur]
        end
      else if islinebreak c then cur :: splitlines_from [] s'
      else splitlines_from (cur ++ [c]) s'
  end.

Definition splitlines (s : list ascii) : list (list ascii) :=
  splitlines_from [] s.

(** ** Decimal integers *)

Definition digit_val (c : ascii) : Z := Z.of_N (code c) - 48.

(** Value of a run of decimal digits, most significant first. *)
Definition digits_val (ds : list ascii) : Z :=
  fold_left (fun acc c => 10 * acc + digit_val c) ds 0.

(** ** The regular expression of the metrics line

    The pattern only uses literals and greedy repetitions of a
    character class, one of them inside each capturing group; the
    matcher below is the backtracking matcher of [re] for that
    fragment. *)

Inductive item : Type :=
  | Lit (s : list ascii)          (* literal text        *)
  | Star (c : ascii -> bool)      (* [c]*   greedy       *)
  | Plus (c : ascii -> bool)      (* [c]+   greedy       *)
  | Group (c : ascii -> bool).    (* ([c]+) capturing    *)

Fixpoint strip_prefix (p s : list ascii) : option (list ascii) :=
  match p, s with
  | [], _ => Some s
  | a :: p', b :: s' => if ascii_eqb a b then strip_prefix p' s' else None
  | _ :: _, [] => None
  end.

(** Greedy repetition: take as many characters of class [c] as
    possible, then give back one at a time until the continuation [k]
    (called with the text taken and the text left) succeeds. *)
Fixpoint greedy {R} (c : ascii -> bool)
    (k : list ascii -> list ascii -> option R) (s : list ascii) : option R :=
  match s with
  | x :: s' =>
      if c x then
        match greedy c (fun t r => k (x :: t) r) s' with
        | Some r => Some r
        | None => k [] s
        end
      else k [] s
  | [] => k [] []
  end.

Definition at_least_one {R} (c : ascii -> bool)
    (k : list ascii -> list ascii -> option R) (s : list ascii) : option R :=
  match s with
  | x :: s' => if c x then greedy c (fun t r => k (x :: t) r) s' else None
  | [] => None
  end.

(** Match the items at the start of [s]; the result is the list of
    captured groups, in order. *)
Fixpoint rmatch (p : list item) (s : list ascii) : option (list (list ascii)) :=
  match p with
  | [] => Some []
  | Lit l :: p' =>
      match strip_prefix l s with
      | Some s' => rmatch p' s'
      | None => None
      end
  | Star c :: p' => greedy c (fun _ r => rmatch p' r) s
  | Plus c :: p' => at_least_one c (fun _ r => rmatch p' r) s
  | Group c :: p' =>
      at_least_one c (fun t r => option_map (cons t) (rmatch p' r)) s
  end.

(** [Pattern.search]: the match at the leftmost start position. *)
Fixpoint re_search (p : list item) (s : list ascii) : option (list (list ascii)) :=
  match rmatch p s with
  | Some g => Some g
  | None => match s with
            | [] => None
            | _ :: s' => re_search p s'
            end
  end.

Definition not_char (x : string) (c : ascii) : bool :=
  match lit x with
  | [y] => negb (ascii_eqb c y)
  | _ => true
  end.

Definition digit_or_dot (c : ascii) : bool :=
  isdigit c || ascii_eqb c (chr 46).

Definition MARKER : list ascii := lit "NQUEENS_METRICS".

(** [NQUEENS_METRICS\s+[^n]*n=(\d+)\s+[^s]*solutions=([0-9.]+)\s+[^n]*nodes=(\d+)] *)
Definition METRIC_PATTERN : list item :=
  [ Lit MARKER; Plus isspace; Star (not_char "n"); Lit (lit "n="); Group isdigit;
    Plus isspace; Star (not_char "s"); Lit (lit "solutions="); Group digit_or_dot;
    Plus isspace; Star (not_char "n"); Lit (lit "nodes="); Group isdigit ].

(** ** Python integers: [int(s)] and [str(n)] *)

Definition UNDERSCORE : ascii := chr 95.
Definition MINUS : ascii := chr 45.
Definition PLUS : ascii := chr 43.

(** The digits of a base-10 integer literal: single underscores may
    separate digits. [seen] tells whether the previous character was a
    digit. *)
Fixpoint int_body (acc : Z) (seen : bool) (s : list ascii) : option Z :=
  match s with
  | [] => if seen then Some acc else None
  | c :: s' =>
      if isdigit c then int_body (10 * acc + digit_val c) true s'
      else if ascii_eqb c UNDERSCORE then
        (if seen then int_body acc false s' else None)
      else None
  end.

(** The white space [int] allows around the digits: TAB..CR and the
    space, and NEL and NBSP, which it reads as spaces.  The separators
    FS..US, which [str.strip] removes, are not among them. *)
Definition int_space (c : ascii) : bool :=
  let n := code c in
  ((9 <=? n) && (n <=? 13) || (n =? 32) || (n =? 133) || (n =? 160))%N.

Fixpoint int_lstrip (s : list ascii) : list ascii :=
  match s with
  | c :: s' => if int_space c then int_lstrip s' else s
  | [] => []
  end.

Definition int_strip (s : list ascii) : list ascii :=
  rev (int_lstrip (rev (int_lstrip s))).

(** [int(s)] for a string [s]; [None] stands for [ValueError].  The
    interpreter's limit on the number of digits of such a conversion
    (4300 unless it is configured otherwise) is not part of the model. *)
Definition py_int (s : list ascii) : option Z :=
  match int_strip s with
  | c :: r =>
      if ascii_eqb c MINUS then option_map Z.opp (int_body 0 false r)
      else if ascii_eqb c PLUS then int_body 0 false r
      else int_body 0 false (c :: r)
  | [] => None
  end.

Definition digit_chr (d : Z) : ascii := chr (Z.to_N (48 + d)).

(** Decimal digits of a natural number, most significant first, in
    front of [acc]. *)
Fixpoint udigits (fuel : nat) (n : Z) (acc : list ascii) : list ascii :=
  match fuel with
  | O => acc
  | S f =>
      let acc' := digit_chr (n mod 10) :: acc in
      if n <? 10 then acc' else udigits f (n / 10) acc'
  end.

(** [str(n)] for an integer [n].  The interpreter refuses to convert
    integers of more than 4300 digits, in either direction; that limit
    is not part of [str_of_Z] and [py_int]. *)
Definition str_of_Z (n : Z) : list ascii :=
  if n <? 0 then MINUS :: udigits (S (Z.to_nat (Z.log2 (- n)))) (- n) []
  else udigits (S (Z.to_nat (Z.log2 n))) n [].

(** ** [repr] of a string *)

Definition BACKSLASH : ascii := chr 92.
Definition APOSTROPHE : ascii := chr 39.
Definition TAB : ascii := chr 9.

(** The characters [repr] leaves as they are: below 256 the printable
    ones are the ASCII ones from the space to the tilde and the
    characters above NBSP other than the soft hyphen. *)
Definition printable (c : ascii) : bool :=
  let n := code c in
  ((32 <=? n) && (n <? 127) || (161 <=? n) && negb (n =? 173))%N.

Definition hex_digit (n : N) : ascii :=
  if (n <? 10)%N then chr (48 + n) else chr (87 + n).

Definition repr_char (quote c : ascii) : list ascii :=
  if ascii_eqb c quote || ascii_eqb c BACKSLASH then [BACKSLASH; c]
  else if ascii_eqb c TAB then lit "\t"
  else if ascii_eqb c (chr 10) then lit "\n"
  else if ascii_eqb c (chr 13) then lit "\r"
  else if printable c then [c]
  else lit "\x" ++ [hex_digit (code c / 16); hex_digit (code c mod 16)].

(** [repr(s)]: double quotes are used when the string has a single
    quote and no double quote. *)
Definition py_repr (s : list ascii) : list ascii :=
  let quote :=
    if existsb (fun c => ascii_eqb c APOSTROPHE) s
       && negb (existsb (fun c => ascii_eqb c (chr 34)) s)
    then chr 34 else APOSTROPHE in
  quote :: flat_map (repr_char quote) s ++ [quote].

(** [sep.join(l)] *)
Fixpoint join (sep : list ascii) (l : list (list ascii)) : list ascii :=
  match l with
  | [] => []
  | [x] => x
  | x :: rest => x ++ sep ++ join sep rest
  end.

(** ** Python floats

    The harness only converts floats from and to text and stores them;
    both conversions belong to the interpreter. *)
Class PyFloat : Type := {
  pyfloat : Type;
  (** [float(s)]; [None] stands for [ValueError] *)
  float_of_str : list ascii -> option pyfloat;
  (** [str(x)] *)
  str_of_float : pyfloat -> list ascii
}.

(** ** Values, exceptions and the world *)

Abbreviation path := (list (list ascii)).
Abbreviation command := (list (list ascii)).
Abbreviation environment := (gmap (list ascii) (list ascii)).

Inductive oserror : Type :=
  | FileExistsError | FileNotFoundError | NotADirectoryError | IsADirectoryError.

Inductive exn : Type :=
  | RuntimeError (msg : list ascii)
  | ValueError (msg : list ascii)
  | KeyError (key : list ascii)
  | TypeError
  | CsvError (msg : list ascii)
  | OSError (kind : oserror) (p : path)
  | CalledProcessError (returncode : Z) (cmd : command)
      (output stderr : option (list ascii)).

Inductive result (A : Type) : Type :=
  | Ok (a : A)
  | Raise (e : exn).
Arguments Ok {A} a.
Arguments Raise {A} e.

Definition rbind {A B} (r : result A) (k : A -> result B) : result B :=
  match r with Ok a => k a | Raise e => Raise e end.

Fixpoint map_result {A B} (f : A -> result B) (l : list A) : result (list B) :=
  match l with
  | [] => Ok []
  | x :: l' => rbind (f x) (fun y => rbind (map_result f l') (fun ys => Ok (y :: ys)))
  end.

(** A file carries its permission bits and its text, a directory its
    permission bits; the entries of a directory are the paths below it. *)
Inductive node : Type :=
  | File (mode : Z) (data : list ascii)
  | Dir (mode : Z).

Abbreviation filesystem := (gmap (list (list ascii)) node).

Section Values.
Context `{PyFloat}.

Inductive pyval : Type :=
  | VStr (s : list ascii)
  | VInt (n : Z)
  | VFloat (x : pyfloat)
  | VNone.

(** Lines the harness prints on its standard output. *)
Inductive console : Type :=
  | BuildLine (cwd : option path) (cmd : command)
  | RunLine (name : list ascii) (size : Z) (time_sec : pyfloat) (max_rss nodes : Z)
  | DoneLine (rel : path).

(** What the harness does to its surroundings, in the order it does it. *)
Inductive event : Type :=
  | EvPrint (l : console)
  | EvChmod (p : path) (mode : Z)
  | EvMkdir (p : path)
  | EvRun (cmd : command) (cwd : path)        (* a build command is started *)
  | EvPrepare (name : list ascii)             (* a preparer is called       *)
  | EvExec (cmd : command) (cwd : path) (env : environment)
                                              (* a measured command is started *)
  | EvOpen (p : path)
  | EvWrite (p : path) (data : list ascii)
  | EvClose (p : path).

Record world : Type := World {
  fs : filesystem;
  trace : list event
}.

(** The outcome of the measured command as the worker sees it. *)
Record completed : Type := Completed {
  c_returncode : Z;
  c_stdout : list ascii;
  c_stderr : list ascii;
  c_elapsed : pyfloat;
  c_max_rss : Z
}.

(** What the parent sees of the measurement helper process. *)
Record helper : Type := Helper {
  h_exitcode : Z;
  h_queue : option completed;
  h_fs : filesystem
}.

End Values.

(** The machine the harness runs on. *)
Class Host `{PyFloat} : Type := {
  (** the repository root, [Path(__file__).resolve().parent.parent] *)
  ROOT : path;
  cpu_count : option Z;
  environ : environment;
  (** the file mode creation mask of the process *)
  umask : Z;
  (** [os.access(p, os.X_OK)] *)
  access_x : filesystem -> path -> bool;
  (** [shutil.which] *)
  which : filesystem -> list ascii -> option (list ascii);
  (** a build command run to completion: its exit status, or the error
      of starting it, and the files it leaves *)
  shell : command -> path -> option environment -> world -> result Z * filesystem;
  (** the helper process that runs and measures one command, as the
      parent finds it once the helper has ended.  The parent joins the
      helper before it reads the queue, so a helper whose result does
      not fit the pipe of the queue never ends and the parent waits for
      it for ever: such a run has no outcome and is not represented. *)
  spawn : command -> path -> environment -> world -> helper
}.

Section Monad.
Context `{Host}.

Definition M (A : Type) : Type := world -> result A * world.

Definition ret {A} (a : A) : M A := fun w => (Ok a, w).

Definition raise {A} (e : exn) : M A := fun w => (Raise e, w).

Definition bind {A B} (c : M A) (k : A -> M B) : M B :=
  fun w => match c w with
           | (Ok a, w') => k a w'
           | (Raise e, w') => (Raise e, w')
           end.

(** [try: c finally: h] *)
Definition finally {A} (c : M A) (h : M unit) : M A :=
  fun w => match c w with
           | (r, w') => match h w' with
                        | (Ok _, w'') => (r, w'')
                        | (Raise e, w'') => (Raise e, w'')
                        end
           end.

Definition emit (e : event) : M unit :=
  fun w => (Ok tt, World (fs w) (trace w ++ [e])).

Definition get_fs : M filesystem := fun w => (Ok (fs w), w).

Definition put_fs (f : filesystem) : M unit :=
  fun w => (Ok tt, World f (trace w)).

Definition get_world : M world := fun w => (Ok w, w).

End Monad.

Notation "x <~ c ;; k" := (bind c (fun x => k))
  (at level 60, c at next level, right associativity).
Notation "c ;;; k" := (bind c (fun _ => k))
  (at level 60, right associativity).

Section Monad2.
Context `{Host}.

(** [for x in xs: body x] *)
Fixpoint for_each {A} (xs : list A) (body : A -> M unit) : M unit :=
  match xs with
  | [] => ret tt
  | x :: xs' => body x ;;; for_each xs' body
  end.

End Monad2.

(** ** Paths and the file system *)

Definition sub (p : path) (s : string) : path := p ++ [lit s].
Infix "</>" := sub (at level 40, left associativity).

Definition SLASH : ascii := chr 47.

(** [str(p)] for an absolute path. *)
Definition path_str (p : path) : list ascii :=
  match p with
  | [] => [SLASH]
  | _ => flat_map (fun c => SLASH :: c) p
  end.

Fixpoint strip_components (root p : path) : option path :=
  match root, p with
  | [], _ => Some p
  | a :: root', b :: p' =>
      if bool_decide (a = b) then strip_components root' p' else None
  | _ :: _, [] => None
  end.

Definition is_some {A} (o : option A) : bool :=
  match o with Some _ => true | None => false end.

Definition is_dir (f : filesystem) (p : path) : bool :=
  match f !! p with Some (Dir _) => true | _ => false end.

Definition st_mode (n : node) : Z :=
  match n with File m _ => m | Dir m => m end.

Definition set_mode (m : Z) (n : node) : node :=
  match n with File _ d => File m d | Dir _ => Dir m end.

Definition append_data (data : list ascii) (n : node) : node :=
  match n with File m d => File m (d ++ data) | Dir m => Dir m end.

Section FileSystem.
Context `{Host}.

Definition when (b : bool) (c : M unit) : M unit := if b then c else ret tt.

(** [except] *)
Definition catch {A} (c : M A) (h : exn -> M A) : M A :=
  fun w => match c w with
           | (Ok a, w') => (Ok a, w')
           | (Raise e, w') => h e w'
           end.

(** [p.relative_to(root)] *)
Definition relative_to (p root : path) : M path :=
  match strip_components root p with
  | Some rel => ret rel
  | None => raise (ValueError (path_str p))
  end.

(** [p.exists()] *)
Definition exists_ (p : path) : M bool :=
  f <~ get_fs ;; ret (is_some (f !! p)).

(** [os.mkdir(p)] *)
Definition os_mkdir (p : path) : M unit :=
  emit (EvMkdir p) ;;;
  f <~ get_fs ;;
  match f !! p with
  | Some _ => raise (OSError FileExistsError p)
  | None =>
      match f !! removelast p with
      | None => raise (OSError FileNotFoundError p)
      | Some (File _ _) => raise (OSError NotADirectoryError p)
      | Some (Dir _) => put_fs (<[p := Dir (Z.land 511 (Z.lnot umask))]> f)
      end
  end.

(** [p.mkdir(parents=.., exist_ok=..)]; the fuel bounds the climb to
    the ancestors, [mkdir] below gives enough of it. *)
Fixpoint path_mkdir (fuel : nat) (parents exist_ok : bool) (p : path) : M unit :=
  catch (os_mkdir p) (fun e =>
    match e with
    | OSError FileNotFoundError _ =>
        if negb parents || bool_decide (removelast p = p) then raise e
        else match fuel with
             | O => raise e
             | S n => path_mkdir n true true (removelast p) ;;;
                      path_mkdir n false exist_ok p
             end
    | _ =>
        f <~ get_fs ;;
        if negb exist_ok || negb (is_dir f p) then raise e else ret tt
    end).

Definition mkdir (parents exist_ok : bool) (p : path) : M unit :=
  path_mkdir (S (length p)) parents exist_ok p.

(** [p.chmod(p.stat().st_mode | 0o111)] *)
Definition chmod_exec (p : path) : M unit :=
  f <~ get_fs ;;
  match f !! p with
  | None => raise (OSError FileNotFoundError p)
  | Some n =>
      let m := Z.lor (st_mode n) 73 in
      emit (EvChmod p m) ;;; put_fs (<[p := set_mode m n]> f)
  end.

(** The idiom
    [if p.exists() and not os.access(p, os.X_OK): p.chmod(...)]. *)
Definition fix_permission (p : path) : M unit :=
  f <~ get_fs ;;
  when (is_some (f !! p) && negb (access_x f p)) (chmod_exec p).

(** [p.open("w", newline="")] *)
Definition open_w (p : path) : M unit :=
  emit (EvOpen p) ;;;
  f <~ get_fs ;;
  match f !! p with
  | Some (Dir _) => raise (OSError IsADirectoryError p)
  | Some (File m _) => put_fs (<[p := File m []]> f)
  | None =>
      match f !! removelast p with
      | None => raise (OSError FileNotFoundError p)
      | Some (File _ _) => raise (OSError NotADirectoryError p)
      | Some (Dir _) => put_fs (<[p := File (Z.land 438 (Z.lnot umask)) []]> f)
      end
  end.

(** [file.write(data)] on the file opened at [p] *)
Definition file_write (p : path) (data : list ascii) : M unit :=
  emit (EvWrite p data) ;;;
  f <~ get_fs ;;
  put_fs (alter (append_data data) p f).

Definition file_close (p : path) : M unit := emit (EvClose p).

(** ** Build commands *)

Definition JOBS : Z :=
  Z.max 1 (match cpu_count with
           | Some n => if n =? 0 then 1 else n
           | None => 1
           end).

Definition run (cmd : command) (cwd : path) (env : option environment) : M unit :=
  shown <~ (if bool_decide (cwd = ROOT) then ret None
            else rel <~ relative_to cwd ROOT ;; ret (Some rel)) ;;
  emit (EvPrint (BuildLine shown cmd)) ;;;
  emit (EvRun cmd cwd) ;;;
  w <~ get_world ;;
  match shell cmd cwd env w with
  | (r, f') =>
      put_fs f' ;;;
      match r with
      | Ok rc => if rc =? 0 then ret tt
                 else raise (CalledProcessError rc cmd None None)
      | Raise e => raise e
      end
  end.

Definition words (l : list string) : command := map lit l.

Definition ensure_buddy : M unit :=
  let exe := ROOT </> "BuDDy" </> "examples" </> "queen" </> "queen" in
  let lib := ROOT </> "BuDDy" </> "src" </> "libbdd.la" in
  let buddy_dir := ROOT </> "BuDDy" in
  let configure_script := buddy_dir </> "configure" in
  fix_permission configure_script ;;;
  b <~ exists_ (buddy_dir </> "config.status") ;;
  when (negb b) (run (words ["./configure"]) buddy_dir None) ;;;
  b <~ exists_ lib ;;
  when (negb b) (run (words ["make"]) buddy_dir None) ;;;
  b <~ exists_ exe ;;
  when (negb b) (run (words ["make"; "-C"; "examples/queen"; "queen"]) buddy_dir None) ;;;
  run (words ["make"; "-C"; "examples/queen"; "queen"]) buddy_dir None.

Definition ensure_sylvan : M unit :=
  let binary := ROOT </> "sylvan" </> "build" </> "examples" </> "nqueens_fast" in
  b <~ exists_ binary ;;
  if b then ret tt
  else
    run (words ["cmake"; "-S"; "sylvan"; "-B"; "sylvan/build";
                "-DSYLVAN_STATS=ON"; "-DBUILD_SHARED_LIBS=OFF";
                "-DCMAKE_BUILD_TYPE=Release"]) ROOT None ;;;
    run (words ["cmake"; "--build"; "sylvan/build"; "--target"; "nqueens_fast"]
         ++ [lit "-j" ++ str_of_Z JOBS]) ROOT None.

Definition ensure_cudd : M unit :=
  let cudd_dir := ROOT </> "cudd" in
  let lib := cudd_dir </> "cudd" </> ".libs" </> "libcudd.a" in
  b <~ exists_ lib ;;
  when (negb b)
    (let configure_script := cudd_dir </> "configure" in
     fix_permission configure_script ;;;
     b <~ exists_ (cudd_dir </> "config.status") ;;
     when (negb b) (run (words ["./configure"]) cudd_dir None) ;;;
     run ([lit "make"; lit "-j" ++ str_of_Z JOBS]
          ++ words ["ACLOCAL=true"; "AUTOMAKE=true"; "AUTOCONF=true";
                    "AUTOHEADER=true"]) cudd_dir None) ;;;
  let exe := ROOT </> "cudd" </> "bin" </> "nqueens_bdd" in
  b <~ exists_ exe ;;
  when (negb b)
    (mkdir true true (ROOT </> "cudd" </> "bin") ;;;
     run (words ["gcc"; "-O3"; "-I./cudd"; "-I./cudd/cudd"; "-I./cudd/mtr";
                 "-I./cudd/st"; "-I./cudd/util"; "-I./cudd/epd";
                 "-o"; "cudd/bin/nqueens_bdd"; "cudd/examples/nqueens_bdd.c";
                 "cudd/cudd/.libs/libcudd.a"; "-lm"]) ROOT None).

Definition ensure_jdd : M unit :=
  let classes_flag := ROOT </> "jdd" </> "build" </> "classes" </> "java"
                        </> "main" </> "jdd" </> "examples" </> "BDDQueens.class" in
  b <~ exists_ classes_flag ;;
  if b then ret tt
  else
    let gradlew := ROOT </> "jdd" </> "gradlew" in
    fix_permission gradlew ;;;
    run (words ["./gradlew"; "--no-daemon"; "classes"]) (ROOT </> "jdd") None.

Definition ensure_jsylvan : M unit :=
  f <~ get_fs ;;
  let env_with_pkg :=
    match which f (lit "pkg-config") with
    | Some (c :: r) =>
        <[lit "PKG_CONFIG_EXECUTABLE" := c :: r]>
          (<[lit "PKG_CONFIG" := c :: r]> environ)
    | _ => environ
    end in
  let native_lib := ROOT </> "jsylvan" </> "src" </> "main" </> "resources"
                      </> "linux-x64" </> "libsylvan-java.so" in
  b <~ exists_ native_lib ;;
  when (negb b)
    (let build_script := ROOT </> "jsylvan" </> "src" </> "main" </> "c"
                           </> "sylvan-java" </> "build-sylvan.sh" in
     fix_permission build_script ;;;
     run (words ["./src/main/c/sylvan-java/build-sylvan.sh";
                 "https://github.com/trolando/sylvan.git"; "v1.4.1"])
         (ROOT </> "jsylvan") (Some env_with_pkg)) ;;;
  let jar := ROOT </> "jsylvan" </> "target" </> "sylvan-1.0.0-SNAPSHOT.jar" in
  b <~ exists_ jar ;;
  when (negb b)
    (run (words ["mvn"; "-q"; "-DskipTests"; "package"]) (ROOT </> "jsylvan") None).

End FileSystem.

(** ** Implementations, measurement and metrics *)

Section Harness.
Context `{Host}.

Record Implementation : Type := {
  name : list ascii;
  language : list ascii;
  preparer : option (M unit);
  command_builder : Z -> Z -> command;
  workdir : path;
  extra_env : environment
}.

(** [Implementation.__init__] *)
Definition new_implementation (name language : string) (preparer : option (M unit))
    (command_builder : Z -> Z -> command) (workdir : option path)
    (extra_env : option environment) : Implementation :=
  {| name := lit name;
     language := lit language;
     preparer := preparer;
     command_builder := command_builder;
     workdir := default ROOT workdir;
     extra_env := default ∅ extra_env |}.

Definition ensure_ready (impl : Implementation) : M unit :=
  match preparer impl with
  | Some p => emit (EvPrepare (name impl)) ;;; p
  | None => ret tt
  end.

Definition command_for (impl : Implementation) (size workers : Z) : command :=
  command_builder impl size workers.

(** [env = os.environ.copy(); env.update(self.extra_env)] *)
Definition base_env (impl : Implementation) : environment :=
  extra_env impl ∪ environ.

(** The dictionary the measurement helper sends back. *)
Record measurement : Type := {
  returncode : Z;
  stdout : list ascii;
  stderr : list ascii;
  elapsed : pyfloat;
  max_rss : Z;
  cmd : command
}.

Definition execute_with_metrics (cmd : command) (cwd : path) (env : environment)
    : M measurement :=
  emit (EvExec cmd cwd env) ;;;
  w <~ get_world ;;
  let h := spawn cmd cwd env w in
  put_fs (h_fs h) ;;;
  if negb (h_exitcode h =? 0) then
    raise (RuntimeError (lit "Measurement helper failed"))
  else
    match h_queue h with
    | None => raise (RuntimeError (lit "Measurement helper returned no data"))
    | Some c =>
        ret {| returncode := c_returncode c;
               stdout := c_stdout c;
               stderr := c_stderr c;
               elapsed := c_elapsed c;
               max_rss := c_max_rss c;
               cmd := cmd |}
    end.

(** The loop of [parse_metrics]: the last line the pattern finds a
    match in. *)
Definition last_match (lines : list (list ascii)) : option (list (list ascii)) :=
  fold_left (fun found line =>
               match re_search METRIC_PATTERN line with
               | Some g => Some g
               | None => found
               end) lines None.

Definition group (g : list (list ascii)) (i : nat) : list ascii :=
  nth (i - 1) g [].

Definition parse_metrics (stdout : list ascii) : result (Z * pyfloat * Z) :=
  match last_match (splitlines (strip stdout)) with
  | None =>
      Raise (RuntimeError (lit "Failed to parse NQUEENS_METRICS from program output"))
  | Some g =>
      match py_int (group g 1) with
      | None => Raise (ValueError (group g 1))
      | Some size =>
          match float_of_str (group g 2) with
          | None => Raise (ValueError (group g 2))
          | Some solutions =>
              match py_int (group g 3) with
              | None => Raise (ValueError (group g 3))
              | Some nodes => Ok (size, solutions, nodes)
              end
          end
      end
  end.

Definition lift {A} (r : result A) : M A :=
  match r with Ok a => ret a | Raise e => raise e end.

Abbreviation row := (gmap (list ascii) pyval).

Definition size_mismatch (name : list ascii) (measured expected : Z) : list ascii :=
  lit "Implementation " ++ name ++ lit " reported size " ++ str_of_Z measured
    ++ lit " but expected " ++ str_of_Z expected.

Definition run_implementation (impl : Implementation) (size workers : Z) : M row :=
  let cmd := command_for impl size workers in
  let env := base_env impl in
  result <~ execute_with_metrics cmd (workdir impl) env ;;
  if negb (returncode result =? 0) then
    raise (CalledProcessError (returncode result) (Harness.cmd result)
             (Some (stdout result)) (Some (stderr result)))
  else
    m <~ lift (parse_metrics (stdout result)) ;;
    match m with
    | (measured_size, solutions, nodes) =>
        if negb (measured_size =? size) then
          raise (RuntimeError (size_mismatch (name impl) measured_size size))
        else
          let time_sec := elapsed result in
          let max_rss := max_rss result in
          emit (EvPrint (RunLine (name impl) size time_sec max_rss nodes)) ;;;
          ret (list_to_map
                 [ (lit "implementation", VStr (name impl));
                   (lit "language", VStr (language impl));
                   (lit "size", VInt size);
                   (lit "time_sec", VFloat time_sec);
                   (lit "max_rss_kb", VInt max_rss);
                   (lit "nodes", VInt nodes);
                   (lit "solutions", VFloat solutions) ])
    end.

(** ** The result table *)

Definition RESULTS_DIR : path := ROOT </> "results".

Definition fieldnames : list (list ascii) :=
  words ["implementation"; "language"; "size"; "time_sec"; "max_rss_kb";
         "nodes"; "solutions"].

(** How [csv.writer] turns a field value into text. *)
Definition field_text (v : pyval) : list ascii :=
  match v with
  | VStr s => s
  | VNone => []
  | VInt n => str_of_Z n
  | VFloat x => str_of_float x
  end.

(** Characters that make the writer quote a field: the delimiter, the
    quote character and the characters of the line terminator. *)
Definition special (c : ascii) : bool :=
  ascii_eqb c COMMA || ascii_eqb c QUOTE || ascii_eqb c CR || ascii_eqb c LF.

Definition double_quotes (s : list ascii) : list ascii :=
  flat_map (fun c => if ascii_eqb c QUOTE then [QUOTE; QUOTE] else [c]) s.

Definition csv_field (s : list ascii) : list ascii :=
  if existsb special s then QUOTE :: double_quotes s ++ [QUOTE] else s.

Fixpoint join_fields (fields : list (list ascii)) : list ascii :=
  match fields with
  | [] => []
  | [x] => x
  | x :: rest => x ++ COMMA :: join_fields rest
  end.

(** One record as [csv.writer.writerow] writes it: a record that would
    be empty is written as an empty quoted field. *)
Definition csv_record (fields : list (list ascii)) : list ascii :=
  let body := join_fields (map csv_field fields) in
  match fields, body with
  | _ :: _, [] => [QUOTE; QUOTE; CR; LF]
  | _, _ => body ++ [CR; LF]
  end.

(** [DictWriter._dict_to_list]: the keys that are no column are named
    in the error, in the order of the set they form, which is the
    interpreter's; the model lists them in the order of [elements]. *)
Definition dict_to_list (names : list (list ascii)) (r : row) : result (list pyval) :=
  if bool_decide (dom r ⊆ list_to_set names) then
    Ok (map (fun k => default (VStr []) (r !! k)) names)
  else
    let wrong_fields := elements (dom r ∖ list_to_set names) in
    Raise (ValueError (lit "dict contains fields not in fieldnames: "
                       ++ join (lit ", ") (map py_repr wrong_fields))).

Definition writerow (names : list (list ascii)) (p : path) (r : row) : M unit :=
  vals <~ lift (dict_to_list names r) ;;
  file_write p (csv_record (map field_text vals)).

Definition writeheader (names : list (list ascii)) (p : path) : M unit :=
  writerow names p (list_to_map (map (fun k => (k, VStr k)) names)).

Definition write_results (rows : list row) (output_path : path) : M unit :=
  mkdir false true RESULTS_DIR ;;;
  open_w output_path ;;;
  finally
    (writeheader fieldnames output_path ;;;
     for_each rows (writerow fieldnames output_path))
    (file_close output_path) ;;;
  rel <~ relative_to output_path ROOT ;;
  emit (EvPrint (DoneLine rel)).

(** ** The sweep *)

Record arguments : Type := {
  sizes : list Z;
  workers : Z;
  output : path
}.

(** [for x in xs: acc = body x acc] *)
Fixpoint for_fold {A B} (xs : list A) (acc : B) (body : A -> B -> M B) : M B :=
  match xs with
  | [] => ret acc
  | x :: xs' => acc' <~ body x acc ;; for_fold xs' acc' body
  end.

Definition COLON : ascii := chr 58.

Definition ld_library_path (dir : path) : environment :=
  {[ lit "LD_LIBRARY_PATH" :=
       path_str dir ++ COLON :: default [] (environ !! lit "LD_LIBRARY_PATH") ]}.

Definition implementations : list Implementation :=
  [ new_implementation "BuDDy" "C" (Some ensure_buddy)
      (fun size _ =>
         [path_str (ROOT </> "BuDDy" </> "examples" </> "queen" </> "queen");
          str_of_Z size])
      (Some ROOT)
      (Some (ld_library_path (ROOT </> "BuDDy" </> "src" </> ".libs")));
    new_implementation "Sylvan" "C" (Some ensure_sylvan)
      (fun size workers =>
         [path_str (ROOT </> "sylvan" </> "build" </> "examples" </> "nqueens_fast");
          lit "-w"; str_of_Z workers; str_of_Z size])
      (Some ROOT)
      (Some (ld_library_path (ROOT </> "sylvan" </> "build" </> "src")));
    new_implementation "CUDD" "C" (Some ensure_cudd)
      (fun size _ =>
         [path_str (ROOT </> "cudd" </> "bin" </> "nqueens_bdd"); str_of_Z size])
      None None;
    new_implementation "JDD" "Java" (Some ensure_jdd)
      (fun size _ =>
         words ["java"; "-cp"; "build/classes/java/main"; "jdd.examples.BDDQueens"]
         ++ [str_of_Z size])
      (Some (ROOT </> "jdd")) None;
    new_implementation "JSylvan" "Java" (Some ensure_jsylvan)
      (fun size workers =>
         words ["java"; "-cp"; "target/sylvan-1.0.0-SNAPSHOT.jar";
                "jsylvan.examples.JSylvanNQueens"; "-w"]
         ++ [str_of_Z workers; str_of_Z size])
      (Some (ROOT </> "jsylvan")) None ].

(** The body of [main] after the implementations are listed. *)
Definition sweep (impls : list Implementation) (args : arguments) : M unit :=
  for_each impls ensure_ready ;;;
  rows <~ for_fold (sizes args) []
            (fun size rows =>
               for_fold impls rows
                 (fun impl rows =>
                    r <~ run_implementation impl size (workers args) ;;
                    ret (rows ++ [r]))) ;;
  write_results rows (output args).

Definition main (args : arguments) : M unit := sweep implementations args.

End Harness.

(** ** Reading the table back ([plot_nqueens_results.py]) *)

(** Text mode with [newline=None]: CR LF and a lone CR are read as LF.
    [pending] tells that the previous character was a CR, so that an
    LF that follows belongs to it. *)
Fixpoint translate_newlines (pending : bool) (s : list ascii) : list ascii :=
  match s with
  | [] => []
  | c :: s' =>
      if ascii_eqb c CR then LF :: translate_newlines true s'
      else if ascii_eqb c LF && pending then translate_newlines false s'
      else c :: translate_newlines false s'
  end.

Definition universal_newlines (s : list ascii) : list ascii :=
  translate_newlines false s.

(** Iterating over a text file: each line keeps its LF. *)
Fixpoint lines_from (cur s : list ascii) : list (list ascii) :=
  match s with
  | [] => match cur with [] => [] | _ => [cur] end
  | c :: s' =>
      if ascii_eqb c LF then (cur ++ [LF]) :: lines_from [] s'
      else lines_from (cur ++ [c]) s'
  end.

Definition file_lines (s : list ascii) : list (list ascii) := lines_from [] s.

(** The states of [csv.reader] that the default dialect can reach. *)
Inductive parser_state : Type :=
  | START_RECORD | START_FIELD | IN_FIELD | IN_QUOTED_FIELD
  | QUOTE_IN_QUOTED_FIELD | EAT_CRNL.

Record reader : Type := Reader {
  state : parser_state;
  field : list ascii;
  fields : list (list ascii)
}.

Definition parse_reset : reader := Reader START_RECORD [] [].

Definition parse_save_field (st : parser_state) (r : reader) : reader :=
  Reader st [] (fields r ++ [field r]).

Definition parse_add_char (st : parser_state) (c : ascii) (r : reader) : reader :=
  Reader st (field r ++ [c]) (fields r).

Definition set_state (st : parser_state) (r : reader) : reader :=
  Reader st (field r) (fields r).

Definition is_newline (c : ascii) : bool := ascii_eqb c LF || ascii_eqb c CR.

Definition start_field (c : option ascii) (r : reader) : reader :=
  match c with
  | None => parse_save_field START_RECORD r
  | Some c =>
      if is_newline c then parse_save_field EAT_CRNL r
      else if ascii_eqb c QUOTE then set_state IN_QUOTED_FIELD r
      else if ascii_eqb c COMMA then parse_save_field START_FIELD r
      else parse_add_char IN_FIELD c r
  end.

(** [parse_process_char]; [None] is the end of a line. *)
Definition parse_process_char (r : reader) (c : option ascii) : result reader :=
  match state r with
  | START_RECORD =>
      match c with
      | None => Ok r
      | Some c' => if is_newline c' then Ok (set_state EAT_CRNL r)
                   else Ok (start_field c r)
      end
  | START_FIELD => Ok (start_field c r)
  | IN_FIELD =>
      match c with
      | None => Ok (parse_save_field START_RECORD r)
      | Some c =>
          if is_newline c then Ok (parse_save_field EAT_CRNL r)
          else if ascii_eqb c COMMA then Ok (parse_save_field START_FIELD r)
          else Ok (parse_add_char IN_FIELD c r)
      end
  | IN_QUOTED_FIELD =>
      match c with
      | None => Ok r
      | Some c =>
          if ascii_eqb c QUOTE then Ok (set_state QUOTE_IN_QUOTED_FIELD r)
          else Ok (parse_add_char IN_QUOTED_FIELD c r)
      end
  | QUOTE_IN_QUOTED_FIELD =>
      match c with
      | None => Ok (parse_save_field START_RECORD r)
      | Some c =>
          if ascii_eqb c QUOTE then Ok (parse_add_char IN_QUOTED_FIELD c r)
          else if ascii_eqb c COMMA then Ok (parse_save_field START_FIELD r)
          else if is_newline c then Ok (parse_save_field EAT_CRNL r)
          else Ok (parse_add_char IN_FIELD c r)
      end
  | EAT_CRNL =>
      match c with
      | None => Ok (set_state START_RECORD r)
      | Some c =>
          if is_newline c then Ok r
          else Raise (CsvError (lit "new-line character seen in unquoted field"))
      end
  end.

Fixpoint parse_line (r : reader) (line : list ascii) : result reader :=
  match line with
  | [] => parse_process_char r None
  | c :: line' => rbind (parse_process_char r (Some c)) (fun r' => parse_line r' line')
  end.

Definition in_quoted (r : reader) : bool :=
  match state r with IN_QUOTED_FIELD => true | _ => false end.

Definition at_start (r : reader) : bool :=
  match state r with START_RECORD => true | _ => false end.

(** All the records of the input: a record ends with the line that
    brings the parser back to [START_RECORD]; the input may end inside
    a record. *)
Fixpoint csv_reader (r : reader) (lines : list (list ascii))
    : result (list (list (list ascii))) :=
  match lines with
  | [] =>
      match field r with
      | [] => if in_quoted r then Ok [fields r ++ [field r]] else Ok []
      | _ => Ok [fields r ++ [field r]]
      end
  | l :: ls =>
      rbind (parse_line r l) (fun r' =>
        if at_start r' then
          rbind (csv_reader parse_reset ls) (fun recs => Ok (fields r' :: recs))
        else csv_reader r' ls)
  end.

Section Reading.
Context `{PyFloat}.

Definition is_nil {A} (l : list A) : bool :=
  match l with [] => true | _ => false end.

(** [dict(zip(names, rec))], then the names without a field are given
    [None]; the surplus fields of a long record are stored under a key
    that is not a string and are not represented. *)
Definition zip_row (names rec : list (list ascii)) : gmap (list ascii) pyval :=
  fold_left (fun d kv => <[fst kv := snd kv]> d)
    (combine names (map VStr rec)
     ++ map (fun k => (k, VNone)) (drop (length rec) names)) ∅.

(** [csv.DictReader]: the first record names the columns, empty
    records after it are skipped. *)
Definition dict_reader (records : list (list (list ascii)))
    : list (gmap (list ascii) pyval) :=
  match records with
  | [] => []
  | names :: data => map (zip_row names) (List.filter (fun r => negb (is_nil r)) data)
  end.

(** [row[key] = conv(row[key])] *)
Definition convert (key : string) (conv : list ascii -> option pyval)
    (r : gmap (list ascii) pyval) : result (gmap (list ascii) pyval) :=
  match r !! lit key with
  | None => Raise (KeyError (lit key))
  | Some (VStr s) =>
      match conv s with
      | Some v => Ok (<[lit key := v]> r)
      | None => Raise (ValueError s)
      end
  | Some _ => Raise TypeError
  end.

Definition to_int (s : list ascii) : option pyval := option_map VInt (py_int s).
Definition to_float (s : list ascii) : option pyval := option_map VFloat (float_of_str s).

Definition read_row (r : gmap (list ascii) pyval) : result (gmap (list ascii) pyval) :=
  rbind (convert "size" to_int r) (fun r =>
  rbind (convert "time_sec" to_float r) (fun r =>
  rbind (convert "max_rss_kb" to_int r) (fun r =>
  rbind (convert "nodes" to_int r) (fun r =>
  convert "solutions" to_float r)))).

Definition read_rows (f : filesystem) (csv_path : path)
    : result (list (gmap (list ascii) pyval)) :=
  match f !! csv_path with
  | None => Raise (OSError FileNotFoundError csv_path)
  | Some (Dir _) => Raise (OSError IsADirectoryError csv_path)
  | Some (File _ data) =>
      rbind (csv_reader parse_reset (file_lines (universal_newlines data)))
        (fun records => map_result read_row (dict_reader records))
  end.

End Reading.

(** * Notions used in the statements

    The definitions above follow the two scripts.  The ones below say
    what the theorems are about; none of them is part of the harness. *)

(** ** Text *)

(** the next character, if any, is outside the class *)
Definition stops (c : ascii -> bool) (s : list ascii) : bool :=
  match s with
  | [] => true
  | x :: _ => negb (c x)
  end.

Definition nonempty (s : list ascii) : bool :=
  match s with [] => false | _ => true end.

(** [p] occurs somewhere in [s] *)
Fixpoint occurs (p s : list ascii) : bool :=
  is_some (strip_prefix p s)
  || match s with
     | [] => false
     | _ :: s' => occurs p s'
     end.

(** ** The metrics line in the words of the specification

    A line qualifies when, among its tokens (the pieces white space
    separates), the marker comes first, then a token [n=<integer>],
    then a token [solutions=<decimal>], then a token
    [nodes=<integer>], other tokens being allowed in between. *)

Definition is_integer (v : list ascii) : bool := nonempty v && forallb isdigit v.

(** [str.split()] *)
Fixpoint tokens_from (cur s : list ascii) : list (list ascii) :=
  match s with
  | [] => match cur with [] => [] | _ => [cur] end
  | c :: s' =>
      if isspace c then
        match cur with
        | [] => tokens_from [] s'
        | _ => cur :: tokens_from [] s'
        end
      else tokens_from (cur ++ [c]) s'
  end.

Definition tokens (s : list ascii) : list (list ascii) := tokens_from [] s.

(** digits with at most one point among them *)
Definition is_decimal_text (v : list ascii) : bool :=
  forallb digit_or_dot v && existsb isdigit v
  && (length (List.filter (fun c => negb (isdigit c)) v) <=? 1)%nat.

(** the value of a token [key<value>] whose value is of the kind given *)
Definition field_value (key : string) (kind : list ascii -> bool) (token : list ascii)
    : option (list ascii) :=
  match strip_prefix (lit key) token with
  | Some v => if kind v then Some v else None
  | None => None
  end.

(** the first such field among the tokens, and the tokens after it *)
Fixpoint next_field (key : string) (kind : list ascii -> bool)
    (toks : list (list ascii)) : option (list ascii * list (list ascii)) :=
  match toks with
  | [] => None
  | t :: rest =>
      match field_value key kind t with
      | Some v => Some (v, rest)
      | None => next_field key kind rest
      end
  end.

(** the tokens after the marker token *)
Fixpoint after_marker (toks : list (list ascii)) : option (list (list ascii)) :=
  match toks with
  | [] => None
  | t :: rest => if bool_decide (t = MARKER) then Some rest else after_marker rest
  end.

(** The triple a line holds in the words of the specification, as the
    texts of its three values; [None] when the line does not qualify. *)
Definition embedded_triple (line : list ascii)
    : option (list ascii * list ascii * list ascii) :=
  match after_marker (tokens line) with
  | None => None
  | Some r0 =>
      match next_field "n=" is_integer r0 with
      | None => None
      | Some (n, r1) =>
          match next_field "solutions=" is_decimal_text r1 with
          | None => None
          | Some (s, r2) =>
              match next_field "nodes=" is_integer r2 with
              | None => None
              | Some (k, _) => Some (n, s, k)
              end
          end
      end
  end.

(** ** The metrics lines the pattern accepts *)

(** The pieces after the marker: white space [ws], other text [j] and
    the three values [d]; [post] is the rest of the line. *)
Record fields3 : Type := {
  ws1 : list ascii; j1 : list ascii; d1 : list ascii;
  ws2 : list ascii; j2 : list ascii; d2 : list ascii;
  ws3 : list ascii; j3 : list ascii; d3 : list ascii;
  post : list ascii
}.

Definition body (m : fields3) : list ascii :=
  ws1 m ++ j1 m ++ lit "n=" ++ d1 m
  ++ ws2 m ++ j2 m ++ lit "solutions=" ++ d2 m
  ++ ws3 m ++ j3 m ++ lit "nodes=" ++ d3 m ++ post m.

(** The text before [n=] and before [nodes=] has no letter n, the
    text before [solutions=] no letter s; white space comes first in
    each gap, and no digit follows the last value. *)
Definition well_formed (m : fields3) : bool :=
  nonempty (ws1 m) && forallb isspace (ws1 m) && forallb (not_char "n") (j1 m)
  && nonempty (d1 m) && forallb isdigit (d1 m)
  && nonempty (ws2 m) && forallb isspace (ws2 m) && forallb (not_char "s") (j2 m)
  && nonempty (d2 m) && forallb digit_or_dot (d2 m)
  && nonempty (ws3 m) && forallb isspace (ws3 m) && forallb (not_char "n") (j3 m)
  && nonempty (d3 m) && forallb isdigit (d3 m)
  && stops isdigit (post m).

(** A metrics line: text without the marker, the marker, the fields. *)
Definition metrics_line (pre : list ascii) (m : fields3) : list ascii :=
  pre ++ MARKER ++ body m.

(** a line in which the pattern finds no match *)
Definition no_match (l : list ascii) : Prop := re_search METRIC_PATTERN l = None.

(** a match of the pattern starts at the head of the text *)
Definition starts_match (s : list ascii) : Prop :=
  exists m, s = MARKER ++ body m /\ well_formed m = true.

(** the pattern finds a match somewhere in the line *)
Definition matched (line : list ascii) : Prop :=
  exists pre m, line = metrics_line pre m /\ well_formed m = true.

(** no match starts inside [pre], before the text [rest] *)
Definition leftmost (pre rest : list ascii) : Prop :=
  forall u v, pre = u ++ v -> v <> [] -> ~ starts_match (v ++ rest).

(** one turn of the loop of [parse_metrics] *)
Definition keep_last (found : option (list (list ascii))) (line : list ascii)
    : option (list (list ascii)) :=
  match re_search METRIC_PATTERN line with
  | Some g => Some g
  | None => found
  end.

(** ** The table as the reader sees it *)

(** a field of the file after newline translation *)
Definition field_as_read (s : list ascii) : list ascii :=
  if existsb special s then QUOTE :: double_quotes (universal_newlines s) ++ [QUOTE]
  else s.

Definition record_as_read (fields : list (list ascii)) : list ascii :=
  join_fields (map field_as_read fields) ++ [LF].

Definition several {A} (l : list A) : Prop := (2 <= length l)%nat.

(** the characters of a line without its end *)
Fixpoint parse_chars (r : reader) (l : list ascii) : result reader :=
  match l with
  | [] => Ok r
  | c :: l' => rbind (parse_process_char r (Some c)) (fun r' => parse_chars r' l')
  end.

Definition end_of_input (r : reader) : result (list (list (list ascii))) :=
  csv_reader r [].

(** The reader fed with the text instead of its lines: the end of a
    line follows every LF, and the end of the text when characters are
    [pending] on its last line. *)
Fixpoint stream (r : reader) (pending : bool) (s : list ascii)
    : result (list (list (list ascii))) :=
  match s with
  | [] =>
      if pending then
        rbind (parse_process_char r None) (fun r2 =>
          if at_start r2 then Ok [fields r2] else end_of_input r2)
      else end_of_input r
  | c :: s' =>
      rbind (parse_process_char r (Some c)) (fun r1 =>
        if ascii_eqb c LF then
          rbind (parse_process_char r1 None) (fun r2 =>
            if at_start r2 then
              rbind (stream parse_reset false s') (fun recs => Ok (fields r2 :: recs))
            else stream r2 false s')
        else stream r1 true s')
  end.

(** a reader that is about to read a field *)
Definition fresh (st : parser_state) : Prop := st = START_RECORD \/ st = START_FIELD.

(** ** Result Records *)

Section Records.
Context `{PyFloat}.

Record result_record : Type := {
  rec_implementation : list ascii;
  rec_language : list ascii;
  rec_size : Z;
  rec_time_sec : pyfloat;
  rec_max_rss_kb : Z;
  rec_nodes : Z;
  rec_solutions : pyfloat
}.

(** the dictionary [run_implementation] builds for a record *)
Definition to_row (r : result_record) : gmap (list ascii) pyval :=
  list_to_map
    [ (lit "implementation", VStr (rec_implementation r));
      (lit "language", VStr (rec_language r));
      (lit "size", VInt (rec_size r));
      (lit "time_sec", VFloat (rec_time_sec r));
      (lit "max_rss_kb", VInt (rec_max_rss_kb r));
      (lit "nodes", VInt (rec_nodes r));
      (lit "solutions", VFloat (rec_solutions r)) ].

(** the record as [read_rows] gives it back: the numbers as they
    were, the two strings with their newlines translated *)
Definition read_back (r : result_record) : result_record :=
  {| rec_implementation := universal_newlines (rec_implementation r);
     rec_language := universal_newlines (rec_language r);
     rec_size := rec_size r;
     rec_time_sec := rec_time_sec r;
     rec_max_rss_kb := rec_max_rss_kb r;
     rec_nodes := rec_nodes r;
     rec_solutions := rec_solutions r |}.

Definition fields_of (r : result_record) : list (list ascii) :=
  [ rec_implementation r; rec_language r; str_of_Z (rec_size r);
    str_of_float (rec_time_sec r); str_of_Z (rec_max_rss_kb r);
    str_of_Z (rec_nodes r); str_of_float (rec_solutions r) ].

(** What the interpreter promises about floats as text: [float(str(x))]
    is [x], for every [x] that equals itself, and [str(x)] needs no
    quoting in a table. *)
Definition floats_round_trip : Prop :=
  forall x : pyfloat, float_of_str (str_of_float x) = Some x.

Definition floats_plain : Prop :=
  forall x : pyfloat, existsb special (str_of_float x) = false.

(** a relation between the world before and after every computation *)
Definition respects (R : world -> world -> Prop) {A} (c : M A) : Prop :=
  forall w, R w (snd (c w)).

End Records.

(** ** Worlds, traces and trials *)

Section Notions.
Context `{Host}.

(** the world in which the helper of a trial is started *)
Definition started (impl : Implementation) (size workers : Z) (w : world) : world :=
  World (fs w)
    (trace w ++ [EvExec (command_for impl size workers) (workdir impl) (base_env impl)]).

(** what the parent sees of that helper *)
Definition helper_of (impl : Implementation) (size workers : Z) (w : world) : helper :=
  spawn (command_for impl size workers) (workdir impl) (base_env impl)
    (started impl size workers w).

Definition make_queen : command := words ["make"; "-C"; "examples/queen"; "queen"].

(** the line of the table for a dictionary *)
Definition row_line (r : gmap (list ascii) pyval) : result (list ascii) :=
  rbind (dict_to_list fieldnames r) (fun vals => Ok (csv_record (map field_text vals))).

Definition header_line : list ascii :=
  lit "implementation,language,size,time_sec,max_rss_kb,nodes,solutions" ++ [CR; LF].

(** the text of a table with the given lines *)
Definition table_text (ls : list (list ascii)) : list ascii :=
  header_line ++ concat ls.

(** the part of [write_results] after the output file is opened *)
Definition after_open (rows : list (gmap (list ascii) pyval)) (output_path : path)
    : M unit :=
  finally
    (writeheader fieldnames output_path ;;;
     for_each rows (writerow fieldnames output_path))
    (file_close output_path) ;;;
  rel <~ relative_to output_path ROOT ;;
  emit (EvPrint (DoneLine rel)).

(** the events that start a preparer or a measured command *)
Definition is_call (e : event) : bool :=
  match e with
  | EvPrepare _ | EvExec _ _ _ => true
  | _ => false
  end.

Definition calls (t : list event) : list event := List.filter is_call t.

(** a step that starts no preparer and no measured command *)
Definition quietly (w w' : world) : Prop := calls (trace w') = calls (trace w).

Definition quiet {A} (c : M A) : Prop := respects quietly c.

(** later worlds only add events *)
Definition follows (w w' : world) : Prop := exists evs, trace w' = trace w ++ evs.

(** a directory stays a directory *)
Definition keeps (d : path) (w w' : world) : Prop :=
  is_dir (fs w) d = true -> is_dir (fs w') d = true.

(** the preparer call of an implementation, if it has a preparer *)
Definition prepared (impl : Implementation) : list event :=
  match preparer impl with
  | Some _ => [EvPrepare (name impl)]
  | None => []
  end.

(** the measured command of a trial *)
Definition measured (workers size : Z) (impl : Implementation) : event :=
  EvExec (command_for impl size workers) (workdir impl) (base_env impl).

(** what tells the trial a record belongs to *)
Definition trial_of (r : gmap (list ascii) pyval) : option pyval * option pyval :=
  (r !! lit "size", r !! lit "implementation").

Definition trial (size : Z) (impl : Implementation) : option pyval * option pyval :=
  (Some (VInt size), Some (VStr (name impl))).

Definition quiet_preparer (impl : Implementation) : Prop :=
  forall p, preparer impl = Some p -> quiet p.

(** the inner loop of the sweep *)
Definition one_size (workers size : Z) (impls : list Implementation)
    (rows : list (gmap (list ascii) pyval)) : M (list (gmap (list ascii) pyval)) :=
  for_fold impls rows
    (fun impl rows =>
       r <~ run_implementation impl size workers ;; ret (rows ++ [r])).

End Notions.

(** ** The preparers and the trials of a sweep, one after the other *)

Section SweepNotions.
Context `{Host}.

(** the world in which the preparer of an implementation starts *)
Definition called (impl : Implementation) (w : world) : world :=
  World (fs w) (trace w ++ [EvPrepare (name impl)]).

(** The preparers of the list run once each, in the order of the list,
    each in the world the one before it left; [None] when one of them
    fails. *)
Fixpoint prepare_each (impls : list Implementation) (w : world) : option world :=
  match impls with
  | [] => Some w
  | impl :: rest =>
      match preparer impl with
      | None => prepare_each rest w
      | Some p =>
          match p (called impl w) with
          | (Ok _, w1) => prepare_each rest w1
          | (Raise _, _) => None
          end
      end
  end.

(** the trials of a sweep: the sizes in the order given and, for each
    size, the implementations in the order of the list *)
Definition trial_pairs (sizes : list Z) (impls : list Implementation)
    : list (Z * Implementation) :=
  flat_map (fun size => map (pair size) impls) sizes.

(** The trials of the list run once each, in the order of the list,
    each in the world the one before it left, the record of each put
    after the records before it; [None] when one of them fails. *)
Fixpoint run_trials (workers : Z) (pairs : list (Z * Implementation))
    (rows : list (gmap (list ascii) pyval)) (w : world)
    : option (list (gmap (list ascii) pyval) * world) :=
  match pairs with
  | [] => Some (rows, w)
  | (size, impl) :: rest =>
      match run_implementation impl size workers w with
      | (Ok r, w1) => run_trials workers rest (rows ++ [r]) w1
      | (Raise _, _) => None
      end
  end.

(** the measured command and the trial of a pair *)
Definition measured_pair (workers : Z) (p : Z * Implementation) : event :=
  measured workers (fst p) (snd p).

Definition trial_pair (p : Z * Implementation) : option pyval * option pyval :=
  trial (fst p) (snd p).

End SweepNotions.

#[global] Arguments calls : simpl never.

(** ** A bench to run the model on

    An interpreter whose floats are whole numbers written as
    integers, a machine whose build commands end with a given status
    and leave the files alone, and measured programs given as
    functions of their command line. *)

Definition whole_floats : PyFloat :=
  {| pyfloat := Z; float_of_str := py_int; str_of_float := str_of_Z |}.

Definition bench_host (status : Z) (program : command -> @completed whole_floats)
    : @Host whole_floats :=
  {| ROOT := [lit "bench"];
     cpu_count := Some 4;
     environ := ∅;
     umask := 18;
     access_x := fun _ _ => true;
     which := fun _ _ => None;
     shell := fun _ _ _ w => (Ok status, fs w);
     spawn := fun cmd _ _ w => Helper 0 (Some (program cmd)) (fs w) |}.

(** a program that reports the size it is asked for *)
Definition echo_program (cmd : command) : @completed whole_floats :=
  @Completed whole_floats 0
    (lit "NQUEENS_METRICS n=" ++ List.last cmd [] ++ lit " solutions=2 nodes=10" ++ [LF])
    [] 7 1000.

(** a program that always reports size 5 *)
Definition stuck_program (cmd : command) : @completed whole_floats :=
  @Completed whole_floats 0 (lit "NQUEENS_METRICS n=5 solutions=10 nodes=50" ++ [LF]) [] 7 1000.

(** a program that prints nothing and exits with status 1 *)
Definition failing_program (cmd : command) : @completed whole_floats :=
  @Completed whole_floats 1 [] [] 7 1000.

(** the root directory, the repository and a directory outside it *)
Definition bench_world : @world whole_floats :=
  @World whole_floats (list_to_map [ ([], Dir 493); ([lit "bench"], Dir 493); ([lit "tmp"], Dir 493) ]) [].

(** the same with every artifact of BuDDy in place *)
Definition built_world : @world whole_floats :=
  @World whole_floats (list_to_map
           [ ([], Dir 493); ([lit "bench"], Dir 493);
             (words ["bench"; "BuDDy"], Dir 493);
             (words ["bench"; "BuDDy"; "configure"], File 493 []);
             (words ["bench"; "BuDDy"; "config.status"], File 493 []);
             (words ["bench"; "BuDDy"; "src"; "libbdd.la"], File 420 []);
             (words ["bench"; "BuDDy"; "examples"; "queen"; "queen"], File 493 []) ]) [].

Definition stub (program : command -> @completed whole_floats)
    : @Implementation whole_floats :=
  @new_implementation whole_floats (bench_host 0 program) "Stub" "C" None
    (fun size _ => [lit "stub"; str_of_Z size]) None None.

Definition bench_output : path := words ["bench"; "results"; "out.csv"].

Definition outside_output : path := words ["tmp"; "out.csv"].

(** two records; the name of the second needs quoting *)
Definition sample_records : list (@result_record whole_floats) :=
  [ (@Build_result_record whole_floats (lit "BuDDy") (lit "C") 4 7 1000 10 2);
    (@Build_result_record whole_floats (lit "a,b" ++ [QUOTE; CR] ++ lit "c") [] 12 0 (-1) 0 14200) ].

(** a dictionary with a key the table has no column for *)
Definition stray_row : gmap (list ascii) (@pyval whole_floats) :=
  <[lit "note" := VStr (lit "x")]>
    (to_row (@Build_result_record whole_floats (lit "CUDD") (lit "C") 4 1 900 10 2)).

Definition first_row : gmap (list ascii) (@pyval whole_floats) :=
  to_row (List.hd
      (@Build_result_record whole_floats [] [] 0 0 0 0 0) sample_records).

Definition echo_host : @Host whole_floats := bench_host 0 echo_program.

Definition bench_args : arguments :=
  {| sizes := [4; 5]; workers := 0; output := bench_output |}.

(** a metrics line with a token between the marker and the fields *)
Definition engine_line : list ascii :=
  lit "NQUEENS_METRICS engine=x n=4 solutions=2 nodes=10".

Definition summary_line : list ascii :=
  lit "NQUEENS_METRICS n=4 solutions=2 nodes=10".

Definition engine_summary_line : list ascii :=
  lit "NQUEENS_METRICS engine=x n=5 solutions=10 nodes=50".

Definition two_summaries : list ascii :=
  summary_line ++ [LF] ++ engine_summary_line ++ [LF].

(** lines with a token that ends in [n=3] before the fields *)
Definition seen_line : list ascii :=
  lit "NQUEENS_METRICS seen=3 n=4 solutions=2 nodes=10".

Definition seen_summaries : list ascii :=
  summary_line ++ [LF] ++ lit "NQUEENS_METRICS seen=3 n=5 solutions=10 nodes=50" ++ [LF].

(** a line without an [n=] and without a [nodes=] token *)
Definition leaf_line : list ascii :=
  lit "NQUEENS_METRICS seen=3 solutions=2 leafnodes=7".

(** a line whose marker is the end of a longer word *)
Definition glued_line : list ascii :=
  lit "NOT_NQUEENS_METRICS n=4 solutions=2 nodes=10".

Definition plain_fields (n s k : string) : fields3 :=
  {| ws1 := lit " "; j1 := []; d1 := lit n;
     ws2 := lit " "; j2 := []; d2 := lit s;
     ws3 := lit " "; j3 := []; d3 := lit k; post := [] |}.

(** ** The build commands of the preparers, as the statements name them *)

Definition sylvan_configure : command :=
  words ["cmake"; "-S"; "sylvan"; "-B"; "sylvan/build"; "-DSYLVAN_STATS=ON";
         "-DBUILD_SHARED_LIBS=OFF"; "-DCMAKE_BUILD_TYPE=Release"].

Definition cudd_compile : command :=
  words ["gcc"; "-O3"; "-I./cudd"; "-I./cudd/cudd"; "-I./cudd/mtr"; "-I./cudd/st";
         "-I./cudd/util"; "-I./cudd/epd"; "-o"; "cudd/bin/nqueens_bdd";
         "cudd/examples/nqueens_bdd.c"; "cudd/cudd/.libs/libcudd.a"; "-lm"].

Definition gradle_classes : command := words ["./gradlew"; "--no-daemon"; "classes"].

Section MoreNotions.
Context `{Host}.

Definition sylvan_build : command :=
  words ["cmake"; "--build"; "sylvan/build"; "--target"; "nqueens_fast"]
  ++ [lit "-j" ++ str_of_Z JOBS].

(** the world in which a build command started at the root runs: the
    line of the command is printed and its start recorded *)
Definition announced (cmd : command) (w : world) : world :=
  World (fs w) (trace w ++ [EvPrint (BuildLine None cmd); EvRun cmd ROOT]).

End MoreNotions.

(** ** The end of the script

    The block under [if __name__ == "__main__"], after the arguments
    are parsed: the script falls off its end when [main] returns, and
    on an exception prints one line on its standard error and leaves
    through [sys.exit]. *)

(** the line printed on the standard error *)
Inductive complaint : Type :=
  | CommandFailed (returncode : Z) (cmd : command)
      (* [error] Command failed with exit code ..: .. *)
  | Failed (e : exn).
      (* [error] followed by the text of the exception *)

Inductive ending : Type :=
  | Finished
  | SysExit (code : Z) (said : complaint).

Section Script.
Context `{Host}.

Definition script (args : arguments) (w : world) : ending * world :=
  match main args w with
  | (Ok _, w') => (Finished, w')
  | (Raise (CalledProcessError rc cmd _ _), w') => (SysExit rc (CommandFailed rc cmd), w')
  | (Raise e, w') => (SysExit 1 (Failed e), w')
  end.

(** the harness opens, writes or closes a file *)
Definition is_file_event (e : event) : bool :=
  match e with
  | EvOpen _ | EvWrite _ _ | EvClose _ => true
  | _ => false
  end.

(** a step in which the harness opens, writes and closes no file *)
Definition untouched (w w' : world) : Prop :=
  List.filter is_file_event (trace w') = List.filter is_file_event (trace w).

(** the errors a computation may end with *)
Definition raises_only (Q : exn -> Prop) {A} (c : M A) : Prop :=
  forall w e, fst (c w) = Raise e -> Q e.

(** an error that is not a command ending with status zero *)
Definition nonzero_status (e : exn) : Prop :=
  match e with
  | CalledProcessError rc _ _ _ => rc <> 0
  | _ => True
  end.

(** a build command that cannot be started fails with an error of
    the operating system *)
Definition start_errors_are_os_errors : Prop :=
  forall cmd cwd env w e,
    fst (shell cmd cwd env w) = Raise e -> exists kind p, e = OSError kind p.

Definition silent_preparer (impl : Implementation) : Prop :=
  forall p, preparer impl = Some p -> respects untouched p.

End Script.

(** ** Rows as the plots take them *)

Section ReadNotions.
Context `{PyFloat}.

(** a row whose five measures are numbers *)
Definition numeric (r : gmap (list ascii) pyval) : Prop :=
  exists n t m k s,
    r !! lit "size" = Some (VInt n)
    /\ r !! lit "time_sec" = Some (VFloat t)
    /\ r !! lit "max_rss_kb" = Some (VInt m)
    /\ r !! lit "nodes" = Some (VInt k)
    /\ r !! lit "solutions" = Some (VFloat s).

End ReadNotions.

Section TextNotions.
Context `{PyFloat}.

(** a row that holds, under a key, text the conversion accepts *)
Definition holds_text (conv : list ascii -> option pyval) (key : string)
    (r : gmap (list ascii) pyval) : Prop :=
  exists s v, r !! lit key = Some (VStr s) /\ conv s = Some v.

(** a row of a table as [csv.DictReader] gives it, with text that reads
    as a number in each of the five measures *)
Definition numeric_text (r : gmap (list ascii) pyval) : Prop :=
  holds_text to_int "size" r
  /\ holds_text to_float "time_sec" r
  /\ holds_text to_int "max_rss_kb" r
  /\ holds_text to_int "nodes" r
  /\ holds_text to_float "solutions" r.

End TextNotions.

(** ** More of the bench *)

(** a machine whose measurement helper ends with the given exit code
    and has put the given data, if any, on the queue *)
Definition helper_host (exitcode : Z) (data : option (@completed whole_floats))
    : @Host whole_floats :=
  {| ROOT := [lit "bench"];
     cpu_count := Some 4;
     environ := ∅;
     umask := 18;
     access_x := fun _ _ => true;
     which := fun _ _ => None;
     shell := fun _ _ _ w => (Ok 0, fs w);
     spawn := fun _ _ _ w => Helper exitcode data (fs w) |}.

Definition some_stub : @Implementation whole_floats := stub echo_program.

(** a program that ends well and prints no metrics *)
Definition silent_program (cmd : command) : @completed whole_floats :=
  @Completed whole_floats 0 (lit "hello world" ++ [LF]) [] 7 1000.

(** a tree in which the artifacts of Sylvan, CUDD, JDD and JSylvan
    are in place *)
Definition ready_world : @world whole_floats :=
  @World whole_floats (list_to_map
           [ ([], Dir 493); ([lit "bench"], Dir 493);
             (words ["bench"; "sylvan"; "build"; "examples"; "nqueens_fast"], File 493 []);
             (words ["bench"; "cudd"; "cudd"; ".libs"; "libcudd.a"], File 420 []);
             (words ["bench"; "cudd"; "bin"; "nqueens_bdd"], File 493 []);
             (words ["bench"; "jdd"; "build"; "classes"; "java"; "main"; "jdd";
                     "examples"; "BDDQueens.class"], File 420 []);
             (words ["bench"; "jsylvan"; "src"; "main"; "resources"; "linux-x64";
                     "libsylvan-java.so"], File 493 []);
             (words ["bench"; "jsylvan"; "target"; "sylvan-1.0.0-SNAPSHOT.jar"],
              File 420 []) ]) [].

(** a tree with the CUDD library and no executable *)
Definition cudd_library_world : @world whole_floats :=
  @World whole_floats (list_to_map
           [ ([], Dir 493); ([lit "bench"], Dir 493);
             (words ["bench"; "cudd"], Dir 493);
             (words ["bench"; "cudd"; "cudd"; ".libs"; "libcudd.a"], File 420 []) ]) [].

(** a machine whose build commands all end with status 2 *)
Definition failing_build_host : @Host whole_floats := bench_host 2 echo_program.

(** a program that prints nothing and exits with status 3 *)
Definition aborting_program (cmd : command) : @completed whole_floats :=
  @Completed whole_floats 3 [] (lit "out of memory") 7 1000.

Definition aborting_host : @Host whole_floats := bench_host 0 aborting_program.

(** the world of the bench after the preparers have run *)
Definition prepared_world (host : @Host whole_floats) : @world whole_floats :=
  snd (@for_each whole_floats _ (@implementations whole_floats host)
         (@ensure_ready whole_floats) bench_world).

(** a file system that holds one file, a table with the given text *)
Definition table_file (text : list ascii) : filesystem :=
  {[ bench_output := File 420 text ]}.

(** a table without a size column *)
Definition sizeless_table : list (list (list ascii)) :=
  [ words ["implementation"; "nodes"]; words ["BuDDy"; "10"] ].

(** a tree in which BuDDy is configured and its library built, without
    the executable *)
Definition buddy_library_world : @world whole_floats :=
  @World whole_floats (list_to_map
           [ ([], Dir 493); ([lit "bench"], Dir 493);
             (words ["bench"; "BuDDy"], Dir 493);
             (words ["bench"; "BuDDy"; "configure"], File 493 []);
             (words ["bench"; "BuDDy"; "config.status"], File 493 []);
             (words ["bench"; "BuDDy"; "src"; "libbdd.la"], File 420 []) ]) [].

(** * Theorems *)

#[global] Arguments ascii_eqb : simpl never.

(** ** Characters *)

Lemma ascii_eqb_eq a b : ascii_eqb a b = true <-> a = b.
Proof.
  unfold ascii_eqb, code. rewrite N.eqb_eq. split; [|congruence].
  intros E. rewrite <- (ascii_N_embedding a), <- (ascii_N_embedding b). congruence.
Qed.

Lemma ascii_eqb_refl a : ascii_eqb a a = true.
Proof. apply ascii_eqb_eq. reflexivity. Qed.

Lemma ascii_eqb_neq a b : ascii_eqb a b = false <-> a <> b.
Proof.
  rewrite <- ascii_eqb_eq. destruct (ascii_eqb a b); split; congruence.
Qed.

Ltac by_cases_on_char c :=
  destruct c as [[] [] [] [] [] [] [] []]; vm_compute; intros; repeat split; congruence.

Lemma space_not_digit c : isspace c = true -> isdigit c = false.
Proof. by_cases_on_char c. Qed.

Lemma space_not_digit_or_dot c : isspace c = true -> digit_or_dot c = false.
Proof. by_cases_on_char c. Qed.

Lemma space_not_n c : isspace c = true -> not_char "n" c = true.
Proof. by_cases_on_char c. Qed.

Lemma space_not_s c : isspace c = true -> not_char "s" c = true.
Proof. by_cases_on_char c. Qed.

Lemma span_class (c : ascii -> bool) (s : list ascii) :
  exists a b, s = a ++ b /\ forallb c a = true /\ stops c b = true.
Proof.
  induction s as [|x s IH].
  - exists [], []. auto.
  - destruct (c x) eqn:E.
    + destruct IH as (a & b & -> & Ha & Hb).
      exists (x :: a), b. simpl. rewrite E. auto.
    + exists [], (x :: s). simpl. rewrite E. auto.
Qed.

Lemma strip_prefix_app p s : strip_prefix p (p ++ s) = Some s.
Proof.
  induction p as [|a p IH]; simpl; [reflexivity|].
  rewrite ascii_eqb_refl. exact IH.
Qed.

Lemma strip_prefix_inv p s t : strip_prefix p s = Some t -> s = p ++ t.
Proof.
  revert s. induction p as [|a p IH]; simpl; intros s E.
  - congruence.
  - destruct s as [|b s]; [discriminate|].
    destruct (ascii_eqb a b) eqn:Eab; [|discriminate].
    apply ascii_eqb_eq in Eab. subst b. f_equal. auto.
Qed.

(** Greedy repetition succeeds at the longest run when the
    continuation does. *)
Lemma greedy_longest {R} c (k : list ascii -> list ascii -> option R) a b r :
  forallb c a = true -> stops c b = true -> k a b = Some r ->
  greedy c k (a ++ b) = Some r.
Proof.
  revert k. induction a as [|x a IH]; simpl; intros k Ha Hb Hk.
  - destruct b as [|y b]; simpl in *; [exact Hk|].
    apply negb_true_iff in Hb. rewrite Hb. exact Hk.
  - apply andb_true_iff in Ha as [Hx Ha]. rewrite Hx.
    rewrite (IH (fun t r => k (x :: t) r) Ha Hb Hk). reflexivity.
Qed.

Lemma at_least_one_longest {R} c (k : list ascii -> list ascii -> option R) a b r :
  a <> [] -> forallb c a = true -> stops c b = true -> k a b = Some r ->
  at_least_one c k (a ++ b) = Some r.
Proof.
  destruct a as [|x a]; [congruence|]. simpl. intros _ Ha Hb Hk.
  apply andb_true_iff in Ha as [Hx Ha]. rewrite Hx.
  apply (greedy_longest c (fun t r => k (x :: t) r)); assumption.
Qed.

(** Anything greedy repetition returns comes from the continuation at
    some split. *)
Lemma greedy_inv {R} c (k : list ascii -> list ascii -> option R) s r :
  greedy c k s = Some r ->
  exists a b, s = a ++ b /\ forallb c a = true /\ k a b = Some r.
Proof.
  revert k. induction s as [|x s IH]; simpl; intros k E.
  - exists [], []. auto.
  - destruct (c x) eqn:Hx.
    + destruct (greedy c (fun t r => k (x :: t) r) s) eqn:G.
      * injection E as ->. apply IH in G as (a & b & -> & Ha & Hk).
        exists (x :: a), b. simpl. rewrite Hx. auto.
      * exists [], (x :: s). auto.
    + exists [], (x :: s). auto.
Qed.

Lemma forallb_app_true {A} (f : A -> bool) l1 l2 :
  forallb f (l1 ++ l2) = true <-> forallb f l1 = true /\ forallb f l2 = true.
Proof. rewrite forallb_app. apply andb_true_iff. Qed.

Lemma forallb_weaken {A} (f g : A -> bool) l :
  (forall x, f x = true -> g x = true) -> forallb f l = true -> forallb g l = true.
Proof.
  intros Hfg. induction l; simpl; auto.
  intros E. apply andb_true_iff in E as [E1 E2]. rewrite (Hfg _ E1). auto.
Qed.

(** Skipping to a field: whitespace, then text free of the character
    the field name starts with, then the field name. *)
Lemma rmatch_skip (x : string) y name p ws j s r :
  lit x = [y] -> isspace y = false ->
  (forall c, isspace c = true -> not_char x c = true) ->
  ws <> [] -> forallb isspace ws = true -> forallb (not_char x) j = true ->
  rmatch p s = Some r ->
  rmatch (Plus isspace :: Star (not_char x) :: Lit (y :: name) :: p)
         (ws ++ j ++ (y :: name) ++ s) = Some r.
Proof.
  intros Hx Hy Hsp Hws Hws' Hj Hr.
  destruct (span_class isspace j) as (ja & jb & -> & Hja & Hjb).
  apply forallb_app_true in Hj as [_ Hjb'].
  change (rmatch (Plus isspace :: ?q) ?t) with
    (at_least_one isspace (fun _ r => rmatch q r) t).
  replace (ws ++ (ja ++ jb) ++ (y :: name) ++ s)
    with ((ws ++ ja) ++ (jb ++ (y :: name) ++ s)) by (rewrite <- !app_assoc; reflexivity).
  apply at_least_one_longest.
  - destruct ws; [congruence | discriminate].
  - apply forallb_app_true. auto.
  - destruct jb as [|z jb]; simpl in *; [rewrite Hy; reflexivity | exact Hjb].
  - change (rmatch (Star ?c :: ?q) ?t) with (greedy c (fun _ r => rmatch q r) t).
    apply greedy_longest.
    + exact Hjb'.
    + simpl. unfold not_char. rewrite Hx, ascii_eqb_refl. reflexivity.
    + change (rmatch (Lit ?l :: ?q) ?t) with
        (match strip_prefix l t with Some s' => rmatch q s' | None => None end).
      rewrite strip_prefix_app. exact Hr.
Qed.

Lemma rmatch_group c p d s r :
  d <> [] -> forallb c d = true -> stops c s = true -> rmatch p s = Some r ->
  rmatch (Group c :: p) (d ++ s) = Some (d :: r).
Proof.
  intros Hd Hc Hs Hr.
  change (rmatch (Group c :: p) (d ++ s)) with
    (at_least_one c (fun t r => option_map (cons t) (rmatch p r)) (d ++ s)).
  apply at_least_one_longest; auto. rewrite Hr. reflexivity.
Qed.

Lemma stops_space c ws s :
  (forall x, isspace x = true -> c x = false) ->
  ws <> [] -> forallb isspace ws = true -> stops c (ws ++ s) = true.
Proof.
  intros Hc Hws Hsp. destruct ws as [|x ws]; [congruence|]. simpl in *.
  apply andb_true_iff in Hsp as [Hx _]. rewrite (Hc _ Hx). reflexivity.
Qed.

Lemma nonempty_true s : nonempty s = true -> s <> [].
Proof. destruct s; simpl; congruence. Qed.

Lemma rmatch_body m :
  well_formed m = true ->
  rmatch METRIC_PATTERN (MARKER ++ body m) = Some [d1 m; d2 m; d3 m].
Proof.
  unfold well_formed. rewrite !andb_true_iff.
  intros [[[[[[[[[[[[[[[A1 A2] A3] A4] A5] A6] A7] A8] A9] A10] A11] A12] A13] A14] A15] A16].
  apply nonempty_true in A1, A4, A6, A9, A11, A14.
  unfold METRIC_PATTERN.
  change (rmatch (Lit ?l :: ?q) ?t) with
    (match strip_prefix l t with Some s' => rmatch q s' | None => None end).
  rewrite strip_prefix_app. unfold body.
  apply (rmatch_skip "n" "n"%char (lit "=")); auto using space_not_n.
  apply rmatch_group; auto.
  { apply stops_space; auto using space_not_digit. }
  apply (rmatch_skip "s" "s"%char (lit "olutions=")); auto using space_not_s.
  apply rmatch_group; auto.
  { apply stops_space; auto using space_not_digit_or_dot. }
  apply (rmatch_skip "n" "n"%char (lit "odes=")); auto using space_not_n.
  replace (d3 m ++ post m) with (d3 m ++ post m) by reflexivity.
  apply rmatch_group; auto.
Qed.

Lemma strip_prefix_within p v s :
  is_some (strip_prefix p v) = true -> is_some (strip_prefix p (v ++ s)) = true.
Proof.
  revert v. induction p as [|a p IH]; intros v; simpl; [reflexivity|].
  destruct v as [|b v]; simpl; [discriminate|].
  destruct (ascii_eqb a b); auto.
Qed.

Ltac step_eqb :=
  match goal with
  | |- context [ascii_eqb ?a ?b] =>
      first [ is_var b; destruct (ascii_eqb a b)
            | let v := eval vm_compute in (ascii_eqb a b) in
              change (ascii_eqb a b) with v ]
  end.

(** The marker does not overlap itself: an occurrence that starts
    before another one ends before it. *)
Lemma marker_no_overlap v rest :
  v <> [] ->
  is_some (strip_prefix MARKER (v ++ MARKER ++ rest)) = true ->
  is_some (strip_prefix MARKER v) = true.
Proof.
  intros Hv.
  let m := eval vm_compute in MARKER in change MARKER with m.
  do 15 (destruct v as [|? v];
         [ try congruence; cbn [strip_prefix app is_some];
           repeat (step_eqb; cbn [strip_prefix app is_some]); congruence | ]).
  cbn [strip_prefix app is_some].
  repeat (step_eqb; cbn [strip_prefix app is_some]); congruence.
Qed.

Lemma re_search_at p pre s g :
  (forall u v, pre = u ++ v -> v <> [] -> rmatch p (v ++ s) = None) ->
  rmatch p s = Some g ->
  re_search p (pre ++ s) = Some g.
Proof.
  induction pre as [|x pre IH]; intros Hpre Hs.
  - simpl. destruct s; simpl; rewrite Hs; reflexivity.
  - assert (E : rmatch p ((x :: pre) ++ s) = None)
      by (apply (Hpre [] (x :: pre)); [reflexivity | discriminate]).
    simpl in *. rewrite E.
    apply IH; [|exact Hs].
    intros u v -> Hv. apply (Hpre (x :: u) v); auto.
Qed.

Lemma occurs_suffix p u v : occurs p (u ++ v) = false -> is_some (strip_prefix p v) = false.
Proof.
  induction u as [|x u IH]; simpl.
  - destruct v; simpl; intros E; apply orb_false_iff in E; tauto.
  - intros E. apply orb_false_iff in E as [_ E]. auto.
Qed.



(** ** [int] on a run of digits *)

Lemma int_body_digits d acc seen :
  forallb isdigit d = true -> (d <> [] \/ seen = true) ->
  int_body acc seen d = Some (fold_left (fun a c => 10 * a + digit_val c) d acc).
Proof.
  revert acc seen. induction d as [|c d IH]; simpl; intros acc seen Hd Hne.
  - destruct Hne as [Hne | ->]; congruence.
  - apply andb_true_iff in Hd as [Hc Hd]. rewrite Hc. apply IH; auto.
Qed.

Lemma lstrip_id s : stops isspace s = true -> lstrip s = s.
Proof.
  destruct s as [|c s]; simpl; [reflexivity|].
  intros E. apply negb_true_iff in E. rewrite E. reflexivity.
Qed.

Lemma strip_id s :
  stops isspace s = true -> stops isspace (rev s) = true -> strip s = s.
Proof.
  intros H1 H2. unfold strip, rstrip. rewrite (lstrip_id s H1), (lstrip_id _ H2).
  apply rev_involutive.
Qed.

Lemma stops_forallb (c c' : ascii -> bool) s :
  (forall x, c' x = true -> c x = false) -> forallb c' s = true -> stops c s = true.
Proof.
  intros Hc. destruct s as [|x s]; simpl; [reflexivity|].
  intros E. apply andb_true_iff in E as [E _]. rewrite (Hc _ E). reflexivity.
Qed.

Lemma digit_not_space c : isdigit c = true -> isspace c = false.
Proof. by_cases_on_char c. Qed.

Lemma digit_not_sign c :
  isdigit c = true -> ascii_eqb c MINUS = false /\ ascii_eqb c PLUS = false.
Proof. by_cases_on_char c. Qed.

Lemma forallb_rev {A} (f : A -> bool) l : forallb f (rev l) = forallb f l.
Proof.
  induction l as [|x l IH]; simpl; [reflexivity|].
  rewrite forallb_app, IH. simpl. rewrite andb_true_r. apply andb_comm.
Qed.

Lemma int_space_space c : int_space c = true -> isspace c = true.
Proof. by_cases_on_char c. Qed.

Lemma int_lstrip_id s : stops isspace s = true -> int_lstrip s = s.
Proof.
  destruct s as [|c s]; simpl; [reflexivity|].
  intros E. apply negb_true_iff in E.
  destruct (int_space c) eqn:Ec; [|reflexivity].
  apply int_space_space in Ec. congruence.
Qed.

Lemma int_strip_id s :
  stops isspace s = true -> stops isspace (rev s) = true -> int_strip s = s.
Proof.
  intros H1 H2. unfold int_strip. rewrite (int_lstrip_id s H1), (int_lstrip_id _ H2).
  apply rev_involutive.
Qed.

Lemma py_int_digits d :
  d <> [] -> forallb isdigit d = true -> py_int d = Some (digits_val d).
Proof.
  intros Hne Hd. unfold py_int.
  rewrite int_strip_id.
  - destruct d as [|c r]; [congruence|].
    pose proof Hd as Hd'. simpl in Hd'. apply andb_true_iff in Hd' as [Hc _].
    destruct (digit_not_sign c Hc) as [-> ->].
    apply int_body_digits; auto.
  - apply (stops_forallb _ isdigit); auto using digit_not_space.
  - apply (stops_forallb _ isdigit); auto using digit_not_space.
    rewrite forallb_rev. exact Hd.
Qed.

(** ** The loop over the lines *)

Lemma fold_no_match lines found :
  Forall (fun l => re_search METRIC_PATTERN l = None) lines ->
  fold_left keep_last lines found = found.
Proof.
  intros Hl. revert found. induction Hl as [|l lines Hl _ IH]; intros found; simpl.
  - reflexivity.
  - unfold keep_last at 2. rewrite Hl. apply IH.
Qed.

Lemma last_match_last before q after g :
  re_search METRIC_PATTERN q = Some g ->
  Forall (fun l => re_search METRIC_PATTERN l = None) after ->
  last_match (before ++ q :: after) = Some g.
Proof.
  intros Hq Ha. unfold last_match.
  change (fold_left keep_last (before ++ q :: after) None = Some g).
  rewrite fold_left_app. simpl. unfold keep_last at 2. rewrite Hq.
  apply fold_no_match. exact Ha.
Qed.

Lemma last_match_none lines :
  Forall (fun l => re_search METRIC_PATTERN l = None) lines ->
  last_match lines = None.
Proof. intros Hl. apply (fold_no_match lines None Hl). Qed.

(** ** What a match gives back *)

Lemma rmatch_lit_inv l p s g :
  rmatch (Lit l :: p) s = Some g -> exists s', s = l ++ s' /\ rmatch p s' = Some g.
Proof.
  cbn [rmatch]. destruct (strip_prefix l s) as [s'|] eqn:E; [|discriminate].
  intros Hg. exists s'. split; [apply strip_prefix_inv; exact E | exact Hg].
Qed.

Lemma at_least_one_inv {R} c (k : list ascii -> list ascii -> option R) s r :
  at_least_one c k s = Some r ->
  exists a b, s = a ++ b /\ a <> [] /\ forallb c a = true /\ k a b = Some r.
Proof.
  destruct s as [|x s]; cbn; [discriminate|].
  destruct (c x) eqn:Hx; [|discriminate].
  intros E. apply greedy_inv in E as (a & b & -> & Ha & Hk).
  exists (x :: a), b. cbn. rewrite Hx. repeat split; auto; discriminate.
Qed.

Lemma rmatch_group_inv c p s g :
  rmatch (Group c :: p) s = Some g ->
  exists a b g', s = a ++ b /\ a <> [] /\ forallb c a = true
    /\ rmatch p b = Some g' /\ g = a :: g'.
Proof.
  intros E. change (at_least_one c (fun t r => option_map (cons t) (rmatch p r)) s = Some g) in E.
  apply at_least_one_inv in E as (a & b & -> & Ha & Hc & E).
  destruct (rmatch p b) as [g'|] eqn:Hp; cbn in E; [|discriminate].
  injection E as <-. exists a, b, g'. auto.
Qed.

Lemma nonempty_iff s : s <> [] -> nonempty s = true.
Proof. destruct s; cbn; congruence. Qed.

Lemma rmatch_skip_shape c1 c2 l p s g :
  rmatch (Plus c1 :: Star c2 :: Lit l :: p) s = Some g ->
  exists ws j s',
    s = ws ++ j ++ l ++ s' /\ ws <> [] /\ forallb c1 ws = true
    /\ forallb c2 j = true /\ rmatch p s' = Some g.
Proof.
  intros E.
  change (at_least_one c1 (fun _ r => rmatch (Star c2 :: Lit l :: p) r) s = Some g) in E.
  apply at_least_one_inv in E as (ws & b & -> & Hws & Hc1 & E).
  change (greedy c2 (fun _ r => rmatch (Lit l :: p) r) b = Some g) in E.
  apply greedy_inv in E as (j & b' & -> & Hc2 & E).
  apply rmatch_lit_inv in E as (s' & -> & E).
  exists ws, j, s'. auto.
Qed.

(** The last group takes every character of its class. *)
Lemma rmatch_last_group c s g :
  rmatch [Group c] s = Some g ->
  exists d rest,
    s = d ++ rest /\ d <> [] /\ forallb c d = true /\ stops c rest = true /\ g = [d].
Proof.
  intros E.
  change (at_least_one c (fun t r => option_map (cons t) (rmatch [] r)) s = Some g) in E.
  destruct s as [|x s]; cbn [at_least_one] in E; [discriminate|].
  destruct (c x) eqn:Hx; [|discriminate].
  destruct (span_class c s) as (a & b & -> & Ha & Hb).
  rewrite (greedy_longest c _ a b [x :: a] Ha Hb eq_refl) in E.
  injection E as <-.
  exists (x :: a), b. cbn. rewrite Hx. repeat split; auto; discriminate.
Qed.

Lemma rmatch_shape s g :
  rmatch METRIC_PATTERN s = Some g ->
  exists m, s = MARKER ++ body m /\ well_formed m = true /\ g = [d1 m; d2 m; d3 m].
Proof.
  unfold METRIC_PATTERN. intros E.
  apply rmatch_lit_inv in E as (s1 & -> & E).
  apply rmatch_skip_shape in E as (w1 & g1 & s2 & -> & Hw1 & Hw1' & Hg1 & E).
  apply rmatch_group_inv in E as (n & s3 & r1 & -> & Hn & Hn' & E & ->).
  apply rmatch_skip_shape in E as (w2 & g2 & s4 & -> & Hw2 & Hw2' & Hg2 & E).
  apply rmatch_group_inv in E as (d & s5 & r2 & -> & Hd & Hd' & E & ->).
  apply rmatch_skip_shape in E as (w3 & g3 & s6 & -> & Hw3 & Hw3' & Hg3 & E).
  apply rmatch_last_group in E as (k & rest & -> & Hk & Hk' & Hrest & ->).
  exists {| ws1 := w1; j1 := g1; d1 := n; ws2 := w2; j2 := g2; d2 := d;
            ws3 := w3; j3 := g3; d3 := k; post := rest |}.
  split; [reflexivity|]. split; [|reflexivity].
  unfold well_formed. cbn [ws1 j1 d1 ws2 j2 d2 ws3 j3 d3 post].
  rewrite Hw1', Hg1, Hn', Hw2', Hg2, Hd', Hw3', Hg3, Hk', Hrest.
  rewrite !nonempty_iff by assumption. reflexivity.
Qed.

Lemma starts_match_iff s : starts_match s <-> rmatch METRIC_PATTERN s <> None.
Proof.
  split.
  - intros (m & -> & Hm). rewrite (rmatch_body m Hm). discriminate.
  - destruct (rmatch METRIC_PATTERN s) as [g|] eqn:E; [|congruence].
    intros _. apply rmatch_shape in E as (m & -> & Hm & _). exists m. auto.
Qed.

(** What [search] returns: the groups of the match that starts first. *)
Lemma re_search_shape line g :
  re_search METRIC_PATTERN line = Some g ->
  exists pre m,
    line = metrics_line pre m /\ well_formed m = true
    /\ leftmost pre (MARKER ++ body m) /\ g = [d1 m; d2 m; d3 m].
Proof.
  induction line as [|x line IH]; cbn [re_search].
  - destruct (rmatch METRIC_PATTERN []) as [g'|] eqn:E; [|discriminate].
    intros [= <-]. apply rmatch_shape in E as (m & E & Hm & ->).
    exists [], m. repeat split; auto.
    intros u v Huv Hv. destruct u; destruct v; cbn in Huv; congruence.
  - destruct (rmatch METRIC_PATTERN (x :: line)) as [g'|] eqn:E.
    + intros [= <-]. apply rmatch_shape in E as (m & E' & Hm & ->).
      exists [], m. repeat split; auto.
      intros u v Huv Hv. destruct u; destruct v; cbn in Huv; congruence.
    + intros Hs. apply IH in Hs as (pre & m & -> & Hm & Hl & ->).
      exists (x :: pre), m. repeat split; auto.
      intros u v Huv Hv. destruct u as [|y u]; cbn in Huv.
      * subst v. intros Hsm. apply starts_match_iff in Hsm. apply Hsm.
        exact E.
      * injection Huv as <- ->. apply (Hl u v); auto.
Qed.

Lemma re_search_found p pre s g :
  rmatch p s = Some g -> re_search p (pre ++ s) <> None.
Proof.
  intros Hs. induction pre as [|x pre IH].
  - cbn. destruct s; cbn; rewrite Hs; discriminate.
  - cbn. destruct (rmatch p (x :: pre ++ s)); [discriminate | exact IH].
Qed.

Lemma matched_iff line : matched line <-> re_search METRIC_PATTERN line <> None.
Proof.
  split.
  - intros (pre & m & -> & Hm). unfold metrics_line.
    apply (re_search_found _ _ _ _ (rmatch_body m Hm)).
  - destruct (re_search METRIC_PATTERN line) as [g|] eqn:E; [|congruence].
    intros _. apply re_search_shape in E as (pre & m & -> & Hm & _). exists pre, m. auto.
Qed.

Lemma unmatched_no_match line : ~ matched line -> no_match line.
Proof.
  intros Hn. unfold no_match.
  destruct (re_search METRIC_PATTERN line) as [g|] eqn:E; [|reflexivity].
  exfalso. apply Hn. apply matched_iff. congruence.
Qed.

Lemma re_search_leftmost pre m :
  leftmost pre (MARKER ++ body m) -> well_formed m = true ->
  re_search METRIC_PATTERN (metrics_line pre m) = Some [d1 m; d2 m; d3 m].
Proof.
  intros Hl Hm. unfold metrics_line.
  apply re_search_at; [|apply rmatch_body; exact Hm].
  intros u v Huv Hv.
  destruct (rmatch METRIC_PATTERN (v ++ MARKER ++ body m)) as [g|] eqn:E; [|reflexivity].
  exfalso. apply (Hl u v Huv Hv). apply starts_match_iff. congruence.
Qed.

(** A line without the marker before its marker: the match that
    starts at its marker is the first. *)
Lemma leftmost_no_marker pre rest : occurs MARKER pre = false -> leftmost pre (MARKER ++ rest).
Proof.
  intros Hpre u v -> Hv (m & E & _).
  assert (Hs : is_some (strip_prefix MARKER (v ++ MARKER ++ rest)) = true)
    by (rewrite E, strip_prefix_app; reflexivity).
  apply marker_no_overlap in Hs; [|exact Hv].
  rewrite (occurs_suffix _ _ _ Hpre) in Hs. discriminate.
Qed.

(** The loop keeps the last line with a match. *)
Lemma last_match_split lines g :
  last_match lines = Some g ->
  exists before line after,
    lines = before ++ line :: after
    /\ re_search METRIC_PATTERN line = Some g
    /\ Forall no_match after.
Proof.
  unfold last_match. change (fold_left _ lines None) with (fold_left keep_last lines None).
  induction lines as [|l lines IH] using rev_ind; [discriminate|].
  rewrite fold_left_app. cbn [fold_left]. unfold keep_last at 1.
  destruct (re_search METRIC_PATTERN l) as [g'|] eqn:E.
  - intros [= <-]. exists lines, l, []. auto.
  - intros Hf. apply IH in Hf as (before & line & after & -> & Hl & Ha).
    exists before, line, (after ++ [l]). rewrite <- app_assoc. repeat split; auto.
    apply Forall_app. split; [exact Ha|]. constructor; [exact E | constructor].
Qed.

(** ** Integers as text *)

Lemma digit_chr_digit d : 0 <= d < 10 -> isdigit (digit_chr d) = true /\ digit_val (digit_chr d) = d.
Proof.
  intros Hd.
  assert (d = 0 \/ d = 1 \/ d = 2 \/ d = 3 \/ d = 4 \/ d = 5 \/ d = 6 \/ d = 7
          \/ d = 8 \/ d = 9) as Hc by lia.
  repeat (destruct Hc as [-> | Hc]; [vm_compute; auto|]). subst d. vm_compute. auto.
Qed.

Lemma digits_val_snoc ds c : digits_val (ds ++ [c]) = 10 * digits_val ds + digit_val c.
Proof. unfold digits_val. rewrite fold_left_app. reflexivity. Qed.

Lemma udigits_spec fuel n acc :
  0 <= n < 2 ^ Z.of_nat (S fuel) ->
  exists ds, udigits (S fuel) n acc = ds ++ acc
    /\ ds <> [] /\ forallb isdigit ds = true /\ digits_val ds = n.
Proof.
  revert n acc. induction fuel as [|f IH]; intros n acc Hn;
    cbn [udigits]; pose proof (Z.mod_pos_bound n 10 ltac:(lia)) as Hm;
    destruct (digit_chr_digit (n mod 10) Hm) as [Hd Hv];
    destruct (n <? 10) eqn:E.
  1,3: apply Z.ltb_lt in E; exists [digit_chr (n mod 10)]; cbn;
       rewrite Hd; repeat split; try discriminate;
       unfold digits_val; cbn; rewrite Hv; apply Z.mod_small; lia.
  - apply Z.ltb_ge in E. cbn in Hn. lia.
  - apply Z.ltb_ge in E.
    destruct (IH (n / 10) (digit_chr (n mod 10) :: acc)) as (ds & E1 & E2 & E3 & E4).
    { split; [apply Z.div_pos; lia|].
      apply Z.div_lt_upper_bound; [lia|].
      rewrite (Nat2Z.inj_succ (S f)), Z.pow_succ_r in Hn by lia. lia. }
    exists (ds ++ [digit_chr (n mod 10)]).
    split; [rewrite <- app_assoc; exact E1|]. repeat split.
    + destruct ds; discriminate.
    + rewrite forallb_app, E3. cbn. rewrite Hd. reflexivity.
    + rewrite digits_val_snoc, E4, Hv. symmetry. apply Z.div_mod. lia.
Qed.

Lemma log2_fuel n : 0 <= n -> 0 <= n < 2 ^ Z.of_nat (S (Z.to_nat (Z.log2 n))).
Proof.
  intros Hn. split; [exact Hn|].
  rewrite Nat2Z.inj_succ, Z2Nat.id by apply Z.log2_nonneg.
  destruct (Z.eq_dec n 0) as [->|Hz]; [cbn; lia|].
  apply Z.log2_spec. lia.
Qed.

(** [str(n)] is an optional minus sign and digits that spell [n] *)
Lemma str_of_Z_spec n :
  exists ds, ds <> [] /\ forallb isdigit ds = true /\ digits_val ds = Z.abs n
    /\ str_of_Z n = if n <? 0 then MINUS :: ds else ds.
Proof.
  unfold str_of_Z. destruct (n <? 0) eqn:E.
  - apply Z.ltb_lt in E.
    destruct (udigits_spec _ (- n) [] (log2_fuel (- n) ltac:(lia))) as (ds & E1 & E2 & E3 & E4).
    exists ds. rewrite E1, app_nil_r. repeat split; auto. lia.
  - apply Z.ltb_ge in E.
    destruct (udigits_spec _ n [] (log2_fuel n E)) as (ds & E1 & E2 & E3 & E4).
    exists ds. rewrite E1, app_nil_r. repeat split; auto. lia.
Qed.

Lemma stops_space_rev_digits ds x :
  ds <> [] -> forallb isdigit ds = true -> stops isspace (rev (x :: ds)) = true.
Proof.
  intros Hne Hd. cbn. destruct (rev ds) as [|c r] eqn:E.
  - apply (f_equal (@rev _)) in E. rewrite rev_involutive in E. cbn in E. congruence.
  - cbn. assert (In c (rev ds)) as Hin by (rewrite E; left; reflexivity).
    apply in_rev in Hin. rewrite forallb_forall in Hd.
    rewrite (digit_not_space c (Hd c Hin)). reflexivity.
Qed.

(** integers come back from their text: [int(str(n)) == n] *)
Lemma py_int_str_of_Z n : py_int (str_of_Z n) = Some n.
Proof.
  destruct (str_of_Z_spec n) as (ds & Hne & Hd & Hv & ->).
  destruct (n <? 0) eqn:E.
  - apply Z.ltb_lt in E. unfold py_int. rewrite int_strip_id.
    + change (ascii_eqb MINUS MINUS) with true. cbn match.
      rewrite (int_body_digits ds 0 false Hd (or_introl Hne)).
      fold (digits_val ds). rewrite Hv. cbn. f_equal. lia.
    + reflexivity.
    + apply stops_space_rev_digits; assumption.
  - apply Z.ltb_ge in E. rewrite (py_int_digits ds Hne Hd), Hv. f_equal. lia.
Qed.

Lemma digit_plain c : isdigit c = true -> special c = false.
Proof. by_cases_on_char c. Qed.

Lemma forallb_existsb_special s :
  (forall c, In c s -> special c = false) -> existsb special s = false.
Proof.
  induction s as [|c s IH]; cbn; intros Hs; [reflexivity|].
  rewrite (Hs c (or_introl eq_refl)). apply IH. intros x Hx. apply Hs. right. exact Hx.
Qed.

Lemma str_of_Z_plain n : existsb special (str_of_Z n) = false.
Proof.
  destruct (str_of_Z_spec n) as (ds & Hne & Hd & Hv & ->).
  rewrite forallb_forall in Hd. apply forallb_existsb_special.
  destruct (n <? 0); intros c Hc.
  - destruct Hc as [<- | Hc]; [reflexivity | apply digit_plain; auto].
  - apply digit_plain; auto.
Qed.

(** ** Runs on the bench *)

(** A run is told by its outcome alone: the world it leaves is the one
    the run computes. *)
Lemma run_outcome {A B} (x : A * B) (a : A) : fst x = a -> x = (a, snd x).
Proof. destruct x as [a' b]. cbn. intros ->. reflexivity. Qed.

(** ** Extraction of the metrics against the specification *)

(** Claim C3.  The claim is right and the pattern misses it.  Each of
    the two texts below is one line that qualifies in the words of
    the specification: the marker token, then among other tokens the
    fields [n=4], [solutions=2] and [nodes=10].  On the first, whose
    extra token [engine=x] holds the letter n, extraction fails as if
    there were no metrics line.  On the second, whose extra token
    [seen=3] ends in [n=3], extraction returns the size 3, which is
    not the size 4 of the line. *)
Theorem parse_metrics_interleaved_token :
  map embedded_triple (splitlines (strip engine_line))
  = [Some (lit "4", lit "2", lit "10")]
  /\ @parse_metrics whole_floats engine_line
     = Raise (RuntimeError (lit "Failed to parse NQUEENS_METRICS from program output"))
  /\ map embedded_triple (splitlines (strip seen_line))
     = [Some (lit "4", lit "2", lit "10")]
  /\ @parse_metrics whole_floats seen_line = Ok (3, 2, 10).
Proof. vm_compute. repeat split. Qed.

(** Claim C4.  The claim is right and the pattern misses it.  Both
    texts below have two qualifying lines, with the triples (4, 2, 10)
    and (5, 10, 50) in that order.  On the first, the last line has
    the extra token [engine=x]: it is passed over, and extraction
    returns the triple of the first line.  On the second, the last
    line has the extra token [seen=3]: extraction returns (3, 10, 50),
    which is the triple of neither line. *)
Theorem parse_metrics_last_line_missed :
  map embedded_triple (splitlines (strip two_summaries))
  = [Some (lit "4", lit "2", lit "10"); Some (lit "5", lit "10", lit "50")]
  /\ @parse_metrics whole_floats two_summaries = Ok (4, 2, 10)
  /\ map embedded_triple (splitlines (strip seen_summaries))
     = [Some (lit "4", lit "2", lit "10"); Some (lit "5", lit "10", lit "50")]
  /\ @parse_metrics whole_floats seen_summaries = Ok (3, 10, 50).
Proof. vm_compute. repeat split. Qed.

(** Claim C5.  The claim is right and the pattern misses it.  Neither
    text below has a qualifying line: the first has no [n=] token and
    no [nodes=] token (it has [seen=3] and [leafnodes=7]), the second
    has no marker token (its marker is the end of a longer word).
    Extraction does not fail on them: it returns a triple that no
    metrics line of the text holds. *)
Theorem parse_metrics_unqualified_line :
  map embedded_triple (splitlines (strip leaf_line)) = [None]
  /\ @parse_metrics whole_floats leaf_line = Ok (3, 2, 7)
  /\ map embedded_triple (splitlines (strip glued_line)) = [None]
  /\ @parse_metrics whole_floats glued_line = Ok (4, 2, 10).
Proof. vm_compute. repeat split. Qed.

Section Trials.
Context `{Host}.

Lemma run_implementation_unfold impl size workers w c :
  h_exitcode (helper_of impl size workers w) = 0 ->
  h_queue (helper_of impl size workers w) = Some c ->
  run_implementation impl size workers w
  = let w' := World (h_fs (helper_of impl size workers w))
                    (trace (started impl size workers w)) in
    if negb (c_returncode c =? 0) then
      (Raise (CalledProcessError (c_returncode c) (command_for impl size workers)
                (Some (c_stdout c)) (Some (c_stderr c))), w')
    else
      match parse_metrics (c_stdout c) with
      | Raise e => (Raise e, w')
      | Ok (measured_size, solutions, nodes) =>
          if negb (measured_size =? size) then
            (Raise (RuntimeError (size_mismatch (name impl) measured_size size)), w')
          else
            (Ok (list_to_map
                   [ (lit "implementation", VStr (name impl));
                     (lit "language", VStr (language impl));
                     (lit "size", VInt size);
                     (lit "time_sec", VFloat (c_elapsed c));
                     (lit "max_rss_kb", VInt (c_max_rss c));
                     (lit "nodes", VInt nodes);
                     (lit "solutions", VFloat solutions) ]),
             World (fs w')
               (trace w' ++ [EvPrint (RunLine (name impl) size (c_elapsed c)
                                        (c_max_rss c) nodes)]))
      end.
Proof.
  unfold helper_of, started. intros He Hq.
  unfold run_implementation, execute_with_metrics, bind, emit, get_world, put_fs.
  cbn [fs trace]. rewrite He, Hq. cbn.
  destruct (c_returncode c =? 0); cbn; [|reflexivity].
  destruct (parse_metrics (c_stdout c)) as [[[m s] n]|e]; cbn; [|reflexivity].
  destruct (m =? size); reflexivity.
Qed.

(** Claim C6.  A trial whose command exits with code zero and whose
    output carries a size other than the one asked for fails with the
    size-mismatch [RuntimeError], which names the implementation, the
    size reported and the size expected.  The outcome is that error and
    nothing else: no record is returned, and the size asked for is not
    put in place of the one reported.  The world left is the one of the
    measurement helper, with the events up to the start of the
    command. *)
Theorem run_implementation_size_mismatch impl size workers w c measured solutions nodes :
  h_exitcode (helper_of impl size workers w) = 0 ->
  h_queue (helper_of impl size workers w) = Some c ->
  c_returncode c = 0 ->
  parse_metrics (c_stdout c) = Ok (measured, solutions, nodes) ->
  measured <> size ->
  run_implementation impl size workers w
  = (Raise (RuntimeError (size_mismatch (name impl) measured size)),
     World (h_fs (helper_of impl size workers w)) (trace (started impl size workers w))).
Proof.
  intros He Hq Hrc Hp Hne.
  rewrite (run_implementation_unfold _ _ _ _ c He Hq). cbn zeta.
  rewrite Hrc, Hp. cbn.
  apply Z.eqb_neq in Hne. rewrite Hne. reflexivity.
Qed.

(** Claim C7.  A trial whose command exits with a code other than zero
    fails with [CalledProcessError], which carries the exit code, the
    command, the captured standard output and the captured standard
    error.  [parse_metrics] has no part in the outcome: the statement
    holds whatever the output is, whether it has a metrics line or
    not. *)
Theorem run_implementation_failed_run impl size workers w c :
  h_exitcode (helper_of impl size workers w) = 0 ->
  h_queue (helper_of impl size workers w) = Some c ->
  c_returncode c <> 0 ->
  run_implementation impl size workers w
  = (Raise (CalledProcessError (c_returncode c) (command_for impl size workers)
              (Some (c_stdout c)) (Some (c_stderr c))),
     World (h_fs (helper_of impl size workers w)) (trace (started impl size workers w))).
Proof.
  intros He Hq Hrc.
  rewrite (run_implementation_unfold _ _ _ _ c He Hq). cbn zeta.
  apply Z.eqb_neq in Hrc. rewrite Hrc. reflexivity.
Qed.

End Trials.

Lemma run_implementation_size_mismatch_witness :
  @run_implementation whole_floats (bench_host 0 stuck_program) (stub stuck_program) 4 0
    bench_world
  = (Raise (RuntimeError (size_mismatch (name (stub stuck_program)) 5 4)),
     World (h_fs (@helper_of whole_floats (bench_host 0 stuck_program)
                    (stub stuck_program) 4 0 bench_world))
           (trace (@started whole_floats (bench_host 0 stuck_program)
                    (stub stuck_program) 4 0 bench_world))).
Proof.
  apply (@run_implementation_size_mismatch whole_floats (bench_host 0 stuck_program)
           (stub stuck_program) 4 0 bench_world (stuck_program []) 5 10 50).
  - reflexivity.
  - reflexivity.
  - reflexivity.
  - vm_compute. reflexivity.
  - discriminate.
Defined.

Lemma run_implementation_failed_run_witness :
  @run_implementation whole_floats (bench_host 0 failing_program) (stub failing_program) 4 0
    bench_world
  = (Raise (CalledProcessError 1 [lit "stub"; lit "4"] (Some []) (Some [])),
     World (h_fs (@helper_of whole_floats (bench_host 0 failing_program)
                    (stub failing_program) 4 0 bench_world))
           (trace (@started whole_floats (bench_host 0 failing_program)
                    (stub failing_program) 4 0 bench_world))).
Proof.
  apply (@run_implementation_failed_run whole_floats (bench_host 0 failing_program)
           (stub failing_program) 4 0 bench_world (failing_program [])).
  - reflexivity.
  - reflexivity.
  - discriminate.
Defined.

(** Paths *)

Lemma strip_components_app root p : strip_components root (root ++ p) = Some p.
Proof.
  induction root as [|a root IH]; simpl; [reflexivity|].
  rewrite bool_decide_eq_true_2 by reflexivity. exact IH.
Qed.

Lemma sub_ne_root (root : path) (s : string) : root </> s <> root.
Proof.
  unfold sub. intros E. apply (f_equal (@List.length _)) in E.
  rewrite length_app in E. simpl in E. lia.
Qed.

Lemma sub_sub_ne_root (root : path) (s t : string) : root </> s </> t <> root.
Proof.
  unfold sub. intros E. apply (f_equal (@List.length _)) in E.
  rewrite !length_app in E. simpl in E. lia.
Qed.

Lemma removelast_sub (p : path) (s : string) : removelast (p </> s) = p.
Proof. unfold sub. apply removelast_last. Qed.

Section Preparers.
Context `{Host}.

Lemma relative_to_sub s w :
  relative_to (ROOT </> s) ROOT w = (Ok [lit s], w).
Proof.
  unfold relative_to, sub. rewrite strip_components_app. reflexivity.
Qed.

(** What [run] does to the world under a root-relative directory. *)
Lemma run_in_sub cmd s env w :
  exists r f,
    run cmd (ROOT </> s) env w
    = (r, World f (trace w ++ [EvPrint (BuildLine (Some [lit s]) cmd);
                               EvRun cmd (ROOT </> s)])).
Proof.
  unfold run, bind. rewrite bool_decide_eq_false_2 by apply sub_ne_root.
  rewrite relative_to_sub. cbn.
  destruct (shell _ _ _ _) as [[rc|e] f']; cbn.
  - destruct (rc =? 0); cbn; rewrite <- app_assoc; eauto.
  - rewrite <- app_assoc; eauto.
Qed.

Lemma exists_true p w : is_Some (fs w !! p) -> exists_ p w = (Ok true, w).
Proof. intros [n E]. unfold exists_, bind, get_fs, ret. cbn. rewrite E. reflexivity. Qed.

Ltac found :=
  match goal with
  | |- context [exists_ ?p ?w] => rewrite (exists_true p w)
  end.

Lemma fix_permission_events p w :
  exists evs f,
    fix_permission p w = (Ok tt, World f (trace w ++ evs))
    /\ (forall q, q <> p -> f !! q = fs w !! q).
Proof.
  unfold fix_permission, bind, get_fs, when. cbn.
  destruct (fs w !! p) as [n|] eqn:E; cbn.
  - destruct (access_x (fs w) p); cbn.
    + exists [], (fs w). rewrite app_nil_r. destruct w; auto.
    + unfold chmod_exec, bind, get_fs. cbn. rewrite E. cbn.
      eexists _, _. split; [reflexivity|].
      intros q Hq. rewrite lookup_insert_ne; auto.
  - exists [], (fs w). rewrite app_nil_r. destruct w; auto.
Qed.

(** Claim C1, for the preparer of BuDDy.  On a tree where
    [config.status], the library and the executable of BuDDy are all in
    place, [ensure_buddy] does not return at once: the last two things
    it does are to print the build line of [make -C examples/queen
    queen] and to start that command in the BuDDy directory.  So a
    second call in a row is not free of build steps, against the
    claim. *)
Theorem ensure_buddy_runs_make w :
  is_Some (fs w !! (ROOT </> "BuDDy" </> "config.status")) ->
  is_Some (fs w !! (ROOT </> "BuDDy" </> "src" </> "libbdd.la")) ->
  is_Some (fs w !! (ROOT </> "BuDDy" </> "examples" </> "queen" </> "queen")) ->
  exists evs,
    trace (snd (ensure_buddy w))
    = trace w ++ evs ++ [EvPrint (BuildLine (Some [lit "BuDDy"]) make_queen);
                         EvRun make_queen (ROOT </> "BuDDy")].
Proof.
  intros Hc Hl He. unfold ensure_buddy.
  destruct (fix_permission_events (ROOT </> "BuDDy" </> "configure") w)
    as (evs & f & Hfix & Hsame).
  unfold bind at 1. rewrite Hfix.
  assert (Hne : forall (a b : list (list ascii)), a <> b -> ROOT ++ a <> ROOT ++ b)
    by (intros a b Hab E; apply Hab; eapply app_inv_head; exact E).
  unfold bind at 1. found; cbn [fs negb when].
  2:{ rewrite Hsame; [exact Hc|]. unfold sub. rewrite <- !app_assoc.
      apply Hne. discriminate. }
  unfold bind at 1. cbn [ret].
  unfold bind at 1. found; cbn [fs negb when].
  2:{ rewrite Hsame; [exact Hl|]. unfold sub. rewrite <- !app_assoc.
      apply Hne. discriminate. }
  unfold bind at 1. cbn [ret].
  unfold bind at 1. found; cbn [fs negb when].
  2:{ rewrite Hsame; [exact He|]. unfold sub. rewrite <- !app_assoc.
      apply Hne. discriminate. }
  unfold bind at 1. cbn [ret].
  destruct (run_in_sub make_queen "BuDDy" None (World f (trace w ++ evs)))
    as (r & f' & Hrun).
  fold make_queen. rewrite Hrun. cbn. rewrite <- app_assoc. eauto.
Qed.

Lemma ensure_sylvan_built w :
  is_Some (fs w !! (ROOT </> "sylvan" </> "build" </> "examples" </> "nqueens_fast")) ->
  ensure_sylvan w = (Ok tt, w).
Proof.
  intros Hb. unfold ensure_sylvan, bind. found; [|exact Hb]. reflexivity.
Qed.

Lemma ensure_jdd_built w :
  is_Some (fs w !! (ROOT </> "jdd" </> "build" </> "classes" </> "java" </> "main"
                      </> "jdd" </> "examples" </> "BDDQueens.class")) ->
  ensure_jdd w = (Ok tt, w).
Proof.
  intros Hb. unfold ensure_jdd, bind. found; [|exact Hb]. reflexivity.
Qed.

Lemma ensure_cudd_built w :
  is_Some (fs w !! (ROOT </> "cudd" </> "cudd" </> ".libs" </> "libcudd.a")) ->
  is_Some (fs w !! (ROOT </> "cudd" </> "bin" </> "nqueens_bdd")) ->
  ensure_cudd w = (Ok tt, w).
Proof.
  intros Hl He. unfold ensure_cudd, bind.
  found; [|exact Hl]. cbn [negb when ret]. found; [|exact He]. reflexivity.
Qed.

Lemma ensure_jsylvan_built w :
  is_Some (fs w !! (ROOT </> "jsylvan" </> "src" </> "main" </> "resources"
                      </> "linux-x64" </> "libsylvan-java.so")) ->
  is_Some (fs w !! (ROOT </> "jsylvan" </> "target" </> "sylvan-1.0.0-SNAPSHOT.jar")) ->
  ensure_jsylvan w = (Ok tt, w).
Proof.
  intros Hl Hj. unfold ensure_jsylvan, bind, get_fs. cbv zeta.
  found; [|exact Hl]. cbn [negb when ret]. found; [|exact Hj]. reflexivity.
Qed.

End Preparers.

Lemma ensure_buddy_runs_make_witness :
  exists evs,
    trace (snd (@ensure_buddy whole_floats echo_host built_world))
    = trace built_world ++ evs
      ++ [EvPrint (BuildLine (Some [lit "BuDDy"]) make_queen);
          EvRun make_queen (@ROOT whole_floats echo_host </> "BuDDy")].
Proof.
  apply (@ensure_buddy_runs_make whole_floats echo_host built_world);
    eexists; vm_compute; reflexivity.
Defined.

(** Two calls in a row on a tree where nothing is missing: [make] is
    started by each of them. *)
Example ensure_buddy_twice :
  List.filter (fun e => match e with EvRun _ _ => true | _ => false end)
    (trace (snd (@ensure_buddy whole_floats echo_host
                   (snd (@ensure_buddy whole_floats echo_host built_world)))))
  = [ EvRun make_queen (words ["bench"; "BuDDy"]);
      EvRun make_queen (words ["bench"; "BuDDy"]) ].
Proof. reflexivity. Qed.

(** ** The table writer *)

Section Table.
Context `{Host}.

Lemma bind_ok {A B} (c : M A) (k : A -> M B) w a w' :
  c w = (Ok a, w') -> bind c k w = k a w'.
Proof. intros E. unfold bind. rewrite E. reflexivity. Qed.

Lemma bind_raise {A B} (c : M A) (k : A -> M B) w e w' :
  c w = (Raise e, w') -> bind c k w = (Raise e, w').
Proof. intros E. unfold bind. rewrite E. reflexivity. Qed.

Lemma header_row_line :
  row_line (list_to_map (map (fun k => (k, VStr k)) fieldnames)) = Ok header_line.
Proof. vm_compute. reflexivity. Qed.

Lemma file_write_spec p data m d w :
  fs w !! p = Some (File m d) ->
  exists w', file_write p data w = (Ok tt, w')
    /\ fs w' !! p = Some (File m (d ++ data))
    /\ (forall q, q <> p -> fs w' !! q = fs w !! q)
    /\ trace w' = trace w ++ [EvWrite p data].
Proof.
  intros E. unfold file_write, bind, emit, get_fs, put_fs. cbn.
  eexists. split; [reflexivity|]. cbn. repeat split.
  - rewrite lookup_alter_eq, E. reflexivity.
  - intros q Hq. rewrite lookup_alter_ne; auto.
Qed.

Lemma writerow_ok p r line m d w :
  row_line r = Ok line ->
  fs w !! p = Some (File m d) ->
  exists w', writerow fieldnames p r w = (Ok tt, w')
    /\ fs w' !! p = Some (File m (d ++ line))
    /\ (forall q, q <> p -> fs w' !! q = fs w !! q)
    /\ trace w' = trace w ++ [EvWrite p line].
Proof.
  unfold row_line, writerow, bind. intros Hl E.
  destruct (dict_to_list fieldnames r) as [vals|e]; cbn in *; [|discriminate].
  injection Hl as <-. apply file_write_spec. exact E.
Qed.

Lemma writerow_fail p r e w :
  row_line r = Raise e -> writerow fieldnames p r w = (Raise e, w).
Proof.
  unfold row_line, writerow, bind. intros Hl.
  destruct (dict_to_list fieldnames r) as [vals|e']; cbn in *; congruence.
Qed.

Lemma write_rows_ok p rows ls m d w :
  map_result row_line rows = Ok ls ->
  fs w !! p = Some (File m d) ->
  exists w', for_each rows (writerow fieldnames p) w = (Ok tt, w')
    /\ fs w' !! p = Some (File m (d ++ concat ls))
    /\ (forall q, q <> p -> fs w' !! q = fs w !! q)
    /\ trace w' = trace w ++ map (EvWrite p) ls.
Proof.
  revert ls d w. induction rows as [|r rows IH]; intros ls d w Hl E; cbn in Hl.
  - injection Hl as <-. exists w. cbn. rewrite !app_nil_r. auto.
  - destruct (row_line r) as [line|] eqn:Hr; cbn in Hl; [|discriminate].
    destruct (map_result row_line rows) as [ls'|] eqn:Hrs; cbn in Hl; [|discriminate].
    injection Hl as <-.
    destruct (writerow_ok p r line m d w Hr E) as (w1 & E1 & F1 & O1 & T1).
    destruct (IH ls' _ w1 eq_refl F1) as (w2 & E2 & F2 & O2 & T2).
    exists w2. cbn [for_each app]. unfold bind. rewrite E1, E2. cbn [concat map]. repeat split.
    + rewrite F2, <- app_assoc. reflexivity.
    + intros q Hq. rewrite O2, O1; auto.
    + rewrite T2, T1, <- app_assoc. reflexivity.
Qed.

Lemma write_rows_fail p good bad rest ls e m d w :
  map_result row_line good = Ok ls ->
  row_line bad = Raise e ->
  fs w !! p = Some (File m d) ->
  exists w', for_each (good ++ bad :: rest) (writerow fieldnames p) w = (Raise e, w')
    /\ fs w' !! p = Some (File m (d ++ concat ls))
    /\ (forall q, q <> p -> fs w' !! q = fs w !! q)
    /\ trace w' = trace w ++ map (EvWrite p) ls.
Proof.
  revert ls d w. induction good as [|r good IH]; intros ls d w Hl Hb E; cbn in Hl.
  - injection Hl as <-. exists w. cbn [for_each app concat map]. unfold bind.
    rewrite (writerow_fail p bad e w Hb), !app_nil_r. auto.
  - destruct (row_line r) as [line|] eqn:Hr; cbn in Hl; [|discriminate].
    destruct (map_result row_line good) as [ls'|] eqn:Hrs; cbn in Hl; [|discriminate].
    injection Hl as <-.
    destruct (writerow_ok p r line m d w Hr E) as (w1 & E1 & F1 & O1 & T1).
    destruct (IH ls' _ w1 eq_refl Hb F1) as (w2 & E2 & F2 & O2 & T2).
    exists w2. cbn [for_each app]. unfold bind. rewrite E1, E2. cbn [concat map]. repeat split.
    + rewrite F2, <- app_assoc. reflexivity.
    + intros q Hq. rewrite O2, O1; auto.
    + rewrite T2, T1, <- app_assoc. reflexivity.
Qed.

Lemma open_w_ok p w w' :
  open_w p w = (Ok tt, w') ->
  exists m, fs w' !! p = Some (File m [])
    /\ (forall q, q <> p -> fs w' !! q = fs w !! q)
    /\ trace w' = trace w ++ [EvOpen p].
Proof.
  unfold open_w, bind, emit, get_fs, put_fs, raise. cbn.
  destruct (fs w !! p) as [[m d|m]|] eqn:E; cbn.
  - intros [= <-]. exists m. cbn. rewrite lookup_insert_eq. repeat split.
    intros q Hq. rewrite lookup_insert_ne; auto.
  - discriminate.
  - destruct (fs w !! removelast p) as [[m d|m]|]; cbn; try discriminate.
    intros [= <-]. eexists. cbn. rewrite lookup_insert_eq. repeat split.
    intros q Hq. rewrite lookup_insert_ne; auto.
Qed.

(** What is in the output file when the body of the [with] statement
    is left, and how it is left. *)
Lemma table_body_ok p rows ls m w :
  map_result row_line rows = Ok ls ->
  fs w !! p = Some (File m []) ->
  exists w',
    finally (writeheader fieldnames p ;;; for_each rows (writerow fieldnames p))
            (file_close p) w = (Ok tt, w')
    /\ fs w' !! p = Some (File m (table_text ls))
    /\ (forall q, q <> p -> fs w' !! q = fs w !! q).
Proof.
  intros Hl E.
  destruct (writerow_ok p _ _ m [] w header_row_line E) as (w1 & E1 & F1 & O1 & T1).
  destruct (write_rows_ok p rows ls m _ w1 Hl F1) as (w2 & E2 & F2 & O2 & T2).
  unfold finally, bind, writeheader. rewrite E1, E2. cbn.
  eexists. split; [reflexivity|]. cbn. split; [exact F2|].
  intros q Hq. rewrite O2, O1; auto.
Qed.

Lemma table_body_fail p good bad rest ls e m w :
  map_result row_line good = Ok ls ->
  row_line bad = Raise e ->
  fs w !! p = Some (File m []) ->
  exists w',
    finally (writeheader fieldnames p ;;;
             for_each (good ++ bad :: rest) (writerow fieldnames p))
            (file_close p) w = (Raise e, w')
    /\ fs w' !! p = Some (File m (table_text ls)).
Proof.
  intros Hl Hb E.
  destruct (writerow_ok p _ _ m [] w header_row_line E) as (w1 & E1 & F1 & O1 & T1).
  destruct (write_rows_fail p good bad rest ls e m _ w1 Hl Hb F1) as (w2 & E2 & F2 & O2 & T2).
  unfold finally, bind, writeheader. rewrite E1, E2. cbn.
  eexists. split; [reflexivity|]. exact F2.
Qed.

(** A dictionary that cannot be written.  When the directory of results
    can be made and the output path opened, the rows of [good] can all
    be written and the row [bad] that follows them cannot,
    [write_results] fails with the error of [bad], and the output path
    is left holding the header and the lines of [good].  No result
    record is such a [bad] row: see [row_line_to_row]. *)
Lemma write_results_partial good bad rest output_path ls e w w1 w2 :
  mkdir false true RESULTS_DIR w = (Ok tt, w1) ->
  open_w output_path w1 = (Ok tt, w2) ->
  map_result row_line good = Ok ls ->
  row_line bad = Raise e ->
  exists m w3,
    write_results (good ++ bad :: rest) output_path w = (Raise e, w3)
    /\ fs w3 !! output_path = Some (File m (table_text ls)).
Proof.
  intros Hm Ho Hl Hb.
  destruct (open_w_ok _ _ _ Ho) as (m & F & _ & _).
  destruct (table_body_fail output_path good bad rest ls e m w2 Hl Hb F) as (w3 & E3 & F3).
  exists m, w3. unfold write_results.
  rewrite (bind_ok _ _ _ _ _ Hm), (bind_ok _ _ _ _ _ Ho), (bind_raise _ _ _ _ _ E3). auto.
Qed.

(** The file after a call whose rows can all be written. *)
Lemma write_results_text rows output_path ls w w1 w2 :
  mkdir false true RESULTS_DIR w = (Ok tt, w1) ->
  open_w output_path w1 = (Ok tt, w2) ->
  map_result row_line rows = Ok ls ->
  exists m,
    fs (snd (write_results rows output_path w)) !! output_path
    = Some (File m (table_text ls)).
Proof.
  intros Hm Ho Hl.
  destruct (open_w_ok _ _ _ Ho) as (m & F & _ & _).
  destruct (table_body_ok output_path rows ls m w2 Hl F) as (w3 & E3 & F3 & _).
  exists m. unfold write_results.
  rewrite (bind_ok _ _ _ _ _ Hm), (bind_ok _ _ _ _ _ Ho), (bind_ok _ _ _ _ _ E3).
  unfold relative_to, bind. destruct (strip_components ROOT output_path); cbn; exact F3.
Qed.

End Table.

Lemma write_results_partial_stray_row :
  exists m w3,
    @write_results whole_floats echo_host ([first_row] ++ stray_row :: []) bench_output
      bench_world
    = (Raise (ValueError (lit "dict contains fields not in fieldnames: 'note'")), w3)
    /\ fs w3 !! bench_output
       = Some (File m (table_text
                         [lit "BuDDy,C,4,7,1000,10,2" ++ [CR; LF]])).
Proof.
  apply (@write_results_partial whole_floats echo_host [first_row] stray_row []
           bench_output [lit "BuDDy,C,4,7,1000,10,2" ++ [CR; LF]]
           (ValueError (lit "dict contains fields not in fieldnames: 'note'")) bench_world
           (snd (@mkdir whole_floats echo_host false true
                   (@RESULTS_DIR whole_floats echo_host) bench_world))
           (snd (@open_w whole_floats echo_host bench_output
                   (snd (@mkdir whole_floats echo_host false true
                           (@RESULTS_DIR whole_floats echo_host) bench_world))))).
  - apply run_outcome. vm_compute. reflexivity.
  - apply run_outcome. vm_compute. reflexivity.
  - vm_compute. reflexivity.
  - vm_compute. reflexivity.
Defined.

(** ** Relations every step of a computation keeps *)

Section Invariant.
Context `{PyFloat}.
Variable R : world -> world -> Prop.
Hypothesis R_refl : forall w, R w w.
Hypothesis R_trans : forall a b c, R a b -> R b c -> R a c.

Lemma respects_ret {A} (a : A) : respects R (ret a).
Proof. intros w. apply R_refl. Qed.

Lemma respects_raise {A} e : respects R (raise e : M A).
Proof. intros w. apply R_refl. Qed.

Lemma respects_bind {A B} (c : M A) (k : A -> M B) :
  respects R c -> (forall a, respects R (k a)) -> respects R (bind c k).
Proof.
  intros Hc Hk w. unfold bind. specialize (Hc w).
  destruct (c w) as [[a|e] w1]; cbn in *; [|exact Hc].
  eapply R_trans; [exact Hc | apply Hk].
Qed.

Lemma respects_catch {A} (c : M A) (h : exn -> M A) :
  respects R c -> (forall e, respects R (h e)) -> respects R (catch c h).
Proof.
  intros Hc Hh w. unfold catch. specialize (Hc w).
  destruct (c w) as [[a|e] w1]; cbn in *; [exact Hc|].
  eapply R_trans; [exact Hc | apply Hh].
Qed.

Lemma respects_finally {A} (c : M A) (h : M unit) :
  respects R c -> respects R h -> respects R (finally c h).
Proof.
  intros Hc Hh w. unfold finally. specialize (Hc w).
  destruct (c w) as [r w1]. specialize (Hh w1).
  destruct (h w1) as [[[]|e] w2]; cbn in *; eapply R_trans; eauto.
Qed.

Lemma respects_when b (c : M unit) : respects R c -> respects R (when b c).
Proof. intros Hc. destruct b; cbn; [exact Hc | apply respects_ret]. Qed.

Lemma respects_lift {A} (r : result A) : respects R (lift r).
Proof. destruct r; [apply respects_ret | apply respects_raise]. Qed.

Lemma respects_for_each {A} (xs : list A) (body : A -> M unit) :
  (forall x, respects R (body x)) -> respects R (for_each xs body).
Proof.
  intros Hb. induction xs as [|x xs IH]; cbn.
  - apply respects_ret.
  - apply respects_bind; auto.
Qed.

Lemma respects_for_fold {A B} (xs : list A) (acc : B) (body : A -> B -> M B) :
  (forall x b, respects R (body x b)) -> respects R (for_fold xs acc body).
Proof.
  intros Hb. revert acc. induction xs as [|x xs IH]; intros acc; cbn.
  - apply respects_ret.
  - apply respects_bind; auto.
Qed.

End Invariant.

Ltac respects_step refl trans :=
  lazymatch goal with
  | _ : respects _ ?c |- respects _ ?c => assumption
  | |- respects _ (ret _) => apply (respects_ret _ refl)
  | |- respects _ (raise _) => apply (respects_raise _ refl)
  | |- respects _ (lift _) => apply (respects_lift _ refl)
  | |- respects _ (bind _ _) => apply (respects_bind _ trans); [|intros ?]
  | |- respects _ (catch _ _) => apply (respects_catch _ trans); [|intros ?]
  | |- respects _ (finally _ _) => apply (respects_finally _ trans)
  | |- respects _ (when _ _) => apply (respects_when _ refl)
  | |- respects _ (for_each _ _) => apply (respects_for_each _ refl trans); intros ?
  | |- respects _ (match ?x with _ => _ end) => destruct x
  end.

(** *** Starting preparers and measured commands *)

Section Calls.
Context `{Host}.

Lemma quietly_refl w : quietly w w.
Proof. reflexivity. Qed.

Lemma quietly_trans a b c : quietly a b -> quietly b c -> quietly a c.
Proof. unfold quietly. congruence. Qed.

Lemma calls_app t1 t2 : calls (t1 ++ t2) = calls t1 ++ calls t2.
Proof. apply List.filter_app. Qed.

Lemma quiet_emit e : is_call e = false -> quiet (emit e).
Proof.
  intros He w. unfold quietly, emit. cbn. rewrite calls_app. unfold calls at 2.
  cbn. rewrite He. apply app_nil_r.
Qed.

Lemma quiet_get_fs : quiet get_fs.
Proof. intros w. reflexivity. Qed.

Lemma quiet_get_world : quiet get_world.
Proof. intros w. reflexivity. Qed.

Lemma quiet_put_fs f : quiet (put_fs f).
Proof. intros w. reflexivity. Qed.

Ltac quiet_step :=
  lazymatch goal with
  | |- respects _ get_fs => apply quiet_get_fs
  | |- respects _ get_world => apply quiet_get_world
  | |- respects _ (put_fs _) => apply quiet_put_fs
  | |- respects _ (emit _) => apply quiet_emit; reflexivity
  | |- _ => respects_step quietly_refl quietly_trans
  end.

Ltac quiet_steps := repeat quiet_step.

Lemma quiet_relative_to p root : quiet (relative_to p root).
Proof. unfold relative_to, quiet. quiet_steps. Qed.

Lemma quiet_exists p : quiet (exists_ p).
Proof. unfold exists_, quiet. quiet_steps. Qed.

Lemma quiet_fix_permission p : quiet (fix_permission p).
Proof. unfold fix_permission, chmod_exec, quiet. quiet_steps. Qed.

Lemma quiet_run cmd cwd env : quiet (run cmd cwd env).
Proof.
  unfold run, quiet.
  repeat lazymatch goal with
         | |- respects _ (relative_to _ _) => apply quiet_relative_to
         | |- _ => quiet_step
         end.
Qed.

Lemma quiet_os_mkdir p : quiet (os_mkdir p).
Proof. unfold os_mkdir, quiet. quiet_steps. Qed.

Lemma quiet_path_mkdir fuel parents exist_ok p : quiet (path_mkdir fuel parents exist_ok p).
Proof.
  revert parents exist_ok p. unfold quiet.
  induction fuel as [|n IH]; intros parents exist_ok p; cbn [path_mkdir];
    repeat lazymatch goal with
           | |- respects _ (os_mkdir _) => apply quiet_os_mkdir
           | |- respects _ (path_mkdir _ _ _ _) => apply IH
           | |- _ => quiet_step
           end.
Qed.

Lemma quiet_mkdir parents exist_ok p : quiet (mkdir parents exist_ok p).
Proof. apply quiet_path_mkdir. Qed.

Lemma quiet_open_w p : quiet (open_w p).
Proof. unfold open_w, quiet. quiet_steps. Qed.

Lemma quiet_file_write p data : quiet (file_write p data).
Proof. unfold file_write, quiet. quiet_steps. Qed.

Lemma quiet_file_close p : quiet (file_close p).
Proof. unfold file_close, quiet. quiet_steps. Qed.

Ltac quiet_ops :=
  repeat lazymatch goal with
         | |- respects _ (relative_to _ _) => apply quiet_relative_to
         | |- respects _ (exists_ _) => apply quiet_exists
         | |- respects _ (fix_permission _) => apply quiet_fix_permission
         | |- respects _ (run _ _ _) => apply quiet_run
         | |- respects _ (mkdir _ _ _) => apply quiet_mkdir
         | |- respects _ (open_w _) => apply quiet_open_w
         | |- respects _ (file_write _ _) => apply quiet_file_write
         | |- respects _ (file_close _) => apply quiet_file_close
         | |- _ => quiet_step
         end.

Lemma quiet_ensure_buddy : quiet ensure_buddy.
Proof. unfold ensure_buddy, quiet. cbv zeta. quiet_ops. Qed.

Lemma quiet_ensure_sylvan : quiet ensure_sylvan.
Proof. unfold ensure_sylvan, quiet. cbv zeta. quiet_ops. Qed.

Lemma quiet_ensure_cudd : quiet ensure_cudd.
Proof. unfold ensure_cudd, quiet. cbv zeta. quiet_ops. Qed.

Lemma quiet_ensure_jdd : quiet ensure_jdd.
Proof. unfold ensure_jdd, quiet. cbv zeta. quiet_ops. Qed.

Lemma quiet_ensure_jsylvan : quiet ensure_jsylvan.
Proof. unfold ensure_jsylvan, quiet. cbv zeta. quiet_ops. Qed.

Lemma quiet_write_results rows p : quiet (write_results rows p).
Proof. unfold write_results, writeheader, writerow, quiet. quiet_ops. Qed.

End Calls.

Section Sweep.
Context `{Host}.

Lemma ensure_ready_calls impl w :
  quiet_preparer impl ->
  calls (trace (snd (ensure_ready impl w))) = calls (trace w) ++ prepared impl.
Proof.
  intros Hq. unfold ensure_ready, prepared.
  destruct (preparer impl) as [p|] eqn:E; cbn.
  - unfold bind, emit. cbn [fst snd]. rewrite (Hq p E _). cbn [trace].
    rewrite calls_app. reflexivity.
  - rewrite app_nil_r. reflexivity.
Qed.

Lemma run_implementation_calls impl size workers w :
  calls (trace (snd (run_implementation impl size workers w)))
  = calls (trace w) ++ [measured workers size impl].
Proof.
  unfold run_implementation, execute_with_metrics, bind, emit, get_world, put_fs, measured.
  cbn.
  destruct (h_exitcode _ =? 0); cbn; [|rewrite calls_app; reflexivity].
  destruct (h_queue _) as [c|]; cbn; [|rewrite calls_app; reflexivity].
  destruct (c_returncode c =? 0); cbn; [|rewrite calls_app; reflexivity].
  destruct (parse_metrics (c_stdout c)) as [[[m s] n]|e]; cbn;
    [|rewrite calls_app; reflexivity].
  destruct (m =? size); cbn; rewrite !calls_app; cbn; rewrite ?app_nil_r; reflexivity.
Qed.

Lemma run_implementation_trial impl size workers w r w' :
  run_implementation impl size workers w = (Ok r, w') ->
  trial_of r = trial size impl.
Proof.
  unfold run_implementation, execute_with_metrics, bind, emit, get_world, put_fs.
  cbn.
  destruct (h_exitcode _ =? 0); cbn; [|discriminate].
  destruct (h_queue _) as [c|]; cbn; [|discriminate].
  destruct (c_returncode c =? 0); cbn; [|discriminate].
  destruct (parse_metrics (c_stdout c)) as [[[m s] n]|e]; cbn; [|discriminate].
  destruct (m =? size); cbn; [|discriminate].
  intros [= <- _]. reflexivity.
Qed.

Lemma one_size_order workers size impls rows rows' w w' :
  one_size workers size impls rows w = (Ok rows', w') ->
  calls (trace w') = calls (trace w) ++ map (measured workers size) impls
  /\ map trial_of rows' = map trial_of rows ++ map (trial size) impls.
Proof.
  unfold one_size. revert rows w. induction impls as [|impl impls IH]; intros rows w; cbn.
  - intros [= <- <-]. rewrite !app_nil_r. auto.
  - unfold bind at 1. unfold bind at 1.
    pose proof (run_implementation_calls impl size workers w) as Hc.
    pose proof (run_implementation_trial impl size workers w) as Ht.
    destruct (run_implementation impl size workers w) as [[r|e] w1]; cbn in *;
      [|discriminate].
    intros E. apply IH in E as [E1 E2]. split.
    + rewrite E1, Hc, <- app_assoc. reflexivity.
    + rewrite E2, map_app, <- app_assoc. cbn. rewrite (Ht r w1 eq_refl). reflexivity.
Qed.

Lemma all_sizes_order workers sizes impls rows rows' w w' :
  for_fold sizes rows (fun size rows => one_size workers size impls rows) w = (Ok rows', w') ->
  calls (trace w')
  = calls (trace w) ++ flat_map (fun size => map (measured workers size) impls) sizes
  /\ map trial_of rows'
     = map trial_of rows ++ flat_map (fun size => map (trial size) impls) sizes.
Proof.
  revert rows w. induction sizes as [|size sizes IH]; intros rows w; cbn.
  - intros [= <- <-]. rewrite !app_nil_r. auto.
  - unfold bind at 1.
    destruct (one_size workers size impls rows w) as [[rows1|e] w1] eqn:Ho;
      [|discriminate].
    destruct (one_size_order _ _ _ _ _ _ _ Ho) as [H1 H2].
    intros E. apply IH in E as [E1 E2]. split.
    + rewrite E1, H1, <- !app_assoc. reflexivity.
    + rewrite E2, H2, <- !app_assoc. reflexivity.
Qed.

Lemma ensure_ready_called impl w :
  ensure_ready impl w
  = match preparer impl with
    | Some p => p (called impl w)
    | None => (Ok tt, w)
    end.
Proof. unfold ensure_ready. destruct (preparer impl); reflexivity. Qed.

Lemma prepare_each_snoc done impl w wk :
  prepare_each done w = Some wk ->
  prepare_each (done ++ [impl]) w = prepare_each [impl] wk.
Proof.
  revert w. induction done as [|x done IH]; intros w; cbn [app prepare_each].
  - intros [= <-]. reflexivity.
  - destruct (preparer x) as [p|]; [|apply IH].
    destruct (p (called x w)) as [[[]|e] w1]; [apply IH | discriminate].
Qed.

(** The loop over the preparers against the run of each of them. *)
Lemma for_each_prepare impls w r w' :
  for_each impls ensure_ready w = (r, w') ->
  (r = Ok tt /\ prepare_each impls w = Some w')
  \/ exists e done impl rest wk,
       r = Raise e /\ impls = done ++ impl :: rest
       /\ prepare_each done w = Some wk
       /\ ensure_ready impl wk = (Raise e, w').
Proof.
  revert w. induction impls as [|impl impls IH]; intros w; cbn [for_each prepare_each].
  - intros [= <- <-]. left. auto.
  - unfold bind. pose proof (ensure_ready_called impl w) as Hc.
    destruct (ensure_ready impl w) as [[[]|e] w1] eqn:Hr.
    + intros E. apply IH in E as [[-> E]|(e & done & x & rest & wk & -> & -> & Hd & Hx)].
      * left. split; [reflexivity|].
        destruct (preparer impl) as [p|]; [rewrite <- Hc; exact E|].
        injection Hc as <-. exact E.
      * right. exists e, (impl :: done), x, rest, wk. repeat split; auto.
        cbn [prepare_each].
        destruct (preparer impl) as [p|]; [rewrite <- Hc; exact Hd|].
        injection Hc as <-. exact Hd.
    + intros [= <- <-]. right. exists e, [], impl, impls, w. auto.
Qed.

Lemma prepare_each_calls impls w wp :
  Forall quiet_preparer impls ->
  prepare_each impls w = Some wp ->
  calls (trace wp) = calls (trace w) ++ flat_map prepared impls.
Proof.
  intros Hq. revert w. induction Hq as [|impl impls Hi _ IH]; intros w; cbn [prepare_each].
  - intros [= <-]. cbn. rewrite app_nil_r. reflexivity.
  - pose proof (ensure_ready_calls impl w Hi) as Hc.
    rewrite ensure_ready_called in Hc. unfold prepared in *. cbn [flat_map].
    destruct (preparer impl) as [p|].
    + destruct (p (called impl w)) as [[[]|e] w1]; [|discriminate].
      cbn [snd] in Hc. intros E. rewrite (IH _ E), Hc, <- app_assoc. reflexivity.
    + intros E. rewrite (IH _ E). reflexivity.
Qed.

Lemma run_trials_app workers a b rows w :
  run_trials workers (a ++ b) rows w
  = match run_trials workers a rows w with
    | Some (rows1, w1) => run_trials workers b rows1 w1
    | None => None
    end.
Proof.
  revert rows w. induction a as [|[size impl] a IH]; intros rows w; cbn [app run_trials].
  - reflexivity.
  - destruct (run_implementation impl size workers w) as [[r|e] w1]; [apply IH | reflexivity].
Qed.

(** The loop over the implementations, for one size. *)
Lemma one_size_pairs workers size impls rows w r w' :
  one_size workers size impls rows w = (r, w') ->
  (exists rows', r = Ok rows'
     /\ run_trials workers (map (pair size) impls) rows w = Some (rows', w'))
  \/ exists e done impl rest rows1 wk,
       r = Raise e /\ impls = done ++ impl :: rest
       /\ run_trials workers (map (pair size) done) rows w = Some (rows1, wk)
       /\ run_implementation impl size workers wk = (Raise e, w').
Proof.
  unfold one_size. revert rows w.
  induction impls as [|impl impls IH]; intros rows w; cbn [for_fold map run_trials].
  - intros [= <- <-]. left. eauto.
  - unfold bind at 1. unfold bind at 1.
    destruct (run_implementation impl size workers w) as [[x|e] w1] eqn:Hr; cbn [ret].
    + intros E. apply IH in E
        as [(rows' & -> & E)|(e & done & y & rest & rows1 & wk & -> & -> & Hd & Hy)].
      * left. eauto.
      * right. exists e, (impl :: done), y, rest, rows1, wk. repeat split; auto.
        cbn [map run_trials]. rewrite Hr. exact Hd.
    + intros [= <- <-]. right. exists e, [], impl, impls, rows, w. auto.
Qed.

(** The two loops over the sizes and the implementations. *)
Lemma all_sizes_pairs workers sizes impls rows w r w' :
  for_fold sizes rows (fun size rows => one_size workers size impls rows) w = (r, w') ->
  (exists rows', r = Ok rows'
     /\ run_trials workers (trial_pairs sizes impls) rows w = Some (rows', w'))
  \/ exists e done size impl rest rows1 wk,
       r = Raise e /\ trial_pairs sizes impls = done ++ (size, impl) :: rest
       /\ run_trials workers done rows w = Some (rows1, wk)
       /\ run_implementation impl size workers wk = (Raise e, w').
Proof.
  revert rows w. induction sizes as [|size sizes IH]; intros rows w;
    cbn [for_fold]; unfold trial_pairs; cbn [flat_map].
  - intros [= <- <-]. left. eauto.
  - unfold bind at 1.
    destruct (one_size workers size impls rows w) as [r1 w1] eqn:Ho.
    apply one_size_pairs in Ho
      as [(rows1 & -> & Ho)|(e & done & impl & rest & rows1 & wk & -> & -> & Hd & Hx)].
    + intros E. apply IH in E
        as [(rows' & -> & E)|(e & done & s & impl & rest & rows2 & wk & -> & Hp & Hd & Hx)].
      * left. exists rows'. split; [reflexivity|].
        rewrite run_trials_app, Ho. exact E.
      * right. exists e, (map (pair size) impls ++ done), s, impl, rest, rows2, wk.
        repeat split; auto.
        -- unfold trial_pairs in Hp. rewrite Hp, <- app_assoc. reflexivity.
        -- rewrite run_trials_app, Ho. exact Hd.
    + intros [= <- <-]. right.
      exists e, (map (pair size) done), size, impl,
        (map (pair size) rest
         ++ flat_map (fun size => map (pair size) (done ++ impl :: rest)) sizes),
        rows1, wk.
      repeat split; auto.
      rewrite map_app, <- app_assoc. reflexivity.
Qed.

Lemma run_trials_calls workers pairs rows w rows' w' :
  run_trials workers pairs rows w = Some (rows', w') ->
  calls (trace w') = calls (trace w) ++ map (measured_pair workers) pairs
  /\ map trial_of rows' = map trial_of rows ++ map trial_pair pairs.
Proof.
  revert rows w. induction pairs as [|[size impl] pairs IH]; intros rows w; cbn [run_trials].
  - intros [= <- <-]. cbn. rewrite !app_nil_r. auto.
  - pose proof (run_implementation_calls impl size workers w) as Hc.
    pose proof (run_implementation_trial impl size workers w) as Ht.
    destruct (run_implementation impl size workers w) as [[r|e] w1]; [|discriminate].
    cbn [snd] in Hc. intros E. apply IH in E as [E1 E2]. split.
    + rewrite E1, Hc, <- app_assoc. reflexivity.
    + rewrite E2, map_app, <- app_assoc. cbn [map app].
      rewrite (Ht r w1 eq_refl). reflexivity.
Qed.

Lemma measured_pairs workers sizes impls :
  map (measured_pair workers) (trial_pairs sizes impls)
  = flat_map (fun size => map (measured workers size) impls) sizes.
Proof.
  unfold trial_pairs. induction sizes as [|size sizes IH]; [reflexivity|].
  cbn [flat_map]. rewrite map_app, IH, map_map. reflexivity.
Qed.

Lemma trial_pairs_trials sizes impls :
  map trial_pair (trial_pairs sizes impls)
  = flat_map (fun size => map (trial size) impls) sizes.
Proof.
  unfold trial_pairs. induction sizes as [|size sizes IH]; [reflexivity|].
  cbn [flat_map]. rewrite map_app, IH, map_map. reflexivity.
Qed.

(** Claim C9.  Whatever way a sweep over implementations with quiet
    preparers ends, one of two things has happened.  Either no
    preparer and no trial failed: then the preparer of each
    implementation has been run once, in the order of the list, each
    in the world the one before it left; after them the trials have
    been run once each, for each size in the order given and, for each
    size, for each implementation in the order of the list, the record
    of each trial put after the records before it; these records are
    what [write_results] is given, and its outcome is the outcome of
    the sweep; the calls made before the table is written are those
    preparer calls followed by those measured commands, and nothing
    else; and the records are one per trial, in that order.  Or a
    preparer or a trial failed, and the sweep ends with an error. *)
Theorem sweep_order impls args w r w' :
  Forall quiet_preparer impls ->
  sweep impls args w = (r, w') ->
  (exists wp rows wt,
     prepare_each impls w = Some wp
     /\ run_trials (workers args) (trial_pairs (sizes args) impls) [] wp = Some (rows, wt)
     /\ write_results rows (output args) wt = (r, w')
     /\ calls (trace wt)
        = calls (trace w)
          ++ flat_map prepared impls
          ++ flat_map (fun size => map (measured (workers args) size) impls) (sizes args)
     /\ map trial_of rows
        = flat_map (fun size => map (trial size) impls) (sizes args))
  \/ (exists e, r = Raise e
      /\ (prepare_each impls w = None
          \/ exists wp, prepare_each impls w = Some wp
               /\ run_trials (workers args) (trial_pairs (sizes args) impls) [] wp = None)).
Proof.
  intros Hq. unfold sweep. unfold bind at 1.
  destruct (for_each impls ensure_ready w) as [r1 w1] eqn:Hp.
  apply for_each_prepare in Hp as [[-> Hp]|(e & done & impl & rest & wk & -> & -> & Hd & Hx)].
  - unfold bind at 1.
    change (for_fold (sizes args) []
              (fun size rows => for_fold impls rows
                 (fun impl rows0 => r <~ run_implementation impl size (workers args);;
                                    ret (rows0 ++ [r]))))
      with (for_fold (sizes args) []
              (fun size rows => one_size (workers args) size impls rows)).
    destruct (for_fold (sizes args) [] _ w1) as [r2 w2] eqn:Ha.
    apply all_sizes_pairs in Ha
      as [(rows & -> & Ha)|(e & done & size & impl & rest & rows1 & wk & -> & Hs & Hd & Hx)].
    + intros E. left. exists w1, rows, w2. repeat split; auto.
      * destruct (run_trials_calls _ _ _ _ _ _ Ha) as [Hc _].
        rewrite Hc, (prepare_each_calls _ _ _ Hq Hp), measured_pairs, <- app_assoc.
        reflexivity.
      * destruct (run_trials_calls _ _ _ _ _ _ Ha) as [_ Ht].
        rewrite Ht, trial_pairs_trials. reflexivity.
    + intros [= <- <-]. right. exists e. split; [reflexivity|]. right.
      exists w1. split; [exact Hp|].
      rewrite Hs, run_trials_app, Hd. cbn [run_trials]. rewrite Hx. reflexivity.
  - intros [= <- <-]. right. exists e. split; [reflexivity|]. left.
    replace (done ++ impl :: rest) with ((done ++ [impl]) ++ rest)
      by (rewrite <- app_assoc; reflexivity).
    assert (E : prepare_each (done ++ [impl]) w = None).
    { rewrite (prepare_each_snoc _ _ _ _ Hd). cbn [prepare_each].
      rewrite ensure_ready_called in Hx.
      destruct (preparer impl) as [p|]; [rewrite Hx; reflexivity | discriminate]. }
    revert E. generalize (done ++ [impl]). clear. intros l. revert w.
    induction l as [|x l IH]; intros w; cbn [app prepare_each]; [discriminate|].
    destruct (preparer x) as [p|]; [|apply IH].
    destruct (p (called x w)) as [[[]|e] w1]; [apply IH | reflexivity].
Qed.

Lemma implementations_quiet : Forall quiet_preparer implementations.
Proof.
  unfold implementations, quiet_preparer.
  repeat constructor; cbn; intros p [= <-];
    auto using quiet_ensure_buddy, quiet_ensure_sylvan, quiet_ensure_cudd,
               quiet_ensure_jdd, quiet_ensure_jsylvan.
Qed.

End Sweep.

Lemma sweep_order_witness :
  (exists wp rows wt,
     @prepare_each whole_floats (@implementations whole_floats echo_host) bench_world
     = Some wp
     /\ @run_trials whole_floats echo_host (workers bench_args)
          (@trial_pairs whole_floats (sizes bench_args)
             (@implementations whole_floats echo_host)) [] wp
        = Some (rows, wt)
     /\ @write_results whole_floats echo_host rows (output bench_args) wt
        = (Ok tt, snd (@sweep whole_floats echo_host
                         (@implementations whole_floats echo_host)
                         bench_args bench_world))
     /\ @calls whole_floats (trace wt)
        = @calls whole_floats (trace bench_world)
          ++ flat_map (@prepared whole_floats) (@implementations whole_floats echo_host)
          ++ flat_map (fun size => map (@measured whole_floats echo_host
                                          (workers bench_args) size)
                                     (@implementations whole_floats echo_host))
               (sizes bench_args)
     /\ map (@trial_of whole_floats) rows
        = flat_map (fun size => map (@trial whole_floats size)
                                  (@implementations whole_floats echo_host))
            (sizes bench_args))
  \/ (exists e, Ok tt = Raise e
      /\ (@prepare_each whole_floats (@implementations whole_floats echo_host)
            bench_world = None
          \/ exists wp,
               @prepare_each whole_floats (@implementations whole_floats echo_host)
                 bench_world = Some wp
               /\ @run_trials whole_floats echo_host (workers bench_args)
                    (@trial_pairs whole_floats (sizes bench_args)
                       (@implementations whole_floats echo_host)) [] wp
                  = None)).
Proof.
  apply (@sweep_order whole_floats echo_host (@implementations whole_floats echo_host)
           bench_args bench_world (Ok tt) _
           (@implementations_quiet whole_floats echo_host)).
  apply run_outcome. vm_compute. reflexivity.
Defined.

Section ResultsDir.
Context `{Host}.

Lemma follows_refl w : follows w w.
Proof. exists []. symmetry. apply app_nil_r. Qed.

Lemma follows_trans a b c : follows a b -> follows b c -> follows a c.
Proof.
  intros [e1 E1] [e2 E2]. exists (e1 ++ e2). rewrite E2, E1. symmetry. apply app_assoc.
Qed.

Lemma follows_emit e : respects follows (emit e).
Proof. intros w. exists [e]. reflexivity. Qed.

Lemma follows_get_fs : respects follows get_fs.
Proof. intros w. apply follows_refl. Qed.

Lemma follows_put_fs f : respects follows (put_fs f).
Proof. intros w. exists []. cbn. symmetry. apply app_nil_r. Qed.

Ltac follows_step :=
  lazymatch goal with
  | |- respects _ get_fs => apply follows_get_fs
  | |- respects _ (put_fs _) => apply follows_put_fs
  | |- respects _ (emit _) => apply follows_emit
  | |- _ => respects_step follows_refl follows_trans
  end.

Lemma keeps_refl d w : keeps d w w.
Proof. intros E. exact E. Qed.

Lemma keeps_trans d a b c : keeps d a b -> keeps d b c -> keeps d a c.
Proof. unfold keeps. auto. Qed.

Lemma keeps_emit d e : respects (keeps d) (emit e).
Proof. intros w E. exact E. Qed.

Lemma keeps_open_w d p : respects (keeps d) (open_w p).
Proof.
  intros w. unfold keeps, open_w, bind, emit, get_fs, put_fs, raise, is_dir. cbn.
  destruct (decide (p = d)) as [->|Hne].
  - destruct (fs w !! d) as [[m x|m]|] eqn:E0; cbn; rewrite ?E0;
      intros E; try discriminate E; auto.
  - destruct (fs w !! p) as [[m x|m]|]; cbn; try rewrite lookup_insert_ne by exact Hne; auto.
    destruct (fs w !! removelast p) as [[m x|m]|]; cbn;
      try rewrite lookup_insert_ne by exact Hne; auto.
Qed.

Lemma keeps_file_write d p data : respects (keeps d) (file_write p data).
Proof.
  intros w. unfold keeps, file_write, bind, emit, get_fs, put_fs, is_dir. cbn.
  destruct (decide (p = d)) as [->|Hne].
  - rewrite lookup_alter_eq. destruct (fs w !! d) as [[m x|m]|] eqn:E0; cbn;
      rewrite ?E0; intros E; try discriminate E; auto.
  - rewrite lookup_alter_ne by exact Hne. auto.
Qed.

Ltac keeps_step d :=
  lazymatch goal with
  | |- respects _ (emit _) => apply keeps_emit
  | |- respects _ (open_w _) => apply keeps_open_w
  | |- respects _ (file_write _ _) => apply keeps_file_write
  | |- _ => respects_step (keeps_refl d) (keeps_trans d)
  end.

Lemma follows_after_open rows p : respects follows (after_open rows p).
Proof.
  unfold after_open, writeheader, writerow, file_write, file_close, relative_to.
  repeat follows_step.
Qed.

Lemma keeps_after_open d rows p : respects (keeps d) (after_open rows p).
Proof.
  unfold after_open, writeheader, writerow, file_close, relative_to.
  repeat keeps_step d.
Qed.

Lemma open_w_trace p w : trace (snd (open_w p w)) = trace w ++ [EvOpen p].
Proof.
  unfold open_w, bind, emit, get_fs, put_fs, raise. cbn.
  destruct (fs w !! p) as [[m x|m]|]; cbn; auto.
  destruct (fs w !! removelast p) as [[m x|m]|]; cbn; auto.
Qed.

(** creating a directory without its parents is one call of [os.mkdir] *)
Lemma mkdir_trace exist_ok p w :
  trace (snd (mkdir false exist_ok p w)) = trace w ++ [EvMkdir p].
Proof.
  unfold mkdir. cbn. unfold catch, os_mkdir, bind, emit, get_fs, put_fs, raise. cbn.
  destruct (fs w !! p) as [n|]; cbn.
  - destruct (negb exist_ok || negb (is_dir (fs w) p)); reflexivity.
  - destruct (fs w !! removelast p) as [[m x|m]|]; cbn; auto.
    destruct (negb exist_ok || negb (is_dir (fs w) p)); reflexivity.
Qed.

Lemma write_results_parts rows output_path :
  write_results rows output_path
  = (mkdir false true RESULTS_DIR ;;; open_w output_path ;;; after_open rows output_path).
Proof. reflexivity. Qed.

Lemma follows_open_then rows p : respects follows (open_w p ;;; after_open rows p).
Proof.
  apply (respects_bind _ follows_trans).
  - intros w. eexists. apply open_w_trace.
  - intros _. apply follows_after_open.
Qed.

Lemma write_results_first_event rows output_path w :
  exists evs,
    trace (snd (write_results rows output_path w))
    = trace w ++ EvMkdir RESULTS_DIR :: evs.
Proof.
  rewrite write_results_parts. unfold bind at 1.
  pose proof (mkdir_trace true RESULTS_DIR w) as Hm.
  destruct (mkdir false true RESULTS_DIR w) as [[[]|e] w1]; cbn [snd] in Hm.
  - destruct (follows_open_then rows output_path w1) as [evs E].
    exists evs. rewrite E, Hm, <- app_assoc. reflexivity.
  - exists []. exact Hm.
Qed.

Lemma mkdir_results_dir w :
  is_dir (fs w) ROOT = true ->
  (forall m d, fs w !! RESULTS_DIR <> Some (File m d)) ->
  exists w1,
    mkdir false true RESULTS_DIR w = (Ok tt, w1)
    /\ is_dir (fs w1) RESULTS_DIR = true
    /\ trace w1 = trace w ++ [EvMkdir RESULTS_DIR].
Proof.
  intros Hroot Hfile.
  unfold mkdir. cbn. unfold catch, os_mkdir, bind, emit, get_fs, put_fs, raise. cbn.
  unfold is_dir in *.
  destruct (fs w !! RESULTS_DIR) as [[m d|m]|] eqn:E; cbn.
  - exfalso. apply (Hfile m d). reflexivity.
  - unfold is_dir. rewrite E. cbn. eexists. split; [reflexivity|]. cbn.
    rewrite E. auto.
  - unfold RESULTS_DIR in *. rewrite removelast_sub.
    destruct (fs w !! ROOT) as [[m d|m]|]; try discriminate. cbn.
    eexists. split; [reflexivity|]. cbn. rewrite lookup_insert_eq. auto.
Qed.

(** Claim C10.  Whatever the output path, when the root is a directory
    and no file stands at the path of the directory of results,
    [write_results] makes that directory, and does so before it opens
    the output path: [EvMkdir RESULTS_DIR] is the first event of the
    call and [EvOpen output_path] the second, and the directory of
    results exists in the world the call leaves. *)
Theorem write_results_creates_results_dir rows output_path w :
  is_dir (fs w) ROOT = true ->
  (forall m d, fs w !! RESULTS_DIR <> Some (File m d)) ->
  exists evs,
    trace (snd (write_results rows output_path w))
    = trace w ++ EvMkdir RESULTS_DIR :: EvOpen output_path :: evs
    /\ is_dir (fs (snd (write_results rows output_path w))) RESULTS_DIR = true.
Proof.
  intros Hroot Hfile.
  destruct (mkdir_results_dir w Hroot Hfile) as (w1 & Hm & Hd & Ht).
  rewrite write_results_parts, (bind_ok _ _ _ _ _ Hm).
  pose proof (open_w_trace output_path w1) as Ho.
  pose proof (keeps_open_w RESULTS_DIR output_path w1 Hd) as Hk.
  destruct (open_w output_path w1) as [[[]|e] w2] eqn:Eo; cbn [snd] in Ho, Hk.
  - rewrite (bind_ok _ _ _ _ _ Eo).
    destruct (follows_after_open rows output_path w2) as [evs E].
    exists evs. split.
    + rewrite E, Ho, Ht, <- !app_assoc. reflexivity.
    + apply (keeps_after_open RESULTS_DIR rows output_path w2 Hk).
  - rewrite (bind_raise _ _ _ _ _ Eo).
    exists []. cbn [snd]. split; [|exact Hk]. rewrite Ho, Ht, <- app_assoc. reflexivity.
Qed.

End ResultsDir.

Lemma write_results_creates_results_dir_witness :
  exists evs,
    trace (snd (@write_results whole_floats echo_host (map to_row sample_records)
                  outside_output bench_world))
    = trace bench_world
      ++ EvMkdir (@RESULTS_DIR whole_floats echo_host) :: EvOpen outside_output :: evs
    /\ is_dir (fs (snd (@write_results whole_floats echo_host (map to_row sample_records)
                          outside_output bench_world)))
         (@RESULTS_DIR whole_floats echo_host) = true.
Proof.
  apply (@write_results_creates_results_dir whole_floats echo_host).
  - vm_compute. reflexivity.
  - vm_compute. intros m d E. discriminate E.
Defined.

(** ** The table as text, and as the reader sees it *)

Lemma special_false c :
  special c = false ->
  ascii_eqb c COMMA = false /\ ascii_eqb c QUOTE = false
  /\ ascii_eqb c CR = false /\ ascii_eqb c LF = false.
Proof.
  unfold special. intros E. repeat (apply orb_false_iff in E as [E ?]). auto.
Qed.

Lemma existsb_cons_false {A} (f : A -> bool) x l :
  existsb f (x :: l) = false -> f x = false /\ existsb f l = false.
Proof. cbn. apply orb_false_iff. Qed.

Lemma translate_plain s y :
  existsb special s = false ->
  translate_newlines false (s ++ y) = s ++ translate_newlines false y.
Proof.
  induction s as [|c s IH]; intros Hs; [reflexivity|].
  apply existsb_cons_false in Hs as [Hc Hs].
  destruct (special_false c Hc) as (_ & _ & Hcr & Hlf).
  cbn [app translate_newlines]. rewrite Hcr, Hlf. cbn [andb]. f_equal. auto.
Qed.

Lemma universal_newlines_plain s :
  existsb special s = false -> universal_newlines s = s.
Proof.
  intros Hs. unfold universal_newlines.
  rewrite <- (app_nil_r s) at 1. rewrite (translate_plain s [] Hs). cbn.
  apply app_nil_r.
Qed.

Lemma translate_quoted b s y :
  translate_newlines b (double_quotes s ++ QUOTE :: y)
  = double_quotes (translate_newlines b s) ++ QUOTE :: translate_newlines false y.
Proof.
  revert b. induction s as [|c s IH]; intros b.
  - cbn. destruct b; reflexivity.
  - cbn [double_quotes flat_map app translate_newlines].
    destruct (ascii_eqb c QUOTE) eqn:Eq.
    + apply ascii_eqb_eq in Eq. subst c.
      change (ascii_eqb QUOTE CR) with false. change (ascii_eqb QUOTE LF) with false.
      cbn [app translate_newlines andb double_quotes flat_map].
      change (ascii_eqb QUOTE CR) with false. change (ascii_eqb QUOTE LF) with false.
      change (ascii_eqb QUOTE QUOTE) with true.
      cbn [app andb]. f_equal. f_equal. apply IH.
    + cbn [app translate_newlines].
      destruct (ascii_eqb c CR) eqn:Ecr.
      * cbn [double_quotes flat_map]. change (ascii_eqb LF QUOTE) with false.
        cbn [app]. f_equal. apply IH.
      * destruct (ascii_eqb c LF && b) eqn:El.
        -- apply IH.
        -- cbn [double_quotes flat_map]. rewrite Eq. cbn [app]. f_equal. apply IH.
Qed.

Lemma translate_field s y :
  translate_newlines false (csv_field s ++ y)
  = field_as_read s ++ translate_newlines false y.
Proof.
  unfold csv_field, field_as_read. destruct (existsb special s) eqn:E.
  - cbn [app]. rewrite <- app_assoc. cbn [app translate_newlines].
    change (ascii_eqb QUOTE CR) with false. change (ascii_eqb QUOTE LF) with false.
    cbn [andb]. rewrite translate_quoted, <- app_assoc. reflexivity.
  - apply translate_plain. exact E.
Qed.

Lemma translate_joined fields y :
  fields <> [] ->
  translate_newlines false (join_fields (map csv_field fields) ++ CR :: LF :: y)
  = join_fields (map field_as_read fields) ++ LF :: translate_newlines false y.
Proof.
  induction fields as [|s fields IH]; intros Hne; [congruence|].
  destruct fields as [|t fields].
  - cbn [map join_fields]. rewrite translate_field. reflexivity.
  - change (join_fields (map csv_field (s :: t :: fields)))
      with (csv_field s ++ COMMA :: join_fields (map csv_field (t :: fields))).
    change (join_fields (map field_as_read (s :: t :: fields)))
      with (field_as_read s ++ COMMA :: join_fields (map field_as_read (t :: fields))).
    rewrite <- !app_assoc, translate_field. f_equal.
    cbn [app translate_newlines].
    change (ascii_eqb COMMA CR) with false. change (ascii_eqb COMMA LF) with false.
    cbn [andb]. f_equal. apply IH. discriminate.
Qed.

Lemma csv_record_several fields :
  several fields ->
  csv_record fields = join_fields (map csv_field fields) ++ [CR; LF].
Proof.
  unfold several, csv_record. destruct fields as [|s [|t fields]]; cbn [length]; try lia.
  intros _.
  change (join_fields (map csv_field (s :: t :: fields)))
    with (csv_field s ++ COMMA :: join_fields (map csv_field (t :: fields))).
  destruct (csv_field s); reflexivity.
Qed.

Lemma translate_table recs :
  Forall several recs ->
  universal_newlines (concat (map csv_record recs))
  = concat (map record_as_read recs).
Proof.
  unfold universal_newlines. induction 1 as [|r recs Hr _ IH]; [reflexivity|].
  cbn [map concat]. rewrite (csv_record_several r Hr), <- app_assoc.
  cbn [app]. rewrite translate_joined.
  - unfold record_as_read. rewrite <- app_assoc. cbn [app]. rewrite IH. reflexivity.
  - unfold several in Hr. destruct r; cbn in Hr; [lia | discriminate].
Qed.

(** ** The reader, character by character *)

Lemma parse_line_app r cur l :
  parse_line r (cur ++ l) = rbind (parse_chars r cur) (fun r' => parse_line r' l).
Proof.
  revert r. induction cur as [|c cur IH]; intros r; cbn [app parse_line parse_chars rbind].
  - reflexivity.
  - destruct (parse_process_char r (Some c)) as [r1|e]; cbn [rbind]; auto.
Qed.

Lemma parse_chars_snoc r cur c :
  parse_chars r (cur ++ [c])
  = rbind (parse_chars r cur) (fun r' => parse_process_char r' (Some c)).
Proof.
  revert r. induction cur as [|d cur IH]; intros r; cbn [app parse_chars rbind].
  - destruct (parse_process_char r (Some c)); reflexivity.
  - destruct (parse_process_char r (Some d)) as [r1|e]; cbn [rbind]; auto.
Qed.

Lemma csv_reader_stream s : forall cur r0 r recs,
  parse_chars r0 cur = Ok r ->
  stream r (nonempty cur) s = Ok recs ->
  csv_reader r0 (lines_from cur s) = Ok recs.
Proof.
  induction s as [|c s IH]; intros cur r0 r recs Hcur Hs.
  - destruct cur as [|d cur].
    + cbn in Hcur. injection Hcur as <-. exact Hs.
    + cbn [lines_from]. cbn [nonempty stream] in Hs. cbn [csv_reader].
      rewrite <- (app_nil_r (d :: cur)), parse_line_app, Hcur. cbn [rbind parse_line].
      destruct (parse_process_char r None) as [r2|e]; cbn [rbind] in *; [|discriminate].
      destruct (at_start r2); [|exact Hs]. cbn. exact Hs.
  - cbn [stream] in Hs. cbn [lines_from].
    destruct (parse_process_char r (Some c)) as [r1|e] eqn:E1; cbn [rbind] in Hs;
      [|discriminate].
    destruct (ascii_eqb c LF) eqn:Ec.
    + apply ascii_eqb_eq in Ec. subst c. cbn [csv_reader].
      rewrite parse_line_app, Hcur. cbn [rbind parse_line]. rewrite E1. cbn [rbind].
      destruct (parse_process_char r1 None) as [r2|e]; cbn [rbind] in *; [|discriminate].
      destruct (at_start r2).
      * destruct (stream parse_reset false s) as [recs'|e] eqn:E2; cbn [rbind] in Hs;
          [|discriminate].
        rewrite (IH [] parse_reset parse_reset recs' eq_refl E2). exact Hs.
      * apply (IH [] r2 r2 recs eq_refl Hs).
    + apply (IH (cur ++ [c]) r0 r1 recs).
      * rewrite parse_chars_snoc, Hcur. exact E1.
      * destruct cur; exact Hs.
Qed.

Lemma stream_char r p c s r1 :
  parse_process_char r (Some c) = Ok r1 -> ascii_eqb c LF = false ->
  stream r p (c :: s) = stream r1 true s.
Proof. intros E Ec. cbn [stream]. rewrite E, Ec. reflexivity. Qed.

Lemma stream_unquoted_tail buf done s x :
  existsb special s = false ->
  stream (Reader IN_FIELD buf done) true (s ++ x)
  = stream (Reader IN_FIELD (buf ++ s) done) true x.
Proof.
  revert buf. induction s as [|c s IH]; intros buf Hs.
  - rewrite app_nil_r. reflexivity.
  - apply existsb_cons_false in Hs as [Hc Hs].
    destruct (special_false c Hc) as (Hco & Hq & Hcr & Hlf).
    cbn [app].
    rewrite (stream_char _ _ c _ (Reader IN_FIELD (buf ++ [c]) done)); [|
      cbn [parse_process_char state]; unfold is_newline; rewrite Hlf, Hcr, Hco;
      reflexivity | exact Hlf].
    rewrite (IH _ Hs), <- app_assoc. reflexivity.
Qed.

Lemma double_quotes_cons c t :
  double_quotes (c :: t)
  = (if ascii_eqb c QUOTE then [QUOTE; QUOTE] else [c]) ++ double_quotes t.
Proof. reflexivity. Qed.

Lemma stream_quoted_body buf done p t x :
  stream (Reader IN_QUOTED_FIELD buf done) p (double_quotes t ++ QUOTE :: x)
  = stream (Reader QUOTE_IN_QUOTED_FIELD (buf ++ t) done) true x.
Proof.
  revert buf p. induction t as [|c t IH]; intros buf p.
  - change (double_quotes []) with (@nil ascii). cbn [app]. rewrite app_nil_r.
    apply stream_char; reflexivity.
  - rewrite double_quotes_cons. destruct (ascii_eqb c QUOTE) eqn:Eq.
    + apply ascii_eqb_eq in Eq. subst c. cbn [app].
      rewrite (stream_char _ _ QUOTE _ (Reader QUOTE_IN_QUOTED_FIELD buf done));
        [|reflexivity|reflexivity].
      rewrite (stream_char _ _ QUOTE _ (Reader IN_QUOTED_FIELD (buf ++ [QUOTE]) done));
        [|reflexivity|reflexivity].
      rewrite IH, <- app_assoc. reflexivity.
    + cbn [app].
      destruct (ascii_eqb c LF) eqn:El.
      * apply ascii_eqb_eq in El. subst c.
        cbn [stream parse_process_char state]. rewrite Eq. cbn [rbind].
        change (ascii_eqb LF LF) with true.
        cbn [parse_process_char state rbind at_start].
        unfold parse_add_char. cbn [field fields].
        cbn [parse_process_char state rbind at_start].
        rewrite IH, <- app_assoc. reflexivity.
      * rewrite (stream_char _ _ c _ (Reader IN_QUOTED_FIELD (buf ++ [c]) done));
          [|cbn [parse_process_char state]; rewrite Eq; reflexivity|exact El].
        rewrite IH, <- app_assoc. reflexivity.
Qed.

Lemma fresh_char st done c :
  fresh st -> is_newline c = false ->
  parse_process_char (Reader st [] done) (Some c) = Ok (start_field (Some c) (Reader st [] done)).
Proof.
  intros [-> | ->] Hc; cbn [parse_process_char state]; [rewrite Hc|]; reflexivity.
Qed.

Lemma stream_field_comma st done p s rest :
  fresh st ->
  stream (Reader st [] done) p (field_as_read s ++ COMMA :: rest)
  = stream (Reader START_FIELD [] (done ++ [universal_newlines s])) true rest.
Proof.
  intros Hst. unfold field_as_read. destruct (existsb special s) eqn:E.
  - cbn [app]. rewrite <- app_assoc. cbn [app].
    rewrite (stream_char _ _ QUOTE _ (Reader IN_QUOTED_FIELD [] done));
      [|rewrite (fresh_char st done QUOTE Hst eq_refl); reflexivity|reflexivity].
    rewrite stream_quoted_body. apply stream_char; reflexivity.
  - rewrite (universal_newlines_plain s E). destruct s as [|c s].
    + cbn [app]. apply stream_char; [|reflexivity].
      rewrite (fresh_char st done COMMA Hst eq_refl). reflexivity.
    + apply existsb_cons_false in E as [Hc Hs].
      destruct (special_false c Hc) as (Hco & Hq & Hcr & Hlf).
      cbn [app].
      rewrite (stream_char _ _ c _ (Reader IN_FIELD [c] done)); [| |exact Hlf].
      * rewrite (stream_unquoted_tail _ _ s _ Hs). apply stream_char; reflexivity.
      * rewrite (fresh_char st done c Hst) by (unfold is_newline; rewrite Hlf, Hcr; reflexivity).
        unfold start_field, is_newline. rewrite Hlf, Hcr, Hq, Hco. reflexivity.
Qed.

Lemma stream_end_of_record st buf done p rest :
  st = IN_FIELD \/ st = QUOTE_IN_QUOTED_FIELD \/ (st = START_FIELD /\ buf = []) ->
  stream (Reader st buf done) p (LF :: rest)
  = rbind (stream parse_reset false rest) (fun recs => Ok ((done ++ [buf]) :: recs)).
Proof.
  intros [-> | [-> | [-> ->]]]; reflexivity.
Qed.

Lemma stream_field_eol done p s rest :
  stream (Reader START_FIELD [] done) p (field_as_read s ++ LF :: rest)
  = rbind (stream parse_reset false rest)
      (fun recs => Ok ((done ++ [universal_newlines s]) :: recs)).
Proof.
  unfold field_as_read. destruct (existsb special s) eqn:E.
  - cbn [app]. rewrite <- app_assoc. cbn [app].
    rewrite (stream_char _ _ QUOTE _ (Reader IN_QUOTED_FIELD [] done));
      [|reflexivity|reflexivity].
    rewrite stream_quoted_body. apply stream_end_of_record. auto.
  - rewrite (universal_newlines_plain s E). destruct s as [|c s].
    + cbn [app]. apply stream_end_of_record. auto.
    + apply existsb_cons_false in E as [Hc Hs].
      destruct (special_false c Hc) as (Hco & Hq & Hcr & Hlf).
      cbn [app].
      rewrite (stream_char _ _ c _ (Reader IN_FIELD [c] done)); [| |exact Hlf].
      * rewrite (stream_unquoted_tail _ _ s _ Hs). apply stream_end_of_record. auto.
      * cbn [parse_process_char state]. unfold start_field, is_newline.
        rewrite Hlf, Hcr, Hq, Hco. reflexivity.
Qed.

Lemma stream_fields done p fs rest :
  fs <> [] ->
  stream (Reader START_FIELD [] done) p
    (join_fields (map field_as_read fs) ++ LF :: rest)
  = rbind (stream parse_reset false rest)
      (fun recs => Ok ((done ++ map universal_newlines fs) :: recs)).
Proof.
  revert done p. induction fs as [|s fs IH]; intros done p Hne; [congruence|].
  destruct fs as [|t fs].
  - cbn [map join_fields]. apply stream_field_eol.
  - change (join_fields (map field_as_read (s :: t :: fs)))
      with (field_as_read s ++ COMMA :: join_fields (map field_as_read (t :: fs))).
    rewrite <- app_assoc. cbn [app].
    rewrite stream_field_comma by (right; reflexivity).
    rewrite IH by discriminate. rewrite <- app_assoc. reflexivity.
Qed.

Lemma stream_record fs rest :
  several fs ->
  stream parse_reset false (record_as_read fs ++ rest)
  = rbind (stream parse_reset false rest)
      (fun recs => Ok (map universal_newlines fs :: recs)).
Proof.
  unfold several, record_as_read. destruct fs as [|s [|t fs]]; cbn [length]; try lia.
  intros _.
  change (join_fields (map field_as_read (s :: t :: fs)))
    with (field_as_read s ++ COMMA :: join_fields (map field_as_read (t :: fs))).
  rewrite <- !app_assoc. cbn [app]. unfold parse_reset.
  rewrite stream_field_comma by (left; reflexivity).
  rewrite stream_fields by discriminate. reflexivity.
Qed.

Lemma stream_table recs :
  Forall several recs ->
  stream parse_reset false (concat (map record_as_read recs))
  = Ok (map (map universal_newlines) recs).
Proof.
  induction 1 as [|r recs Hr _ IH]; [reflexivity|].
  cbn [map concat]. rewrite (stream_record r _ Hr), IH. reflexivity.
Qed.

(** Reading back what the writer wrote, before the columns are named. *)
Lemma csv_reader_table recs :
  Forall several recs ->
  csv_reader parse_reset (file_lines (universal_newlines (concat (map csv_record recs))))
  = Ok (map (map universal_newlines) recs).
Proof.
  intros Hr. rewrite (translate_table recs Hr). unfold file_lines.
  apply (csv_reader_stream _ [] parse_reset parse_reset); [reflexivity|].
  apply stream_table. exact Hr.
Qed.

(** ** Result Records and the round trip *)

Section RoundTrip.
Context `{Host}.

Lemma dict_to_list_seven (a b c d e f g : pyval) :
  dict_to_list fieldnames
    (list_to_map
       [ (lit "implementation", a); (lit "language", b); (lit "size", c);
         (lit "time_sec", d); (lit "max_rss_kb", e); (lit "nodes", f);
         (lit "solutions", g) ])
  = Ok [a; b; c; d; e; f; g].
Proof. vm_compute. reflexivity. Qed.

Lemma row_line_to_row r : row_line (to_row r) = Ok (csv_record (fields_of r)).
Proof.
  unfold row_line, to_row. rewrite dict_to_list_seven. reflexivity.
Qed.

Lemma row_lines_to_rows rs :
  map_result row_line (map to_row rs) = Ok (map (fun r => csv_record (fields_of r)) rs).
Proof.
  induction rs as [|r rs IH]; [reflexivity|].
  cbn [map map_result]. rewrite row_line_to_row, IH. reflexivity.
Qed.

Lemma header_line_record : header_line = csv_record fieldnames.
Proof. vm_compute. reflexivity. Qed.

Lemma table_text_records rs :
  table_text (map (fun r => csv_record (fields_of r)) rs)
  = concat (map csv_record (fieldnames :: map fields_of rs)).
Proof.
  unfold table_text. rewrite header_line_record. cbn [map concat].
  rewrite map_map. reflexivity.
Qed.

Lemma several_records rs : Forall several (fieldnames :: map fields_of rs).
Proof.
  constructor.
  - unfold several. cbn. lia.
  - apply List.Forall_forall. intros x Hx. apply in_map_iff in Hx as (r & <- & _).
    unfold several. cbn. lia.
Qed.

Lemma zip_row_seven a b c d e f g :
  zip_row fieldnames [a; b; c; d; e; f; g]
  = list_to_map
      [ (lit "implementation", VStr a); (lit "language", VStr b);
        (lit "size", VStr c); (lit "time_sec", VStr d);
        (lit "max_rss_kb", VStr e); (lit "nodes", VStr f);
        (lit "solutions", VStr g) ].
Proof. reflexivity. Qed.

Ltac look_up :=
  match goal with
  | |- context [@lookup ?K ?A ?M ?I ?k ?m] =>
      let v := eval vm_compute in (@lookup K A M I k m) in
      change (@lookup K A M I k m) with v
  end.

Lemma read_row_seven a b c d e f g n t m k s :
  py_int c = Some n -> float_of_str d = Some t -> py_int e = Some m ->
  py_int f = Some k -> float_of_str g = Some s ->
  read_row (list_to_map
      [ (lit "implementation", VStr a); (lit "language", VStr b);
        (lit "size", VStr c); (lit "time_sec", VStr d);
        (lit "max_rss_kb", VStr e); (lit "nodes", VStr f);
        (lit "solutions", VStr g) ])
  = Ok (list_to_map
      [ (lit "implementation", VStr a); (lit "language", VStr b);
        (lit "size", VInt n); (lit "time_sec", VFloat t);
        (lit "max_rss_kb", VInt m); (lit "nodes", VInt k);
        (lit "solutions", VFloat s) ]).
Proof.
  intros Hc Hd He Hf Hg. unfold read_row, convert, to_int, to_float.
  look_up. cbv beta iota. rewrite Hc. cbn [option_map rbind].
  look_up. cbv beta iota. rewrite Hd. cbn [option_map rbind].
  look_up. cbv beta iota. rewrite He. cbn [option_map rbind].
  look_up. cbv beta iota. rewrite Hf. cbn [option_map rbind].
  look_up. cbv beta iota. rewrite Hg. cbn [option_map rbind].
  f_equal.
Qed.

Lemma fields_read_back r :
  floats_plain ->
  map universal_newlines (fields_of r) = fields_of (read_back r).
Proof.
  intros Hp. unfold fields_of, read_back. cbn [map rec_implementation rec_language
    rec_size rec_time_sec rec_max_rss_kb rec_nodes rec_solutions].
  rewrite !(universal_newlines_plain _ (str_of_Z_plain _)),
          !(universal_newlines_plain _ (Hp _)). reflexivity.
Qed.

Lemma read_row_fields r :
  floats_round_trip ->
  read_row (zip_row fieldnames (fields_of r)) = Ok (to_row r).
Proof.
  intros Hr. unfold fields_of. rewrite zip_row_seven.
  apply read_row_seven; auto using py_int_str_of_Z.
Qed.

Lemma read_data rs :
  floats_round_trip -> floats_plain ->
  map_result read_row
    (map (zip_row fieldnames)
       (List.filter (fun r => negb (is_nil r))
          (map (map universal_newlines) (map fields_of rs))))
  = Ok (map to_row (map read_back rs)).
Proof.
  intros Hr Hp. induction rs as [|r rs IH]; [reflexivity|].
  cbn [map]. rewrite (fields_read_back r Hp).
  change (List.filter ?f (fields_of ?x :: ?l)) with (fields_of x :: List.filter f l).
  cbn [map map_result]. rewrite (read_row_fields _ Hr), IH. reflexivity.
Qed.

Lemma fieldnames_as_read : map universal_newlines fieldnames = fieldnames.
Proof. vm_compute. reflexivity. Qed.

Lemma read_rows_text f p m rs :
  floats_round_trip -> floats_plain ->
  f !! p = Some (File m (table_text (map (fun r => csv_record (fields_of r)) rs))) ->
  read_rows f p = Ok (map to_row (map read_back rs)).
Proof.
  intros Hr Hp Hf. unfold read_rows. rewrite Hf, table_text_records.
  rewrite (csv_reader_table _ (several_records rs)). cbn [rbind map].
  rewrite fieldnames_as_read. unfold dict_reader.
  apply read_data; assumption.
Qed.

(** Claim C8.  When floats come back from their text and that text
    needs no quoting, and the table can be opened for writing, the rows
    read back by [read_rows] from the table that [write_results] wrote
    are the rows written, as many and in the same order: every number
    ([size], [time_sec], [max_rss_kb], [nodes], [solutions]) is the
    number written, and the two strings are the strings written with
    their line ends read in text mode. *)
Theorem table_round_trip rs output_path w w1 w2 :
  floats_round_trip -> floats_plain ->
  mkdir false true RESULTS_DIR w = (Ok tt, w1) ->
  open_w output_path w1 = (Ok tt, w2) ->
  read_rows (fs (snd (write_results (map to_row rs) output_path w))) output_path
  = Ok (map to_row (map read_back rs)).
Proof.
  intros Hr Hp Hm Ho.
  destruct (write_results_text _ output_path _ w w1 w2 Hm Ho (row_lines_to_rows rs))
    as [m Hf].
  apply (read_rows_text _ _ m rs Hr Hp Hf).
Qed.

End RoundTrip.

Lemma table_round_trip_witness :
  @read_rows whole_floats
    (fs (snd (@write_results whole_floats echo_host (map to_row sample_records)
                bench_output bench_world)))
    bench_output
  = Ok (map to_row (map read_back sample_records)).
Proof.
  apply (@table_round_trip whole_floats echo_host sample_records bench_output bench_world
           (snd (@mkdir whole_floats echo_host false true
                   (@RESULTS_DIR whole_floats echo_host) bench_world))
           (snd (@open_w whole_floats echo_host bench_output
                   (snd (@mkdir whole_floats echo_host false true
                           (@RESULTS_DIR whole_floats echo_host) bench_world))))).
  - intros x. apply py_int_str_of_Z.
  - intros x. apply str_of_Z_plain.
  - apply run_outcome. vm_compute. reflexivity.
  - apply run_outcome. vm_compute. reflexivity.
Defined.

(** The table of the bench and what is read back from it: the second
    name comes back with its CR read as LF, every number as written. *)
Example table_round_trip_sample :
  match @read_rows whole_floats
          (fs (snd (@write_results whole_floats echo_host (map to_row sample_records)
                      bench_output bench_world)))
          bench_output with
  | Ok rows => map (fun r => (r !! lit "implementation", r !! lit "solutions")) rows
  | Raise _ => []
  end
  = [ (Some (VStr (lit "BuDDy")), Some (@VFloat whole_floats 2));
      (Some (VStr (lit "a,b" ++ [QUOTE; LF] ++ lit "c")), Some (@VFloat whole_floats 14200)) ].
Proof. reflexivity. Qed.

(** * Further properties of the harness *)

(** ** Trials: the other outcomes *)

Section TrialOutcomes.
Context `{Host}.

(** Property X1.  A trial whose measurement helper ends with an exit
    code other than zero fails with the [RuntimeError] of the helper,
    whatever the helper has put on the queue: no record is returned
    and the output of the command, if there is one, is not looked
    at. *)
Theorem run_implementation_helper_failed impl size workers w :
  h_exitcode (helper_of impl size workers w) <> 0 ->
  run_implementation impl size workers w
  = (Raise (RuntimeError (lit "Measurement helper failed")),
     World (h_fs (helper_of impl size workers w)) (trace (started impl size workers w))).
Proof.
  unfold helper_of, started. intros He. apply Z.eqb_neq in He.
  unfold run_implementation, execute_with_metrics, bind, emit, get_world, put_fs.
  cbn [fs trace]. rewrite He. reflexivity.
Qed.

(** Property X2.  A trial whose measurement helper ends with exit code
    zero and has put nothing on the queue fails with the
    [RuntimeError] that says so. *)
Theorem run_implementation_no_data impl size workers w :
  h_exitcode (helper_of impl size workers w) = 0 ->
  h_queue (helper_of impl size workers w) = None ->
  run_implementation impl size workers w
  = (Raise (RuntimeError (lit "Measurement helper returned no data")),
     World (h_fs (helper_of impl size workers w)) (trace (started impl size workers w))).
Proof.
  unfold helper_of, started. intros He Hq.
  unfold run_implementation, execute_with_metrics, bind, emit, get_world, put_fs.
  cbn [fs trace]. rewrite He, Hq. reflexivity.
Qed.

(** Property X3.  A trial whose command exits with code zero and
    whose output carries the size asked for gives the record of the
    trial: the name and the language of the implementation, the size
    asked for, the time and the peak memory the helper measured, and
    the nodes and solutions read from the output.  It prints the line
    of the run and changes nothing else. *)
Theorem run_implementation_record impl size workers w c solutions nodes :
  h_exitcode (helper_of impl size workers w) = 0 ->
  h_queue (helper_of impl size workers w) = Some c ->
  c_returncode c = 0 ->
  parse_metrics (c_stdout c) = Ok (size, solutions, nodes) ->
  run_implementation impl size workers w
  = (Ok (list_to_map
           [ (lit "implementation", VStr (name impl));
             (lit "language", VStr (language impl));
             (lit "size", VInt size);
             (lit "time_sec", VFloat (c_elapsed c));
             (lit "max_rss_kb", VInt (c_max_rss c));
             (lit "nodes", VInt nodes);
             (lit "solutions", VFloat solutions) ]),
     World (h_fs (helper_of impl size workers w))
       (trace (started impl size workers w)
        ++ [EvPrint (RunLine (name impl) size (c_elapsed c) (c_max_rss c) nodes)])).
Proof.
  intros He Hq Hr Hp.
  rewrite (run_implementation_unfold impl size workers w c He Hq).
  cbv zeta. rewrite Hr, Hp. cbn [Z.eqb negb]. rewrite Z.eqb_refl. reflexivity.
Qed.

(** Property X4.  A trial whose command exits with code zero and in
    whose output the pattern matches no line (no line has the marker
    followed by white space and the three fields in the shape the
    pattern asks for) fails with the [RuntimeError] of the
    extraction; nothing is printed and no record is returned. *)
Theorem run_implementation_no_metrics impl size workers w c :
  h_exitcode (helper_of impl size workers w) = 0 ->
  h_queue (helper_of impl size workers w) = Some c ->
  c_returncode c = 0 ->
  Forall (fun l => ~ matched l) (splitlines (strip (c_stdout c))) ->
  run_implementation impl size workers w
  = (Raise (RuntimeError (lit "Failed to parse NQUEENS_METRICS from program output")),
     World (h_fs (helper_of impl size workers w)) (trace (started impl size workers w))).
Proof.
  intros He Hq Hr Hl.
  rewrite (run_implementation_unfold impl size workers w c He Hq).
  cbv zeta. rewrite Hr. cbn [Z.eqb negb]. unfold parse_metrics.
  rewrite last_match_none; [reflexivity|].
  eapply List.Forall_impl; [|exact Hl]. intros l. apply unmatched_no_match.
Qed.

End TrialOutcomes.

Lemma run_implementation_helper_failed_witness :
  @run_implementation whole_floats (helper_host 1 (Some (echo_program [lit "4"])))
    some_stub 4 0 bench_world
  = (Raise (RuntimeError (lit "Measurement helper failed")),
     World (h_fs (@helper_of whole_floats (helper_host 1 (Some (echo_program [lit "4"])))
                    some_stub 4 0 bench_world))
           (trace (@started whole_floats (helper_host 1 (Some (echo_program [lit "4"])))
                     some_stub 4 0 bench_world))).
Proof.
  apply (@run_implementation_helper_failed whole_floats
           (helper_host 1 (Some (echo_program [lit "4"]))) some_stub 4 0 bench_world).
  discriminate.
Defined.

Lemma run_implementation_no_data_witness :
  @run_implementation whole_floats (helper_host 0 None) some_stub 4 0 bench_world
  = (Raise (RuntimeError (lit "Measurement helper returned no data")),
     World (h_fs (@helper_of whole_floats (helper_host 0 None) some_stub 4 0 bench_world))
           (trace (@started whole_floats (helper_host 0 None) some_stub 4 0 bench_world))).
Proof.
  apply (@run_implementation_no_data whole_floats (helper_host 0 None) some_stub 4 0
           bench_world); reflexivity.
Defined.

Lemma run_implementation_record_witness :
  @run_implementation whole_floats echo_host some_stub 4 0 bench_world
  = (Ok (list_to_map
           [ (lit "implementation", VStr (lit "Stub"));
             (lit "language", VStr (lit "C"));
             (lit "size", VInt 4);
             (lit "time_sec", @VFloat whole_floats 7);
             (lit "max_rss_kb", VInt 1000);
             (lit "nodes", VInt 10);
             (lit "solutions", @VFloat whole_floats 2) ]),
     World (h_fs (@helper_of whole_floats echo_host some_stub 4 0 bench_world))
       (trace (@started whole_floats echo_host some_stub 4 0 bench_world)
        ++ [EvPrint (@RunLine whole_floats (lit "Stub") 4 7 1000 10)])).
Proof.
  apply (@run_implementation_record whole_floats echo_host some_stub 4 0 bench_world
           (echo_program [lit "stub"; lit "4"]) 2 10).
  - reflexivity.
  - reflexivity.
  - reflexivity.
  - vm_compute. reflexivity.
Defined.

Lemma run_implementation_no_metrics_witness :
  @run_implementation whole_floats (bench_host 0 silent_program) some_stub 4 0 bench_world
  = (Raise (RuntimeError (lit "Failed to parse NQUEENS_METRICS from program output")),
     World (h_fs (@helper_of whole_floats (bench_host 0 silent_program)
                    some_stub 4 0 bench_world))
           (trace (@started whole_floats (bench_host 0 silent_program)
                     some_stub 4 0 bench_world))).
Proof.
  apply (@run_implementation_no_metrics whole_floats (bench_host 0 silent_program)
           some_stub 4 0 bench_world (silent_program [])).
  - reflexivity.
  - reflexivity.
  - reflexivity.
  - assert (E : splitlines (strip (c_stdout (silent_program []))) = [lit "hello world"])
      by (vm_compute; reflexivity).
    rewrite E. constructor; [|constructor].
    intros Hm. apply matched_iff in Hm. apply Hm. vm_compute. reflexivity.
Defined.

(** ** Extraction of the metrics: where a triple comes from *)

Section MetricsShape.
Context `{PyFloat}.

(** Property X5.  A triple that extraction returns is read from the
    last line of the text in which the pattern finds a match, at the
    first match in that line.  That match has this shape: the marker,
    white space, text without the letter n, [n=] and a run of digits
    that white space ends, text without the letter s, [solutions=]
    and a run of digits and points that white space ends, text
    without the letter n, [nodes=] and a run of digits that no digit
    follows.  The size is the value of the first run, the solutions
    are what [float] makes of the second, the nodes are the value of
    the third: no part of the triple is a default. *)
Theorem parse_metrics_from_line stdout size solutions nodes :
  parse_metrics stdout = Ok (size, solutions, nodes) ->
  exists before pre m after,
    splitlines (strip stdout) = before ++ metrics_line pre m :: after
    /\ Forall (fun l => ~ matched l) after
    /\ leftmost pre (MARKER ++ body m)
    /\ well_formed m = true
    /\ size = digits_val (d1 m)
    /\ float_of_str (d2 m) = Some solutions
    /\ nodes = digits_val (d3 m).
Proof.
  unfold parse_metrics.
  destruct (last_match (splitlines (strip stdout))) as [g|] eqn:E; [|discriminate].
  apply last_match_split in E as (before & line & after & -> & E & Ha).
  apply re_search_shape in E as (pre & m & -> & Hm & Hl & ->).
  unfold group. cbn [nth Nat.sub].
  pose proof Hm as Hm'. unfold well_formed in Hm'. rewrite !andb_true_iff in Hm'.
  destruct Hm' as [[[[[[[[[[[[[[[A1 A2] A3] A4] A5] A6] A7] A8] A9] A10] A11] A12] A13] A14] A15] A16].
  apply nonempty_true in A4, A14.
  rewrite (py_int_digits _ A4 A5), (py_int_digits _ A14 A15).
  destruct (float_of_str (d2 m)) as [v|] eqn:Hv; [|discriminate].
  intros [= <- <- <-]. exists before, pre, m, after. repeat split; auto.
  eapply List.Forall_impl; [|exact Ha]. intros l Hn Hmt.
  apply matched_iff in Hmt. apply Hmt. exact Hn.
Qed.


(** Property X30.  The line that decides is the last one the pattern
    matches.  When that line has no marker before its marker and the
    shape of Property X5 after it, with runs of at most 4300 digits
    for the size and the nodes (the bound of [int]) and a solutions
    field that [float] accepts, extraction returns the values of
    those three fields, whatever the lines before it hold. *)
Theorem parse_metrics_last_match stdout before after pre m v :
  splitlines (strip stdout) = before ++ metrics_line pre m :: after ->
  Forall (fun l => ~ matched l) after ->
  occurs MARKER pre = false ->
  well_formed m = true ->
  (length (d1 m) <= 4300)%nat -> (length (d3 m) <= 4300)%nat ->
  float_of_str (d2 m) = Some v ->
  parse_metrics stdout = Ok (digits_val (d1 m), v, digits_val (d3 m)).
Proof.
  intros Hl Ha Hpre Hm _ _ Hv. unfold parse_metrics. rewrite Hl.
  assert (Ha' : Forall no_match after)
    by (eapply List.Forall_impl; [|exact Ha]; intros l; apply unmatched_no_match).
  rewrite (last_match_last before _ after _
             (re_search_leftmost pre m (leftmost_no_marker pre _ Hpre) Hm) Ha').
  unfold group. cbn [nth Nat.sub].
  unfold well_formed in Hm. rewrite !andb_true_iff in Hm.
  destruct Hm as [[[[[[[[[[[[[[[A1 A2] A3] A4] A5] A6] A7] A8] A9] A10] A11] A12] A13] A14] A15] A16].
  apply nonempty_true in A4, A14.
  rewrite (py_int_digits _ A4 A5), Hv, (py_int_digits _ A14 A15). reflexivity.
Qed.

End MetricsShape.

Lemma parse_metrics_from_line_witness :
  exists before pre m after,
    splitlines (strip (summary_line ++ [LF])) = before ++ metrics_line pre m :: after
    /\ Forall (fun l => ~ matched l) after
    /\ leftmost pre (MARKER ++ body m)
    /\ well_formed m = true
    /\ 4 = digits_val (d1 m)
    /\ @float_of_str whole_floats (d2 m) = Some 2
    /\ 10 = digits_val (d3 m).
Proof.
  apply (@parse_metrics_from_line whole_floats (summary_line ++ [LF]) 4 2 10).
  vm_compute. reflexivity.
Defined.


Lemma parse_metrics_last_match_witness :
  @parse_metrics whole_floats
    (summary_line ++ [LF] ++ lit "progress" ++ [LF]
     ++ lit "NQUEENS_METRICS n=5 solutions=10 nodes=50" ++ [LF] ++ lit "done" ++ [LF])
  = Ok (5, 10, 50).
Proof.
  apply (@parse_metrics_last_match whole_floats _ [summary_line; lit "progress"]
           [lit "done"] [] (plain_fields "5" "10" "50") 10).
  - vm_compute. reflexivity.
  - constructor; [|constructor]. intros Hm. apply matched_iff in Hm. apply Hm.
    vm_compute. reflexivity.
  - vm_compute. reflexivity.
  - vm_compute. reflexivity.
  - vm_compute. lia.
  - vm_compute. lia.
  - vm_compute. reflexivity.
Defined.

(** ** The result table: what a call leaves behind *)

Section TableOutcomes.
Context `{Host}.

(** The body of the [with] statement when every row can be written,
    with what it does in order. *)
Lemma table_body_trace p rows ls m w :
  map_result row_line rows = Ok ls ->
  fs w !! p = Some (File m []) ->
  exists w',
    finally (writeheader fieldnames p ;;; for_each rows (writerow fieldnames p))
            (file_close p) w = (Ok tt, w')
    /\ fs w' !! p = Some (File m (table_text ls))
    /\ (forall q, q <> p -> fs w' !! q = fs w !! q)
    /\ trace w' = trace w ++ EvWrite p header_line :: map (EvWrite p) ls ++ [EvClose p].
Proof.
  intros Hl E.
  destruct (writerow_ok p _ _ m [] w header_row_line E) as (w1 & E1 & F1 & O1 & T1).
  destruct (write_rows_ok p rows ls m _ w1 Hl F1) as (w2 & E2 & F2 & O2 & T2).
  unfold finally, bind, writeheader. rewrite E1, E2. cbn.
  eexists. split; [reflexivity|]. cbn. split; [exact F2|]. split.
  - intros q Hq. rewrite O2, O1; auto.
  - rewrite T2, T1, <- !app_assoc. reflexivity.
Qed.

(** Property X7.  When the directory of results can be made, the
    output path lies under the root and can be opened, and every row
    has only the columns of the table, [write_results] ends well and
    leaves at the output path the header line followed by the lines
    of the rows in order, whatever the file held before.  It writes
    the header and each line once, closes the file, prints the path
    relative to the root, and touches no other path after the
    opening. *)
Theorem write_results_saved rows rel ls w w1 w2 :
  mkdir false true RESULTS_DIR w = (Ok tt, w1) ->
  open_w (ROOT ++ rel) w1 = (Ok tt, w2) ->
  map_result row_line rows = Ok ls ->
  exists m w3,
    write_results rows (ROOT ++ rel) w = (Ok tt, w3)
    /\ fs w3 !! (ROOT ++ rel) = Some (File m (table_text ls))
    /\ (forall q, q <> ROOT ++ rel -> fs w3 !! q = fs w2 !! q)
    /\ trace w3
       = trace w2 ++ EvWrite (ROOT ++ rel) header_line
                     :: map (EvWrite (ROOT ++ rel)) ls
                     ++ [EvClose (ROOT ++ rel); EvPrint (DoneLine rel)].
Proof.
  intros Hm Ho Hl.
  destruct (open_w_ok _ _ _ Ho) as (m & F & _ & _).
  destruct (table_body_trace (ROOT ++ rel) rows ls m w2 Hl F) as (w3 & E3 & F3 & O3 & T3).
  exists m. unfold write_results.
  rewrite (bind_ok _ _ _ _ _ Hm), (bind_ok _ _ _ _ _ Ho), (bind_ok _ _ _ _ _ E3).
  unfold relative_to. rewrite strip_components_app.
  unfold bind, ret, emit. cbn.
  eexists. split; [reflexivity|]. cbn. split; [exact F3|]. split; [exact O3|].
  rewrite T3, <- !app_assoc. cbn. rewrite <- !app_assoc. reflexivity.
Qed.

(** Property X8.  When the output path does not lie under the root,
    [write_results] still writes the whole table and closes the file,
    and then fails with [ValueError] where it computes the path to
    print: the call ends in an error although the table is complete
    at the output path. *)
Theorem write_results_outside_root rows output_path ls w w1 w2 :
  mkdir false true RESULTS_DIR w = (Ok tt, w1) ->
  open_w output_path w1 = (Ok tt, w2) ->
  map_result row_line rows = Ok ls ->
  strip_components ROOT output_path = None ->
  exists m w3,
    write_results rows output_path w = (Raise (ValueError (path_str output_path)), w3)
    /\ fs w3 !! output_path = Some (File m (table_text ls))
    /\ trace w3
       = trace w2 ++ EvWrite output_path header_line
                     :: map (EvWrite output_path) ls ++ [EvClose output_path].
Proof.
  intros Hm Ho Hl Hs.
  destruct (open_w_ok _ _ _ Ho) as (m & F & _ & _).
  destruct (table_body_trace output_path rows ls m w2 Hl F) as (w3 & E3 & F3 & O3 & T3).
  exists m, w3. unfold write_results.
  rewrite (bind_ok _ _ _ _ _ Hm), (bind_ok _ _ _ _ _ Ho), (bind_ok _ _ _ _ _ E3).
  unfold relative_to. rewrite Hs. unfold bind, raise. auto.
Qed.

(** What the loop over the rows does, whether it ends well or not:
    it only writes lines to the file. *)
Lemma write_rows_trace p rows w :
  exists ls,
    trace (snd (for_each rows (writerow fieldnames p) w))
    = trace w ++ map (EvWrite p) ls.
Proof.
  revert w. induction rows as [|r rows IH]; intros w; cbn [for_each].
  - exists []. cbn. rewrite app_nil_r. reflexivity.
  - unfold bind. unfold writerow at 1. unfold bind.
    destruct (dict_to_list fieldnames r) as [vals|e]; cbn.
    + destruct (IH (World (alter (append_data (csv_record (map field_text vals))) p (fs w))
                      (trace w ++ [EvWrite p (csv_record (map field_text vals))])))
        as [ls E].
      exists (csv_record (map field_text vals) :: ls).
      unfold file_write, bind, emit, get_fs, put_fs. cbn.
      unfold file_write, bind, emit, get_fs, put_fs in E. cbn in E.
      rewrite E. cbn. rewrite <- app_assoc. reflexivity.
    + exists []. cbn. rewrite app_nil_r. reflexivity.
Qed.

(** Property X9.  Once the output file is open, [write_results]
    closes it on every path, also when a row cannot be written: what
    the call does after the opening is to write lines to the output
    path, then to close it, then at most to print the closing line.
    It opens, writes and closes no other file. *)
Theorem write_results_closes_file rows output_path w w1 w2 :
  mkdir false true RESULTS_DIR w = (Ok tt, w1) ->
  open_w output_path w1 = (Ok tt, w2) ->
  exists ls tail,
    trace (snd (write_results rows output_path w))
    = trace w2 ++ map (EvWrite output_path) ls ++ EvClose output_path :: tail
    /\ (tail = [] \/ exists rel, tail = [EvPrint (DoneLine rel)]).
Proof.
  intros Hm Ho. unfold write_results.
  rewrite (bind_ok _ _ _ _ _ Hm), (bind_ok _ _ _ _ _ Ho).
  assert (Hb : exists ls r w3,
             finally (writeheader fieldnames output_path ;;;
                      for_each rows (writerow fieldnames output_path))
                     (file_close output_path) w2 = (r, w3)
             /\ trace w3 = trace w2 ++ map (EvWrite output_path) ls ++ [EvClose output_path]).
  { unfold finally, file_close, emit.
    assert (Hw : exists ls,
               trace (snd ((writeheader fieldnames output_path ;;;
                            for_each rows (writerow fieldnames output_path)) w2))
               = trace w2 ++ map (EvWrite output_path) ls).
    { unfold bind. unfold writeheader, writerow at 1. unfold bind.
      destruct (dict_to_list fieldnames _) as [vals|e]; cbn.
      - match goal with
        | |- context [for_each rows _ ?w] =>
            destruct (write_rows_trace output_path rows w) as [ls E]
        end.
        exists (csv_record (map field_text vals) :: ls).
        destruct (for_each rows _ _) as [[[]|e] w3]; cbn in *;
          rewrite E, <- app_assoc; reflexivity.
      - exists []. cbn. rewrite app_nil_r. reflexivity. }
    destruct Hw as [ls Hw].
    destruct ((writeheader fieldnames output_path ;;;
               for_each rows (writerow fieldnames output_path)) w2) as [r w3].
    cbn in *. exists ls, r. eexists. split; [reflexivity|].
    cbn. rewrite Hw, <- app_assoc. reflexivity. }
  destruct Hb as (ls & r & w3 & E & T).
  exists ls. unfold bind at 1. rewrite E.
  destruct r as [[]|e]; cbn.
  - unfold relative_to. destruct (strip_components ROOT output_path) as [rel|]; cbn.
    + exists [EvPrint (DoneLine rel)]. split; [|right; eauto].
      rewrite T, <- !app_assoc. reflexivity.
    + exists []. split; [|left; reflexivity]. rewrite T. reflexivity.
  - exists []. split; [|left; reflexivity]. rewrite T. reflexivity.
Qed.

(** Making the directory of results changes no other path. *)
Lemma mkdir_results_frame w w1 :
  mkdir false true RESULTS_DIR w = (Ok tt, w1) ->
  forall q, q <> RESULTS_DIR -> fs w1 !! q = fs w !! q.
Proof.
  unfold mkdir. cbn. unfold catch, os_mkdir, bind, emit, get_fs, put_fs, raise. cbn.
  destruct (fs w !! RESULTS_DIR) as [n|] eqn:E; cbn.
  - destruct (negb (is_dir (fs w) RESULTS_DIR)); cbn; [discriminate|].
    intros [= <-] q Hq. reflexivity.
  - destruct (fs w !! removelast RESULTS_DIR) as [[m x|m]|]; cbn.
    + destruct (negb (is_dir (fs w) RESULTS_DIR)); cbn; [discriminate|].
      intros [= <-] q Hq. reflexivity.
    + intros [= <-] q Hq. cbn. rewrite lookup_insert_ne; auto.
    + discriminate.
Qed.

(** Property X10.  [write_results] makes the directory of results and
    no other: when the directory that is to hold the output file does
    not exist and is not the directory of results, the call fails
    with [FileNotFoundError] at the opening, and nothing is written:
    no file stands at the output path afterwards. *)
Theorem write_results_missing_directory rows output_path w :
  is_dir (fs w) ROOT = true ->
  (forall m d, fs w !! RESULTS_DIR <> Some (File m d)) ->
  output_path <> RESULTS_DIR ->
  removelast output_path <> RESULTS_DIR ->
  fs w !! output_path = None ->
  fs w !! removelast output_path = None ->
  fst (write_results rows output_path w) = Raise (OSError FileNotFoundError output_path)
  /\ fs (snd (write_results rows output_path w)) !! output_path = None
  /\ trace (snd (write_results rows output_path w))
     = trace w ++ [EvMkdir RESULTS_DIR; EvOpen output_path].
Proof.
  intros Hroot Hfile Hp Hd Hn Hn'.
  destruct (mkdir_results_dir w Hroot Hfile) as (w1 & Hm & _ & Ht).
  pose proof (mkdir_results_frame w w1 Hm) as Hf.
  unfold write_results. rewrite (bind_ok _ _ _ _ _ Hm).
  unfold bind at 1. unfold open_w, bind, emit, get_fs, put_fs, raise. cbn.
  rewrite (Hf _ Hp), Hn, (Hf _ Hd), Hn'. cbn.
  rewrite (Hf _ Hp), Hn, Ht, <- app_assoc. auto.
Qed.

End TableOutcomes.

Lemma write_results_saved_witness :
  exists m w3,
    @write_results whole_floats echo_host [first_row]
      (@ROOT whole_floats echo_host ++ words ["results"; "out.csv"]) bench_world
    = (Ok tt, w3)
    /\ fs w3 !! (@ROOT whole_floats echo_host ++ words ["results"; "out.csv"])
       = Some (File m (table_text [lit "BuDDy,C,4,7,1000,10,2" ++ [CR; LF]]))
    /\ (forall q, q <> @ROOT whole_floats echo_host ++ words ["results"; "out.csv"] ->
          fs w3 !! q
          = fs (snd (@open_w whole_floats echo_host bench_output
                       (snd (@mkdir whole_floats echo_host false true
                               (@RESULTS_DIR whole_floats echo_host) bench_world)))) !! q)
    /\ trace w3
       = trace (snd (@open_w whole_floats echo_host bench_output
                       (snd (@mkdir whole_floats echo_host false true
                               (@RESULTS_DIR whole_floats echo_host) bench_world))))
         ++ EvWrite (@ROOT whole_floats echo_host ++ words ["results"; "out.csv"]) header_line
            :: map (EvWrite (@ROOT whole_floats echo_host ++ words ["results"; "out.csv"]))
                 [lit "BuDDy,C,4,7,1000,10,2" ++ [CR; LF]]
            ++ [EvClose (@ROOT whole_floats echo_host ++ words ["results"; "out.csv"]);
                EvPrint (DoneLine (words ["results"; "out.csv"]))].
Proof.
  apply (@write_results_saved whole_floats echo_host [first_row]
           (words ["results"; "out.csv"]) [lit "BuDDy,C,4,7,1000,10,2" ++ [CR; LF]]
           bench_world
           (snd (@mkdir whole_floats echo_host false true
                   (@RESULTS_DIR whole_floats echo_host) bench_world))).
  - apply run_outcome. vm_compute. reflexivity.
  - apply run_outcome. vm_compute. reflexivity.
  - vm_compute. reflexivity.
Defined.

Lemma write_results_outside_root_witness :
  exists m w3,
    @write_results whole_floats echo_host [first_row] outside_output bench_world
    = (Raise (ValueError (path_str outside_output)), w3)
    /\ fs w3 !! outside_output
       = Some (File m (table_text [lit "BuDDy,C,4,7,1000,10,2" ++ [CR; LF]]))
    /\ trace w3
       = trace (snd (@open_w whole_floats echo_host outside_output
                       (snd (@mkdir whole_floats echo_host false true
                               (@RESULTS_DIR whole_floats echo_host) bench_world))))
         ++ EvWrite outside_output header_line
            :: map (EvWrite outside_output) [lit "BuDDy,C,4,7,1000,10,2" ++ [CR; LF]]
            ++ [EvClose outside_output].
Proof.
  apply (@write_results_outside_root whole_floats echo_host [first_row] outside_output
           [lit "BuDDy,C,4,7,1000,10,2" ++ [CR; LF]] bench_world
           (snd (@mkdir whole_floats echo_host false true
                   (@RESULTS_DIR whole_floats echo_host) bench_world))).
  - apply run_outcome. vm_compute. reflexivity.
  - apply run_outcome. vm_compute. reflexivity.
  - vm_compute. reflexivity.
  - vm_compute. reflexivity.
Defined.

Lemma write_results_closes_file_witness :
  exists ls tail,
    trace (snd (@write_results whole_floats echo_host [first_row; stray_row]
                  bench_output bench_world))
    = trace (snd (@open_w whole_floats echo_host bench_output
                    (snd (@mkdir whole_floats echo_host false true
                            (@RESULTS_DIR whole_floats echo_host) bench_world))))
      ++ map (EvWrite bench_output) ls ++ EvClose bench_output :: tail
    /\ (tail = [] \/ exists rel, tail = [EvPrint (DoneLine rel)]).
Proof.
  apply (@write_results_closes_file whole_floats echo_host [first_row; stray_row]
           bench_output bench_world
           (snd (@mkdir whole_floats echo_host false true
                   (@RESULTS_DIR whole_floats echo_host) bench_world))).
  - apply run_outcome. vm_compute. reflexivity.
  - apply run_outcome. vm_compute. reflexivity.
Defined.

Lemma write_results_missing_directory_witness :
  fst (@write_results whole_floats echo_host [first_row]
         (words ["bench"; "reports"; "out.csv"]) bench_world)
  = Raise (OSError FileNotFoundError (words ["bench"; "reports"; "out.csv"]))
  /\ fs (snd (@write_results whole_floats echo_host [first_row]
                (words ["bench"; "reports"; "out.csv"]) bench_world))
       !! words ["bench"; "reports"; "out.csv"] = None
  /\ trace (snd (@write_results whole_floats echo_host [first_row]
                   (words ["bench"; "reports"; "out.csv"]) bench_world))
     = trace bench_world
       ++ [EvMkdir (@RESULTS_DIR whole_floats echo_host);
           EvOpen (words ["bench"; "reports"; "out.csv"])].
Proof.
  apply (@write_results_missing_directory whole_floats echo_host).
  - vm_compute. reflexivity.
  - vm_compute. intros m d E. discriminate E.
  - vm_compute. discriminate.
  - vm_compute. discriminate.
  - vm_compute. reflexivity.
  - vm_compute. reflexivity.
Defined.

(** ** The preparers: when they build and when they do not *)



Section PreparerOutcomes.
Context `{Host}.

Lemma exists_false p w : fs w !! p = None -> exists_ p w = (Ok false, w).
Proof. intros E. unfold exists_, bind, get_fs, ret. cbn. rewrite E. reflexivity. Qed.

(** What [run] does at the root. *)
Lemma run_at_root cmd env w :
  run cmd ROOT env w
  = match shell cmd ROOT env (announced cmd w) with
    | (Ok rc, f') =>
        (if rc =? 0 then Ok tt else Raise (CalledProcessError rc cmd None None),
         World f' (trace (announced cmd w)))
    | (Raise e, f') => (Raise e, World f' (trace (announced cmd w)))
    end.
Proof.
  unfold run, bind, announced. rewrite bool_decide_eq_true_2 by reflexivity.
  cbn. rewrite <- app_assoc. cbn [app].
  destruct (shell _ _ _ _) as [[rc|e] f']; cbn; [|reflexivity].
  destruct (rc =? 0); reflexivity.
Qed.

(** Property X11.  When the Sylvan executable exists, [ensure_sylvan]
    returns at once: it starts no command, prints nothing and leaves
    the world as it found it. *)
Theorem ensure_sylvan_noop w :
  is_Some (fs w !! (ROOT </> "sylvan" </> "build" </> "examples" </> "nqueens_fast")) ->
  ensure_sylvan w = (Ok tt, w).
Proof.
  intros Hb. unfold ensure_sylvan, bind. rewrite (exists_true _ w Hb). reflexivity.
Qed.

(** Property X12.  When the CUDD library and the CUDD executable
    both exist, [ensure_cudd] starts no command, makes no directory
    and leaves the world as it found it. *)
Theorem ensure_cudd_noop w :
  is_Some (fs w !! (ROOT </> "cudd" </> "cudd" </> ".libs" </> "libcudd.a")) ->
  is_Some (fs w !! (ROOT </> "cudd" </> "bin" </> "nqueens_bdd")) ->
  ensure_cudd w = (Ok tt, w).
Proof.
  intros Hl He. unfold ensure_cudd, bind.
  rewrite (exists_true _ w Hl). cbn [negb when ret].
  rewrite (exists_true _ w He). reflexivity.
Qed.

(** Property X13.  When the compiled class of the JDD example exists,
    [ensure_jdd] returns at once: the wrapper script is not touched
    and no command is started. *)
Theorem ensure_jdd_noop w :
  is_Some (fs w !! (ROOT </> "jdd" </> "build" </> "classes" </> "java" </> "main"
                      </> "jdd" </> "examples" </> "BDDQueens.class")) ->
  ensure_jdd w = (Ok tt, w).
Proof.
  intros Hb. unfold ensure_jdd, bind. rewrite (exists_true _ w Hb). reflexivity.
Qed.

(** Property X14.  When the native library and the jar of JSylvan
    both exist, [ensure_jsylvan] starts no command and leaves the
    world as it found it, whether [pkg-config] is found or not. *)
Theorem ensure_jsylvan_noop w :
  is_Some (fs w !! (ROOT </> "jsylvan" </> "src" </> "main" </> "resources"
                      </> "linux-x64" </> "libsylvan-java.so")) ->
  is_Some (fs w !! (ROOT </> "jsylvan" </> "target" </> "sylvan-1.0.0-SNAPSHOT.jar")) ->
  ensure_jsylvan w = (Ok tt, w).
Proof.
  intros Hl Hj. unfold ensure_jsylvan, bind, get_fs. cbv zeta.
  rewrite (exists_true _ w Hl). cbn [negb when ret].
  rewrite (exists_true _ w Hj). reflexivity.
Qed.

(** Property X15.  When the Sylvan executable is missing and the
    configuring [cmake] ends with a status other than zero,
    [ensure_sylvan] fails with [CalledProcessError] carrying that
    status and that command, and the building [cmake] is not
    started: the only things done are to print and to start the
    first command. *)
Theorem ensure_sylvan_configure_failed w rc f' :
  fs w !! (ROOT </> "sylvan" </> "build" </> "examples" </> "nqueens_fast") = None ->
  shell sylvan_configure ROOT None (announced sylvan_configure w) = (Ok rc, f') ->
  rc <> 0 ->
  ensure_sylvan w
  = (Raise (CalledProcessError rc sylvan_configure None None),
     World f' (trace w ++ [EvPrint (BuildLine None sylvan_configure);
                           EvRun sylvan_configure ROOT])).
Proof.
  intros Hb Hs Hrc. apply Z.eqb_neq in Hrc.
  unfold ensure_sylvan. cbv zeta.
  rewrite (bind_ok _ _ _ _ _ (exists_false _ w Hb)).
  unfold bind at 1. fold sylvan_configure. rewrite run_at_root, Hs, Hrc. reflexivity.
Qed.

(** Property X16.  When the Sylvan executable is missing and the
    configuring [cmake] ends with status zero, [ensure_sylvan] goes on
    to the building [cmake], with one job per processor, in the world
    the first command left; the outcome of the preparer is the
    outcome of that second command. *)
Theorem ensure_sylvan_builds w f' :
  fs w !! (ROOT </> "sylvan" </> "build" </> "examples" </> "nqueens_fast") = None ->
  shell sylvan_configure ROOT None (announced sylvan_configure w) = (Ok 0, f') ->
  ensure_sylvan w
  = run sylvan_build ROOT None (World f' (trace (announced sylvan_configure w))).
Proof.
  intros Hb Hs.
  unfold ensure_sylvan. cbv zeta.
  rewrite (bind_ok _ _ _ _ _ (exists_false _ w Hb)).
  unfold bind at 1. fold sylvan_configure. rewrite run_at_root, Hs. reflexivity.
Qed.

(** Property X17.  When the CUDD library exists and the executable
    does not, [ensure_cudd] neither configures nor makes the library:
    it makes the directory [cudd/bin] and starts the compiler at the
    root, and the outcome of the preparer is the outcome of the
    compiler. *)
Theorem ensure_cudd_compiles_only w :
  is_Some (fs w !! (ROOT </> "cudd" </> "cudd" </> ".libs" </> "libcudd.a")) ->
  fs w !! (ROOT </> "cudd" </> "bin" </> "nqueens_bdd") = None ->
  is_dir (fs w) (ROOT </> "cudd") = true ->
  fs w !! (ROOT </> "cudd" </> "bin") = None ->
  ensure_cudd w
  = run cudd_compile ROOT None
      (World (<[ROOT </> "cudd" </> "bin" := Dir (Z.land 511 (Z.lnot umask))]> (fs w))
         (trace w ++ [EvMkdir (ROOT </> "cudd" </> "bin")])).
Proof.
  intros Hl He Hd Hb. unfold ensure_cudd. cbv zeta.
  rewrite (bind_ok _ _ _ _ _ (exists_true _ w Hl)). cbn [negb when].
  unfold bind at 1. cbn [ret].
  rewrite (bind_ok _ _ _ _ _ (exists_false _ w He)). cbn [negb when].
  fold cudd_compile. unfold bind at 1.
  unfold mkdir. cbn [path_mkdir]. unfold catch, os_mkdir, bind, emit, get_fs, put_fs. cbn.
  rewrite Hb, removelast_sub. unfold is_dir in Hd.
  destruct (fs w !! (ROOT </> "cudd")) as [[m d|m]|]; try discriminate. reflexivity.
Qed.


End PreparerOutcomes.

Lemma ensure_sylvan_noop_witness :
  @ensure_sylvan whole_floats echo_host ready_world = (Ok tt, ready_world).
Proof.
  apply (@ensure_sylvan_noop whole_floats echo_host ready_world).
  eexists. vm_compute. reflexivity.
Defined.

Lemma ensure_cudd_noop_witness :
  @ensure_cudd whole_floats echo_host ready_world = (Ok tt, ready_world).
Proof.
  apply (@ensure_cudd_noop whole_floats echo_host ready_world);
    eexists; vm_compute; reflexivity.
Defined.

Lemma ensure_jdd_noop_witness :
  @ensure_jdd whole_floats echo_host ready_world = (Ok tt, ready_world).
Proof.
  apply (@ensure_jdd_noop whole_floats echo_host ready_world).
  eexists. vm_compute. reflexivity.
Defined.

Lemma ensure_jsylvan_noop_witness :
  @ensure_jsylvan whole_floats echo_host ready_world = (Ok tt, ready_world).
Proof.
  apply (@ensure_jsylvan_noop whole_floats echo_host ready_world);
    eexists; vm_compute; reflexivity.
Defined.

Lemma ensure_sylvan_configure_failed_witness :
  @ensure_sylvan whole_floats failing_build_host bench_world
  = (Raise (CalledProcessError 2 sylvan_configure None None),
     World (fs bench_world)
       (trace bench_world ++ [EvPrint (BuildLine None sylvan_configure);
                              EvRun sylvan_configure (@ROOT whole_floats failing_build_host)])).
Proof.
  apply (@ensure_sylvan_configure_failed whole_floats failing_build_host bench_world 2
           (fs bench_world)).
  - vm_compute. reflexivity.
  - reflexivity.
  - discriminate.
Defined.

Lemma ensure_sylvan_builds_witness :
  @ensure_sylvan whole_floats echo_host bench_world
  = @run whole_floats echo_host (@sylvan_build whole_floats echo_host)
      (@ROOT whole_floats echo_host) None
      (World (fs bench_world)
         (trace (@announced whole_floats echo_host sylvan_configure bench_world))).
Proof.
  apply (@ensure_sylvan_builds whole_floats echo_host bench_world (fs bench_world)).
  - vm_compute. reflexivity.
  - reflexivity.
Defined.

Lemma ensure_cudd_compiles_only_witness :
  @ensure_cudd whole_floats echo_host cudd_library_world
  = @run whole_floats echo_host cudd_compile (@ROOT whole_floats echo_host) None
      (World (<[@ROOT whole_floats echo_host </> "cudd" </> "bin"
                := Dir (Z.land 511 (Z.lnot (@umask whole_floats echo_host)))]>
                (fs cudd_library_world))
         (trace cudd_library_world
          ++ [EvMkdir (@ROOT whole_floats echo_host </> "cudd" </> "bin")])).
Proof.
  apply (@ensure_cudd_compiles_only whole_floats echo_host cudd_library_world).
  - eexists. vm_compute. reflexivity.
  - vm_compute. reflexivity.
  - vm_compute. reflexivity.
  - vm_compute. reflexivity.
Defined.

(** ** The preparer of BuDDy when the executable is missing *)

Section BuddyTwice.
Context `{Host}.

Lemma fix_permission_chmod p w :
  exists evs f,
    fix_permission p w = (Ok tt, World f (trace w ++ evs))
    /\ (forall q, q <> p -> f !! q = fs w !! q)
    /\ (evs = [] \/ exists m, evs = [EvChmod p m]).
Proof.
  unfold fix_permission, bind, get_fs, when. cbn.
  destruct (fs w !! p) as [n|] eqn:E; cbn.
  - destruct (access_x (fs w) p); cbn.
    + exists [], (fs w). rewrite app_nil_r. destruct w; auto.
    + unfold chmod_exec, bind, get_fs. cbn. rewrite E. cbn.
      eexists _, _. split; [reflexivity|]. split; [|right; eauto].
      intros q Hq. rewrite lookup_insert_ne; auto.
  - exists [], (fs w). rewrite app_nil_r. destruct w; auto.
Qed.

Lemma run_in_sub_ok cmd s env w :
  (forall w', fst (shell cmd (ROOT </> s) env w') = Ok 0) ->
  exists f,
    run cmd (ROOT </> s) env w
    = (Ok tt, World f (trace w ++ [EvPrint (BuildLine (Some [lit s]) cmd);
                                   EvRun cmd (ROOT </> s)])).
Proof.
  intros Hs. unfold run, bind. rewrite bool_decide_eq_false_2 by apply sub_ne_root.
  rewrite relative_to_sub. cbn.
  match goal with |- context [shell cmd ?d env ?w'] =>
    specialize (Hs w'); destruct (shell cmd d env w') as [r f'] end.
  cbn in Hs. subst r. cbn. rewrite <- app_assoc. eauto.
Qed.

(** Property X29.  On a tree where BuDDy is configured and its
    library built and only the executable is missing, with a [make]
    that ends well, [ensure_buddy] starts [make -C examples/queen
    queen] twice in a row: once because the executable is missing
    and once more without looking.  Before them it does nothing but,
    at most, make the configure script executable. *)
Theorem ensure_buddy_makes_twice w :
  is_Some (fs w !! (ROOT </> "BuDDy" </> "config.status")) ->
  is_Some (fs w !! (ROOT </> "BuDDy" </> "src" </> "libbdd.la")) ->
  fs w !! (ROOT </> "BuDDy" </> "examples" </> "queen" </> "queen") = None ->
  (forall w', fst (shell make_queen (ROOT </> "BuDDy") None w') = Ok 0) ->
  exists evs,
    fst (ensure_buddy w) = Ok tt
    /\ trace (snd (ensure_buddy w))
       = trace w ++ evs
         ++ [EvPrint (BuildLine (Some [lit "BuDDy"]) make_queen);
             EvRun make_queen (ROOT </> "BuDDy");
             EvPrint (BuildLine (Some [lit "BuDDy"]) make_queen);
             EvRun make_queen (ROOT </> "BuDDy")]
    /\ (evs = [] \/ exists m, evs = [EvChmod (ROOT </> "BuDDy" </> "configure") m]).
Proof.
  intros Hc Hl He Hs.
  destruct (fix_permission_chmod (ROOT </> "BuDDy" </> "configure") w)
    as (evs & f & Hfix & Hsame & Hevs).
  exists evs.
  assert (Hne : forall (a b : list (list ascii)), a <> b -> ROOT ++ a <> ROOT ++ b)
    by (intros a b Hab E; apply Hab; eapply app_inv_head; exact E).
  assert (Hc' : is_Some (f !! (ROOT </> "BuDDy" </> "config.status"))).
  { rewrite Hsame; [exact Hc|]. unfold sub. rewrite <- !app_assoc. apply Hne. discriminate. }
  assert (Hl' : is_Some (f !! (ROOT </> "BuDDy" </> "src" </> "libbdd.la"))).
  { rewrite Hsame; [exact Hl|]. unfold sub. rewrite <- !app_assoc. apply Hne. discriminate. }
  assert (He' : f !! (ROOT </> "BuDDy" </> "examples" </> "queen" </> "queen") = None).
  { rewrite Hsame; [exact He|]. unfold sub. rewrite <- !app_assoc. apply Hne. discriminate. }
  set (w0 := World f (trace w ++ evs)) in *.
  destruct (run_in_sub_ok make_queen "BuDDy" None w0 Hs) as (f1 & Hr1).
  destruct (run_in_sub_ok make_queen "BuDDy" None
              (World f1 (trace w0 ++ [EvPrint (BuildLine (Some [lit "BuDDy"]) make_queen);
                                      EvRun make_queen (ROOT </> "BuDDy")])) Hs)
    as (f2 & Hr2).
  assert (E : ensure_buddy w
              = (Ok tt,
                 World f2
                   ((trace w0 ++ [EvPrint (BuildLine (Some [lit "BuDDy"]) make_queen);
                                  EvRun make_queen (ROOT </> "BuDDy")])
                    ++ [EvPrint (BuildLine (Some [lit "BuDDy"]) make_queen);
                        EvRun make_queen (ROOT </> "BuDDy")]))).
  { unfold ensure_buddy. rewrite (bind_ok _ _ _ _ _ Hfix).
    rewrite (bind_ok _ _ _ _ _ (exists_true _ w0 Hc')). cbn [negb when].
    rewrite (bind_ok _ _ _ _ _ (eq_refl : ret tt w0 = (Ok tt, w0))).
    rewrite (bind_ok _ _ _ _ _ (exists_true _ w0 Hl')). cbn [negb when].
    rewrite (bind_ok _ _ _ _ _ (eq_refl : ret tt w0 = (Ok tt, w0))).
    rewrite (bind_ok _ _ _ _ _ (exists_false _ w0 He')). cbn [negb when].
    fold make_queen. rewrite (bind_ok _ _ _ _ _ Hr1). exact Hr2. }
  rewrite E. cbn. split; [reflexivity|]. split; [|exact Hevs].
  rewrite <- !app_assoc. reflexivity.
Qed.

End BuddyTwice.

Lemma ensure_buddy_makes_twice_witness :
  exists evs,
    fst (@ensure_buddy whole_floats echo_host buddy_library_world) = Ok tt
    /\ trace (snd (@ensure_buddy whole_floats echo_host buddy_library_world))
       = trace buddy_library_world ++ evs
         ++ [EvPrint (BuildLine (Some [lit "BuDDy"]) make_queen);
             EvRun make_queen (@ROOT whole_floats echo_host </> "BuDDy");
             EvPrint (BuildLine (Some [lit "BuDDy"]) make_queen);
             EvRun make_queen (@ROOT whole_floats echo_host </> "BuDDy")]
    /\ (evs = []
        \/ exists m, evs = [EvChmod (@ROOT whole_floats echo_host </> "BuDDy" </> "configure") m]).
Proof.
  apply (@ensure_buddy_makes_twice whole_floats echo_host buddy_library_world).
  - eexists. vm_compute. reflexivity.
  - eexists. vm_compute. reflexivity.
  - vm_compute. reflexivity.
  - intros w'. reflexivity.
Defined.

(** ** A sweep that fails *)

Section SweepFailure.
Context `{Host}.

(** Property X19.  A sweep stops at the first failure and skips
    nothing before it.  A sweep that ends with an error has failed in
    one of three places.  In a preparer: the preparers before it have
    all been run, in order, the error and the world of the sweep are
    those that preparer left, and the calls made are the preparer
    calls up to and including it.  In a trial: every preparer and the
    trials before it have all been run, in order, the error and the
    world of the sweep are those the trial left, and the calls made
    are every preparer call and the measured commands up to and
    including that trial.  Or in writing the table, after every
    preparer and every trial has been run. *)
Theorem sweep_stops_at_first_failure impls args w e w' :
  Forall quiet_preparer impls ->
  sweep impls args w = (Raise e, w') ->
  (exists done impl rest wk,
     impls = done ++ impl :: rest
     /\ prepare_each done w = Some wk
     /\ ensure_ready impl wk = (Raise e, w')
     /\ calls (trace w') = calls (trace w) ++ flat_map prepared (done ++ [impl]))
  \/ (exists wp done size impl rest rows wk,
        prepare_each impls w = Some wp
        /\ trial_pairs (sizes args) impls = done ++ (size, impl) :: rest
        /\ run_trials (workers args) done [] wp = Some (rows, wk)
        /\ run_implementation impl size (workers args) wk = (Raise e, w')
        /\ calls (trace w')
           = calls (trace w) ++ flat_map prepared impls
             ++ map (measured_pair (workers args)) (done ++ [(size, impl)]))
  \/ (exists wp rows wt,
        prepare_each impls w = Some wp
        /\ run_trials (workers args) (trial_pairs (sizes args) impls) [] wp
           = Some (rows, wt)
        /\ write_results rows (output args) wt = (Raise e, w')).
Proof.
  intros Hq. unfold sweep. unfold bind at 1.
  destruct (for_each impls ensure_ready w) as [r1 w1] eqn:Hp.
  apply for_each_prepare in Hp as [[-> Hp]|(e1 & done & impl & rest & wk & -> & -> & Hd & Hx)].
  - unfold bind at 1.
    change (for_fold (sizes args) []
              (fun size rows => for_fold impls rows
                 (fun impl rows0 => r <~ run_implementation impl size (workers args);;
                                    ret (rows0 ++ [r]))))
      with (for_fold (sizes args) []
              (fun size rows => one_size (workers args) size impls rows)).
    destruct (for_fold (sizes args) [] _ w1) as [r2 w2] eqn:Ha.
    apply all_sizes_pairs in Ha
      as [(rows & -> & Ha)|(e2 & done & size & impl & rest & rows1 & wk & -> & Hs & Hd & Hx)].
    + intros E. right. right. exists w1, rows, w2. auto.
    + intros [= <- <-]. right. left.
      exists w1, done, size, impl, rest, rows1, wk. repeat split; auto.
      destruct (run_trials_calls _ _ _ _ _ _ Hd) as [Hc _].
      pose proof (run_implementation_calls impl size (workers args) wk) as Hc'.
      rewrite Hx in Hc'. cbn [snd] in Hc'.
      rewrite Hc', Hc, (prepare_each_calls _ _ _ Hq Hp), map_app, <- !app_assoc.
      reflexivity.
  - intros [= <- <-]. left. exists done, impl, rest, wk. repeat split; auto.
    apply Forall_app in Hq as [Hq1 Hq2]. inversion Hq2 as [|? ? Hi _]; subst.
    pose proof (ensure_ready_calls impl wk Hi) as Hc. rewrite Hx in Hc. cbn [snd] in Hc.
    rewrite Hc, (prepare_each_calls _ _ _ Hq1 Hd), flat_map_app, <- app_assoc.
    cbn [flat_map]. rewrite app_nil_r. reflexivity.
Qed.

End SweepFailure.

Lemma sweep_stops_at_first_failure_witness :
  (exists done impl rest wk,
     (@implementations whole_floats failing_build_host) = done ++ impl :: rest
     /\ @prepare_each whole_floats done bench_world = Some wk
     /\ @ensure_ready whole_floats impl wk
        = (Raise (CalledProcessError 2 (words ["./configure"]) None None),
           (snd (@sweep whole_floats failing_build_host
                 (@implementations whole_floats failing_build_host)
                 bench_args bench_world)))
     /\ @calls whole_floats
          (trace (snd (@sweep whole_floats failing_build_host
                 (@implementations whole_floats failing_build_host)
                 bench_args bench_world)))
        = @calls whole_floats (trace bench_world)
          ++ flat_map (@prepared whole_floats) (done ++ [impl]))
  \/ (exists wp done size impl rest rows wk,
        @prepare_each whole_floats (@implementations whole_floats failing_build_host) bench_world
        = Some wp
        /\ @trial_pairs whole_floats (sizes bench_args) (@implementations whole_floats failing_build_host)
           = done ++ (size, impl) :: rest
        /\ @run_trials whole_floats failing_build_host (workers bench_args) done [] wp
           = Some (rows, wk)
        /\ @run_implementation whole_floats failing_build_host impl size
             (workers bench_args) wk
           = (Raise (CalledProcessError 2 (words ["./configure"]) None None),
              (snd (@sweep whole_floats failing_build_host
                 (@implementations whole_floats failing_build_host)
                 bench_args bench_world)))
        /\ @calls whole_floats
             (trace (snd (@sweep whole_floats failing_build_host
                 (@implementations whole_floats failing_build_host)
                 bench_args bench_world)))
           = @calls whole_floats (trace bench_world)
             ++ flat_map (@prepared whole_floats) (@implementations whole_floats failing_build_host)
             ++ map (@measured_pair whole_floats failing_build_host (workers bench_args))
                  (done ++ [(size, impl)]))
  \/ (exists wp rows wt,
        @prepare_each whole_floats (@implementations whole_floats failing_build_host) bench_world
        = Some wp
        /\ @run_trials whole_floats failing_build_host (workers bench_args)
             (@trial_pairs whole_floats (sizes bench_args) (@implementations whole_floats failing_build_host))
             [] wp
           = Some (rows, wt)
        /\ @write_results whole_floats failing_build_host rows (output bench_args) wt
           = (Raise (CalledProcessError 2 (words ["./configure"]) None None),
              (snd (@sweep whole_floats failing_build_host
                 (@implementations whole_floats failing_build_host)
                 bench_args bench_world)))).
Proof.
  apply (@sweep_stops_at_first_failure whole_floats failing_build_host
           (@implementations whole_floats failing_build_host) bench_args bench_world
           (CalledProcessError 2 (words ["./configure"]) None None) _
           (@implementations_quiet whole_floats failing_build_host)).
  apply run_outcome. vm_compute. reflexivity.
Defined.

(** ** The table and the failures before it *)

Section Untouched.
Context `{Host}.

Lemma untouched_refl w : untouched w w.
Proof. reflexivity. Qed.

Lemma untouched_trans a b c : untouched a b -> untouched b c -> untouched a c.
Proof. unfold untouched. congruence. Qed.

Lemma untouched_emit e : is_file_event e = false -> respects untouched (emit e).
Proof.
  intros He w. unfold untouched, emit. cbn.
  rewrite List.filter_app. cbn. rewrite He. apply app_nil_r.
Qed.

Lemma untouched_get_fs : respects untouched get_fs.
Proof. intros w. reflexivity. Qed.

Lemma untouched_get_world : respects untouched get_world.
Proof. intros w. reflexivity. Qed.

Lemma untouched_put_fs f : respects untouched (put_fs f).
Proof. intros w. reflexivity. Qed.

Ltac untouched_step :=
  lazymatch goal with
  | |- respects _ get_fs => apply untouched_get_fs
  | |- respects _ get_world => apply untouched_get_world
  | |- respects _ (put_fs _) => apply untouched_put_fs
  | |- respects _ (emit _) => apply untouched_emit; reflexivity
  | |- _ => respects_step untouched_refl untouched_trans
  end.

Lemma untouched_relative_to p root : respects untouched (relative_to p root).
Proof. unfold relative_to. repeat untouched_step. Qed.

Lemma untouched_exists p : respects untouched (exists_ p).
Proof. unfold exists_. repeat untouched_step. Qed.

Lemma untouched_fix_permission p : respects untouched (fix_permission p).
Proof. unfold fix_permission, chmod_exec. repeat untouched_step. Qed.

Lemma untouched_run cmd cwd env : respects untouched (run cmd cwd env).
Proof.
  unfold run.
  repeat lazymatch goal with
         | |- respects _ (relative_to _ _) => apply untouched_relative_to
         | |- _ => untouched_step
         end.
Qed.

Lemma untouched_os_mkdir p : respects untouched (os_mkdir p).
Proof. unfold os_mkdir. repeat untouched_step. Qed.

Lemma untouched_path_mkdir fuel parents exist_ok p :
  respects untouched (path_mkdir fuel parents exist_ok p).
Proof.
  revert parents exist_ok p.
  induction fuel as [|n IH]; intros parents exist_ok p; cbn [path_mkdir];
    repeat lazymatch goal with
           | |- respects _ (os_mkdir _) => apply untouched_os_mkdir
           | |- respects _ (path_mkdir _ _ _ _) => apply IH
           | |- _ => untouched_step
           end.
Qed.

Ltac untouched_ops :=
  repeat lazymatch goal with
         | |- respects _ (relative_to _ _) => apply untouched_relative_to
         | |- respects _ (exists_ _) => apply untouched_exists
         | |- respects _ (fix_permission _) => apply untouched_fix_permission
         | |- respects _ (run _ _ _) => apply untouched_run
         | |- respects _ (mkdir _ _ _) => apply untouched_path_mkdir
         | |- _ => untouched_step
         end.

Lemma implementations_silent : Forall silent_preparer implementations.
Proof.
  unfold implementations, silent_preparer.
  repeat constructor; cbn; intros p [= <-].
  - unfold ensure_buddy. cbv zeta. untouched_ops.
  - unfold ensure_sylvan. cbv zeta. untouched_ops.
  - unfold ensure_cudd. cbv zeta. untouched_ops.
  - unfold ensure_jdd. cbv zeta. untouched_ops.
  - unfold ensure_jsylvan. cbv zeta. untouched_ops.
Qed.

Lemma untouched_ensure_ready impl :
  silent_preparer impl -> respects untouched (ensure_ready impl).
Proof.
  intros Hs. unfold ensure_ready. destruct (preparer impl) as [p|] eqn:E.
  - specialize (Hs p E). untouched_ops.
  - untouched_ops.
Qed.

Lemma untouched_run_implementation impl size workers :
  respects untouched (run_implementation impl size workers).
Proof.
  unfold run_implementation, execute_with_metrics. cbv zeta.
  repeat lazymatch goal with
         | |- respects _ (if ?b then _ else _) => destruct b
         | |- _ => untouched_step
         end.
Qed.

(** The part of a sweep before the table is written. *)
Lemma untouched_before_table impls args :
  Forall silent_preparer impls ->
  respects untouched
    (for_each impls ensure_ready ;;;
     for_fold (sizes args) []
       (fun size rows => one_size (workers args) size impls rows)).
Proof.
  intros Hs. apply (respects_bind _ untouched_trans).
  - induction Hs as [|impl impls Hi _ IH]; cbn [for_each].
    + untouched_step.
    + apply (respects_bind _ untouched_trans);
        [apply untouched_ensure_ready; exact Hi | intros _; exact IH].
  - intros _. apply (respects_for_fold _ untouched_refl untouched_trans).
    intros size rows. unfold one_size.
    apply (respects_for_fold _ untouched_refl untouched_trans).
    intros impl rows'. apply (respects_bind _ untouched_trans).
    + apply untouched_run_implementation.
    + intros r. untouched_step.
Qed.

(** Property X20.  A failure of [main] is either a failure of
    [write_results] itself, or it comes before the table is touched:
    when a preparer or a trial fails, the harness has opened, written
    and closed no file, so that no table, whole or partial, comes
    from a sweep that failed before its end. *)
Theorem main_failure_before_table args w e w' :
  main args w = (Raise e, w') ->
  untouched w w'
  \/ exists rows w1, write_results rows (output args) w1 = (Raise e, w').
Proof.
  unfold main, sweep. intros E.
  pose proof (untouched_before_table implementations args implementations_silent w) as Hu.
  unfold bind at 1 in E. unfold bind at 1 in Hu.
  destruct (for_each implementations ensure_ready w) as [[[]|e1] w1] eqn:Hp.
  - unfold bind at 1 in E.
    change (for_fold (sizes args) []
              (fun size rows => for_fold implementations rows
                 (fun impl rows0 => r <~ run_implementation impl size (workers args);;
                                    ret (rows0 ++ [r]))))
      with (for_fold (sizes args) []
              (fun size rows => one_size (workers args) size implementations rows)) in E.
    destruct (for_fold (sizes args) [] _ w1) as [[rows|e2] w2] eqn:Ha.
    + right. exists rows, w2. exact E.
    + left. injection E as <- <-. exact Hu.
  - left. injection E as <- <-. exact Hu.
Qed.

End Untouched.

(** ** How the script ends *)

Section Endings.
Context `{Host}.
Variable Q : exn -> Prop.

Lemma only_ret {A} (a : A) : raises_only Q (ret a).
Proof. intros w e. discriminate. Qed.

Lemma only_raise {A} e : Q e -> raises_only Q (raise e : M A).
Proof. intros He w e'. cbn. intros [= <-]. exact He. Qed.

Lemma only_bind {A B} (c : M A) (k : A -> M B) :
  raises_only Q c -> (forall a, raises_only Q (k a)) -> raises_only Q (bind c k).
Proof.
  intros Hc Hk w e. unfold bind. specialize (Hc w).
  destruct (c w) as [[a|e1] w1]; cbn in *.
  - apply Hk.
  - intros [= <-]. apply Hc. reflexivity.
Qed.

Lemma only_catch {A} (c : M A) (h : exn -> M A) :
  raises_only Q c -> (forall e, Q e -> raises_only Q (h e)) -> raises_only Q (catch c h).
Proof.
  intros Hc Hh w e. unfold catch. specialize (Hc w).
  destruct (c w) as [[a|e1] w1]; cbn in *.
  - discriminate.
  - apply Hh. apply Hc. reflexivity.
Qed.

Lemma only_finally {A} (c : M A) (h : M unit) :
  raises_only Q c -> raises_only Q h -> raises_only Q (finally c h).
Proof.
  intros Hc Hh w e. unfold finally. specialize (Hc w).
  destruct (c w) as [r w1]. specialize (Hh w1).
  destruct (h w1) as [[[]|e2] w2]; cbn in *.
  - exact (Hc e).
  - intros [= <-]. apply Hh. reflexivity.
Qed.

Lemma only_when b (c : M unit) : raises_only Q c -> raises_only Q (when b c).
Proof. intros Hc. destruct b; cbn; [exact Hc | apply only_ret]. Qed.

Lemma only_for_each {A} (xs : list A) (body : A -> M unit) :
  (forall x, raises_only Q (body x)) -> raises_only Q (for_each xs body).
Proof.
  intros Hb. induction xs as [|x xs IH]; cbn.
  - apply only_ret.
  - apply only_bind; auto.
Qed.

Lemma only_for_fold {A B} (xs : list A) (acc : B) (body : A -> B -> M B) :
  (forall x b, raises_only Q (body x b)) -> raises_only Q (for_fold xs acc body).
Proof.
  intros Hb. revert acc. induction xs as [|x xs IH]; intros acc; cbn.
  - apply only_ret.
  - apply only_bind; auto.
Qed.

Lemma only_emit e : raises_only Q (emit e).
Proof. intros w e'. discriminate. Qed.

Lemma only_get_fs : raises_only Q get_fs.
Proof. intros w e'. discriminate. Qed.

Lemma only_get_world : raises_only Q get_world.
Proof. intros w e'. discriminate. Qed.

Lemma only_put_fs f : raises_only Q (put_fs f).
Proof. intros w e'. discriminate. Qed.

End Endings.

Ltac only_step :=
  lazymatch goal with
  | _ : raises_only _ ?c |- raises_only _ ?c => assumption
  | |- raises_only _ (ret _) => apply only_ret
  | |- raises_only _ (emit _) => apply only_emit
  | |- raises_only _ get_fs => apply only_get_fs
  | |- raises_only _ get_world => apply only_get_world
  | |- raises_only _ (put_fs _) => apply only_put_fs
  | |- raises_only _ (bind _ _) => apply only_bind; [|intros ?]
  | |- raises_only _ (finally _ _) => apply only_finally
  | |- raises_only _ (when _ _) => apply only_when
  | |- raises_only _ (for_each _ _) => apply only_for_each; intros ?
  | |- raises_only _ (for_fold _ _ _) => apply only_for_fold; intros ? ?
  | |- raises_only _ (raise (RuntimeError _)) => apply only_raise; exact I
  | |- raises_only _ (raise (ValueError _)) => apply only_raise; exact I
  | |- raises_only _ (raise (OSError _ _)) => apply only_raise; exact I
  | |- raises_only _ (match ?x with _ => _ end) => destruct x eqn:?
  end.

Section ExitStatus.
Context `{Host}.
Hypothesis start_errors : start_errors_are_os_errors.

Lemma nonzero_relative_to p root : raises_only nonzero_status (relative_to p root).
Proof. unfold relative_to. repeat only_step. Qed.

Lemma nonzero_exists p : raises_only nonzero_status (exists_ p).
Proof. unfold exists_. repeat only_step. Qed.

Lemma nonzero_fix_permission p : raises_only nonzero_status (fix_permission p).
Proof. unfold fix_permission, chmod_exec. repeat only_step. Qed.

Lemma nonzero_run cmd cwd env : raises_only nonzero_status (run cmd cwd env).
Proof.
  unfold run. apply only_bind.
  - destruct (bool_decide (cwd = ROOT)); [apply only_ret|].
    apply only_bind; [apply nonzero_relative_to | intros ?; apply only_ret].
  - intros shown. do 3 (apply only_bind; [only_step | intros ?]).
    match goal with |- context [shell ?c ?d ?v ?w] =>
      pose proof (start_errors c d v w) as Hs;
      destruct (shell c d v w) as [[rc|e] f'] end.
    + apply only_bind; [only_step | intros _].
      destruct (rc =? 0) eqn:Hrc; [apply only_ret|].
      apply only_raise. cbn. apply Z.eqb_neq. exact Hrc.
    + apply only_bind; [only_step | intros _].
      apply only_raise. destruct (Hs e eq_refl) as (k & q & ->). exact I.
Qed.

Lemma nonzero_os_mkdir p : raises_only nonzero_status (os_mkdir p).
Proof. unfold os_mkdir. repeat only_step. Qed.

Lemma nonzero_path_mkdir fuel parents exist_ok p :
  raises_only nonzero_status (path_mkdir fuel parents exist_ok p).
Proof.
  revert parents exist_ok p.
  induction fuel as [|n IH]; intros parents exist_ok p; cbn [path_mkdir];
    (apply only_catch; [apply nonzero_os_mkdir|]); intros e He;
    repeat lazymatch goal with
           | |- raises_only _ (raise e) => apply only_raise; exact He
           | |- raises_only _ (raise ?x) => apply only_raise; subst; exact He
           | |- raises_only _ (path_mkdir _ _ _ _) => apply IH
           | |- _ => only_step
           end.
Qed.

Lemma nonzero_open_w p : raises_only nonzero_status (open_w p).
Proof. unfold open_w. repeat only_step. Qed.

Lemma nonzero_lift {A} (r : result A) :
  (forall e, r = Raise e -> nonzero_status e) -> raises_only nonzero_status (lift r).
Proof.
  intros Hr. destruct r as [a|e]; cbn; [apply only_ret|].
  apply only_raise. apply Hr. reflexivity.
Qed.

Lemma nonzero_dict_to_list names r e :
  dict_to_list names r = Raise e -> nonzero_status e.
Proof.
  unfold dict_to_list. destruct (bool_decide _); [discriminate|].
  intros [= <-]. exact I.
Qed.

Lemma nonzero_parse_metrics stdout e :
  parse_metrics stdout = Raise e -> nonzero_status e.
Proof.
  unfold parse_metrics.
  destruct (last_match _) as [g|]; [|intros [= <-]; exact I].
  destruct (py_int (group g 1)); [|intros [= <-]; exact I].
  destruct (float_of_str (group g 2)); [|intros [= <-]; exact I].
  destruct (py_int (group g 3)); [discriminate | intros [= <-]; exact I].
Qed.

Lemma nonzero_write_results rows p : raises_only nonzero_status (write_results rows p).
Proof.
  unfold write_results, writeheader, writerow, file_write, file_close.
  repeat lazymatch goal with
         | |- raises_only _ (mkdir _ _ _) => apply nonzero_path_mkdir
         | |- raises_only _ (open_w _) => apply nonzero_open_w
         | |- raises_only _ (relative_to _ _) => apply nonzero_relative_to
         | |- raises_only _ (lift (dict_to_list _ _)) =>
             apply nonzero_lift; apply nonzero_dict_to_list
         | |- _ => only_step
         end.
Qed.

Ltac nonzero_ops :=
  repeat lazymatch goal with
         | |- raises_only _ (exists_ _) => apply nonzero_exists
         | |- raises_only _ (fix_permission _) => apply nonzero_fix_permission
         | |- raises_only _ (run _ _ _) => apply nonzero_run
         | |- raises_only _ (mkdir _ _ _) => apply nonzero_path_mkdir
         | |- _ => only_step
         end.

Lemma nonzero_ensure_ready impl :
  In impl implementations -> raises_only nonzero_status (ensure_ready impl).
Proof.
  unfold implementations. cbn [In].
  intros [<-|[<-|[<-|[<-|[<-|[]]]]]]; unfold ensure_ready; cbn [preparer new_implementation];
    (apply only_bind; [apply only_emit | intros _]).
  - unfold ensure_buddy. cbv zeta. nonzero_ops.
  - unfold ensure_sylvan. cbv zeta. nonzero_ops.
  - unfold ensure_cudd. cbv zeta. nonzero_ops.
  - unfold ensure_jdd. cbv zeta. nonzero_ops.
  - unfold ensure_jsylvan. cbv zeta. nonzero_ops.
Qed.

Lemma nonzero_run_implementation impl size workers :
  raises_only nonzero_status (run_implementation impl size workers).
Proof.
  unfold run_implementation. cbv zeta. apply only_bind.
  - unfold execute_with_metrics. cbv zeta. repeat only_step.
  - intros r. destruct (returncode r =? 0) eqn:Hrc; cbn [negb].
    + apply only_bind; [apply nonzero_lift; apply nonzero_parse_metrics|].
      intros [[m s] n]. repeat only_step.
    + apply only_raise. cbn. apply Z.eqb_neq. exact Hrc.
Qed.

Lemma nonzero_main args : raises_only nonzero_status (main args).
Proof.
  unfold main, sweep. apply only_bind; [|intros _; apply only_bind].
  - assert (Hin : forall impl, In impl implementations -> In impl implementations)
      by auto.
    revert Hin. generalize implementations at 1 3. intros l.
    induction l as [|impl l IH]; intros Hin; cbn [for_each]; [apply only_ret|].
    apply only_bind.
    + apply nonzero_ensure_ready. apply Hin. left. reflexivity.
    + intros _. apply IH. intros x Hx. apply Hin. right. exact Hx.
  - apply only_for_fold. intros size rows. apply only_for_fold. intros impl rows'.
    apply only_bind; [apply nonzero_run_implementation | intros r; apply only_ret].
  - intros rows. apply nonzero_write_results.
Qed.

(** Property X21.  On a machine where a build command that cannot be
    started fails with an error of the operating system, the script
    never reports a failure as a success: whenever it leaves through
    [sys.exit], the status it passes is not zero.  A failed command
    gives its own status, which is not zero, and every other error
    gives 1. *)
Theorem script_exit_status_nonzero args w code said w' :
  script args w = (SysExit code said, w') -> code <> 0.
Proof.
  unfold script. pose proof (nonzero_main args w) as Hm.
  destruct (main args w) as [[[]|e] w1]; [discriminate|].
  specialize (Hm e eq_refl).
  destruct e; intros [= <- _ _]; try discriminate. exact Hm.
Qed.

End ExitStatus.

Section TrialStatus.
Context `{Host}.

Lemma for_fold_app {A B} (xs ys : list A) (acc : B) (body : A -> B -> M B) w :
  for_fold (xs ++ ys) acc body w
  = match for_fold xs acc body w with
    | (Ok acc', w') => for_fold ys acc' body w'
    | (Raise e, w') => (Raise e, w')
    end.
Proof.
  revert acc w. induction xs as [|x xs IH]; intros acc w; cbn [app for_fold].
  - reflexivity.
  - unfold bind. destruct (body x acc w) as [[acc1|e] w1]; [apply IH | reflexivity].
Qed.

(** A sweep in which the preparers and the first trials end well and
    the next trial fails: the sweep fails with the error of that
    trial, in the world that trial leaves. *)
Lemma sweep_trial_failure impls args w w1 before size after first impl others
    rows1 w2 rows2 w3 e w4 :
  for_each impls ensure_ready w = (Ok tt, w1) ->
  sizes args = before ++ size :: after ->
  impls = first ++ impl :: others ->
  for_fold before [] (fun size rows => one_size (workers args) size impls rows) w1
  = (Ok rows1, w2) ->
  one_size (workers args) size first rows1 w2 = (Ok rows2, w3) ->
  run_implementation impl size (workers args) w3 = (Raise e, w4) ->
  sweep impls args w = (Raise e, w4).
Proof.
  intros Hp Hs Hi Hb Hf Hr. unfold sweep.
  rewrite (bind_ok _ _ _ _ _ Hp). apply bind_raise.
  change (for_fold (sizes args) []
            (fun size rows => one_size (workers args) size impls rows) w1 = (Raise e, w4)).
  rewrite Hs, for_fold_app, Hb. cbn [for_fold]. apply bind_raise.
  unfold one_size in *. rewrite Hi at 1. rewrite for_fold_app, Hf. cbn [for_fold].
  apply bind_raise. apply bind_raise. exact Hr.
Qed.

(** Property X22.  The exit status of the script is the exit status
    of the first measured command that fails.  When the preparers
    and the trials before it end well and the command of the next
    trial ends with a status other than zero, the script leaves
    through [sys.exit] with that status, after the line that names
    the status and the command; the trials after it are not run and
    the table is not written. *)
Theorem script_exit_status_of_trial args w w1 before size after first impl others
    rows1 w2 rows2 w3 c :
  for_each implementations ensure_ready w = (Ok tt, w1) ->
  sizes args = before ++ size :: after ->
  implementations = first ++ impl :: others ->
  for_fold before []
    (fun size rows => one_size (workers args) size implementations rows) w1
  = (Ok rows1, w2) ->
  one_size (workers args) size first rows1 w2 = (Ok rows2, w3) ->
  h_exitcode (helper_of impl size (workers args) w3) = 0 ->
  h_queue (helper_of impl size (workers args) w3) = Some c ->
  c_returncode c <> 0 ->
  script args w
  = (SysExit (c_returncode c)
       (CommandFailed (c_returncode c) (command_for impl size (workers args))),
     World (h_fs (helper_of impl size (workers args) w3))
       (trace (started impl size (workers args) w3))).
Proof.
  intros Hp Hs Hi Hb Hf He Hq Hrc. unfold script, main.
  rewrite (sweep_trial_failure implementations args w w1 before size after first impl
             others rows1 w2 rows2 w3
             (CalledProcessError (c_returncode c) (command_for impl size (workers args))
                (Some (c_stdout c)) (Some (c_stderr c)))
             (World (h_fs (helper_of impl size (workers args) w3))
                (trace (started impl size (workers args) w3)))
             Hp Hs Hi Hb Hf).
  - reflexivity.
  - rewrite (run_implementation_unfold impl size (workers args) w3 c He Hq).
    cbv zeta. apply Z.eqb_neq in Hrc. rewrite Hrc. reflexivity.
Qed.

End TrialStatus.

Lemma main_failure_before_table_witness :
  @untouched whole_floats bench_world
    (snd (@main whole_floats failing_build_host bench_args bench_world))
  \/ exists rows w1,
       @write_results whole_floats failing_build_host rows (output bench_args) w1
       = (Raise (CalledProcessError 2 (words ["./configure"]) None None),
          snd (@main whole_floats failing_build_host bench_args bench_world)).
Proof.
  apply (@main_failure_before_table whole_floats failing_build_host bench_args bench_world).
  apply run_outcome. vm_compute. reflexivity.
Defined.

Lemma script_exit_status_nonzero_witness :
  fst (@script whole_floats failing_build_host bench_args bench_world)
  = SysExit 2 (CommandFailed 2 (words ["./configure"]))
  /\ 2 <> 0.
Proof.
  split; [vm_compute; reflexivity|].
  apply (@script_exit_status_nonzero whole_floats failing_build_host
           ltac:(intros cmd cwd env w e E; discriminate E)
           bench_args bench_world 2 (CommandFailed 2 (words ["./configure"]))
           (snd (@script whole_floats failing_build_host bench_args bench_world))).
  apply run_outcome. vm_compute. reflexivity.
Defined.

Lemma script_exit_status_of_trial_witness :
  @script whole_floats aborting_host bench_args bench_world
  = (SysExit 3
       (CommandFailed 3
          (@command_for whole_floats
             (hd some_stub (@implementations whole_floats aborting_host)) 4 0)),
     World (h_fs (@helper_of whole_floats aborting_host
                    (hd some_stub (@implementations whole_floats aborting_host)) 4 0
                    (prepared_world aborting_host)))
       (trace (@started whole_floats aborting_host
                 (hd some_stub (@implementations whole_floats aborting_host)) 4 0
                 (prepared_world aborting_host)))).
Proof.
  apply (@script_exit_status_of_trial whole_floats aborting_host bench_args bench_world
           (prepared_world aborting_host) [] 4 [5] []
           (hd some_stub (@implementations whole_floats aborting_host))
           (tl (@implementations whole_floats aborting_host))
           [] (prepared_world aborting_host) [] (prepared_world aborting_host)
           (aborting_program [])).
  - unfold prepared_world. apply run_outcome. vm_compute. reflexivity.
  - reflexivity.
  - reflexivity.
  - reflexivity.
  - reflexivity.
  - reflexivity.
  - reflexivity.
  - discriminate.
Defined.

(** ** A sweep that ends well: the table it leaves *)

Lemma map_result_length {A B} (f : A -> result B) l ls :
  map_result f l = Ok ls -> length ls = length l.
Proof.
  revert ls. induction l as [|x l IH]; intros ls; cbn.
  - intros [= <-]. reflexivity.
  - destruct (f x) as [y|]; cbn; [|discriminate].
    destruct (map_result f l) as [ys|]; cbn; [|discriminate].
    intros [= <-]. cbn. rewrite (IH ys eq_refl). reflexivity.
Qed.

Lemma map_result_raise {A B} (f : A -> result B) l e :
  map_result f l = Raise e ->
  exists good bad rest ls,
    l = good ++ bad :: rest /\ map_result f good = Ok ls /\ f bad = Raise e.
Proof.
  induction l as [|x l IH]; cbn; [discriminate|].
  destruct (f x) as [y|e1] eqn:Ex; cbn.
  - destruct (map_result f l) as [ys|e2]; cbn; [discriminate|].
    intros [= <-]. destruct (IH eq_refl) as (good & bad & rest & ls & -> & Hg & Hb).
    exists (x :: good), bad, rest, (y :: ls). cbn. rewrite Ex, Hg. cbn. auto.
  - intros [= <-]. exists [], x, l, []. auto.
Qed.

Section SweepTable.
Context `{Host}.

(** A call of [write_results] that ends well has written every row. *)
Lemma write_results_ok_inv rows p w w' :
  write_results rows p w = (Ok tt, w') ->
  exists m ls,
    map_result row_line rows = Ok ls
    /\ fs w' !! p = Some (File m (table_text ls)).
Proof.
  unfold write_results. unfold bind at 1.
  destruct (mkdir false true RESULTS_DIR w) as [[[]|e] w1]; [|discriminate].
  unfold bind at 1.
  destruct (open_w p w1) as [[[]|e] w2] eqn:Ho; [|discriminate].
  destruct (open_w_ok _ _ _ Ho) as (m & F & _ & _).
  destruct (map_result row_line rows) as [ls|e] eqn:Hl.
  - destruct (table_body_trace p rows ls m w2 Hl F) as (w3 & E3 & F3 & _ & _).
    rewrite (bind_ok _ _ _ _ _ E3). unfold relative_to.
    destruct (strip_components ROOT p); unfold bind, ret, raise, emit; cbn;
      [|discriminate].
    intros [= <-]. exists m, ls. auto.
  - destruct (map_result_raise _ _ _ Hl) as (good & bad & rest & ls & -> & Hg & Hb).
    destruct (table_body_fail p good bad rest ls e m w2 Hg Hb F) as (w3 & E3 & _).
    rewrite (bind_raise _ _ _ _ _ E3). discriminate.
Qed.

(** Property X23.  When [main] ends well, the output path holds the
    header line followed by exactly one line per trial, in the order
    of the sweep: the lines are those of records whose size and
    implementation run through the sizes in the order given and, for
    each size, through the five implementations in the order of the
    list. *)
Theorem main_table args w w' :
  main args w = (Ok tt, w') ->
  exists rows ls m,
    map trial_of rows
    = flat_map (fun size => map (trial size) implementations) (sizes args)
    /\ map_result row_line rows = Ok ls
    /\ length ls = (length (sizes args) * 5)%nat
    /\ fs w' !! output args = Some (File m (table_text ls)).
Proof.
  unfold main, sweep. unfold bind at 1.
  destruct (for_each implementations ensure_ready w) as [[[]|e] w1]; [|discriminate].
  unfold bind at 1.
  change (for_fold (sizes args) []
            (fun size rows => for_fold implementations rows
               (fun impl rows0 => r <~ run_implementation impl size (workers args);;
                                  ret (rows0 ++ [r]))))
    with (for_fold (sizes args) []
            (fun size rows => one_size (workers args) size implementations rows)).
  destruct (for_fold (sizes args) [] _ w1) as [[rows|e] w2] eqn:Ha; [|discriminate].
  destruct (all_sizes_order _ _ _ _ _ _ _ Ha) as [_ H2]. cbn [map app] in H2.
  intros E. destruct (write_results_ok_inv _ _ _ _ E) as (m & ls & Hl & F).
  exists rows, ls, m. split; [exact H2|]. split; [exact Hl|]. split; [|exact F].
  rewrite (map_result_length _ _ _ Hl), <- (length_map trial_of), H2.
  clear. induction (sizes args) as [|s l IH]; [reflexivity|].
  cbn [flat_map]. rewrite length_app, IH. reflexivity.
Qed.

End SweepTable.

Lemma main_table_witness :
  exists rows ls m,
    map (@trial_of whole_floats) rows
    = flat_map (fun size => map (@trial whole_floats size)
                              (@implementations whole_floats echo_host))
        (sizes bench_args)
    /\ map_result row_line rows = Ok ls
    /\ length ls = (length (sizes bench_args) * 5)%nat
    /\ fs (snd (@main whole_floats echo_host bench_args bench_world)) !! output bench_args
       = Some (File m (table_text ls)).
Proof.
  apply (@main_table whole_floats echo_host bench_args bench_world).
  apply run_outcome. vm_compute. reflexivity.
Defined.

(** ** The implementations the sweep runs *)

Section Registered.
Context `{Host}.

(** Property X24.  The command measured for a registered
    implementation always ends with the size in decimal.  The number
    of workers is passed to the two Sylvan-based implementations, and
    to them only: for Sylvan and JSylvan the command is the program
    followed by [-w], the number of workers in decimal and the size;
    for every other implementation the command is the same whatever
    the number of workers. *)
Theorem measured_command_shape impl size workers :
  In impl implementations ->
  List.last (command_for impl size workers) [] = str_of_Z size
  /\ (name impl <> lit "Sylvan" -> name impl <> lit "JSylvan" ->
      forall workers', command_for impl size workers' = command_for impl size workers)
  /\ (name impl = lit "Sylvan" \/ name impl = lit "JSylvan" ->
      exists program,
        command_for impl size workers
        = program ++ [lit "-w"; str_of_Z workers; str_of_Z size]).
Proof.
  unfold implementations. cbn [In].
  intros [<-|[<-|[<-|[<-|[<-|[]]]]]]; unfold command_for;
    cbn [command_builder new_implementation name];
    (split; [reflexivity|split]).
  - intros _ _ ?. reflexivity.
  - intros [E|E]; vm_compute in E; discriminate E.
  - intros Hn. exfalso. apply Hn. reflexivity.
  - intros _. eexists [_]. reflexivity.
  - intros _ _ ?. reflexivity.
  - intros [E|E]; vm_compute in E; discriminate E.
  - intros _ _ ?. reflexivity.
  - intros [E|E]; vm_compute in E; discriminate E.
  - intros _ Hn. exfalso. apply Hn. reflexivity.
  - intros _. eexists (words ["java"; "-cp"; "target/sylvan-1.0.0-SNAPSHOT.jar";
                            "jsylvan.examples.JSylvanNQueens"]). reflexivity.
Qed.

(** Property X25.  A measured command inherits the environment of
    the harness: for every registered implementation, every variable
    other than [LD_LIBRARY_PATH] has the value it has in the
    environment of the harness, and [LD_LIBRARY_PATH] is either
    inherited too or is a library directory followed by a colon and
    by the inherited value (by nothing when the variable is not
    set). *)
Theorem measured_environment impl :
  In impl implementations ->
  (forall k, k <> lit "LD_LIBRARY_PATH" -> base_env impl !! k = environ !! k)
  /\ (base_env impl !! lit "LD_LIBRARY_PATH" = environ !! lit "LD_LIBRARY_PATH"
      \/ exists dir,
           base_env impl !! lit "LD_LIBRARY_PATH"
           = Some (path_str dir ++ COLON :: default [] (environ !! lit "LD_LIBRARY_PATH"))).
Proof.
  unfold implementations. cbn [In].
  intros [<-|[<-|[<-|[<-|[<-|[]]]]]]; unfold base_env;
    cbn [extra_env new_implementation default]; unfold ld_library_path.
  - split.
    + intros k Hk. rewrite lookup_union_r; [reflexivity|].
      apply lookup_singleton_ne. congruence.
    + right. eexists. erewrite lookup_union_Some_l; [reflexivity|].
      apply lookup_singleton_eq.
  - split.
    + intros k Hk. rewrite lookup_union_r; [reflexivity|].
      apply lookup_singleton_ne. congruence.
    + right. eexists. erewrite lookup_union_Some_l; [reflexivity|].
      apply lookup_singleton_eq.
  - rewrite (left_id_L ∅ (∪)). auto.
  - rewrite (left_id_L ∅ (∪)). auto.
  - rewrite (left_id_L ∅ (∪)). auto.
Qed.

End Registered.

Lemma measured_command_shape_witness :
  List.last (@command_for whole_floats
               (nth 1 (@implementations whole_floats echo_host) some_stub) 8 2) []
  = str_of_Z 8
  /\ (name (nth 1 (@implementations whole_floats echo_host) some_stub) <> lit "Sylvan" ->
      name (nth 1 (@implementations whole_floats echo_host) some_stub) <> lit "JSylvan" ->
      forall workers',
        @command_for whole_floats
          (nth 1 (@implementations whole_floats echo_host) some_stub) 8 workers'
        = @command_for whole_floats
            (nth 1 (@implementations whole_floats echo_host) some_stub) 8 2)
  /\ (name (nth 1 (@implementations whole_floats echo_host) some_stub) = lit "Sylvan"
      \/ name (nth 1 (@implementations whole_floats echo_host) some_stub) = lit "JSylvan" ->
      exists program,
        @command_for whole_floats
          (nth 1 (@implementations whole_floats echo_host) some_stub) 8 2
        = program ++ [lit "-w"; str_of_Z 2; str_of_Z 8]).
Proof.
  apply (@measured_command_shape whole_floats echo_host
           (nth 1 (@implementations whole_floats echo_host) some_stub) 8 2).
  right. left. reflexivity.
Defined.

Lemma measured_environment_witness :
  (forall k, k <> lit "LD_LIBRARY_PATH" ->
     @base_env whole_floats echo_host
       (hd some_stub (@implementations whole_floats echo_host)) !! k
     = @environ whole_floats echo_host !! k)
  /\ (@base_env whole_floats echo_host
        (hd some_stub (@implementations whole_floats echo_host)) !! lit "LD_LIBRARY_PATH"
      = @environ whole_floats echo_host !! lit "LD_LIBRARY_PATH"
      \/ exists dir,
           @base_env whole_floats echo_host
             (hd some_stub (@implementations whole_floats echo_host))
             !! lit "LD_LIBRARY_PATH"
           = Some (path_str dir
                   ++ COLON :: default [] (@environ whole_floats echo_host
                                             !! lit "LD_LIBRARY_PATH"))).
Proof.
  apply (@measured_environment whole_floats echo_host
           (hd some_stub (@implementations whole_floats echo_host))).
  left. reflexivity.
Defined.

(** ** Reading a table: what the rows are, and the tables that cannot be read *)

Lemma map_result_Forall {A B} (f : A -> result B) (P : B -> Prop) l ls :
  (forall x y, f x = Ok y -> P y) ->
  map_result f l = Ok ls -> Forall P ls.
Proof.
  intros Hf. revert ls. induction l as [|x l IH]; intros ls; cbn.
  - intros [= <-]. constructor.
  - destruct (f x) as [y|] eqn:Ex; cbn; [|discriminate].
    destruct (map_result f l) as [ys|]; cbn; [|discriminate].
    intros [= <-]. constructor; [eapply Hf; exact Ex | apply IH; reflexivity].
Qed.

Lemma map_result_Forall2 {A B} (f : A -> result B) l ls :
  map_result f l = Ok ls -> Forall2 (fun x y => f x = Ok y) l ls.
Proof.
  revert ls. induction l as [|x l IH]; intros ls; cbn.
  - intros [= <-]. constructor.
  - destruct (f x) as [y|] eqn:Ex; cbn; [|discriminate].
    destruct (map_result f l) as [ys|]; cbn; [|discriminate].
    intros [= <-]. constructor; [exact Ex | apply IH; reflexivity].
Qed.

Lemma map_result_all {A B} (f : A -> result B) l :
  Forall (fun x => exists y, f x = Ok y) l -> exists ls, map_result f l = Ok ls.
Proof.
  induction 1 as [|x l [y Hy] _ [ls IH]]; cbn; [eauto|].
  rewrite Hy, IH. cbn. eauto.
Qed.

Section ReadingOutcomes.
Context `{PyFloat}.

Lemma convert_inv key conv r r' :
  convert key conv r = Ok r' ->
  exists s v, conv s = Some v /\ r' = <[lit key := v]> r.
Proof.
  unfold convert. destruct (r !! lit key) as [[s|n|x|]|]; try discriminate.
  destruct (conv s) as [v|] eqn:E; [|discriminate].
  intros [= <-]. eauto.
Qed.

Lemma to_int_inv s v : to_int s = Some v -> exists n, v = VInt n.
Proof. unfold to_int. destruct (py_int s); cbn; [intros [= <-]; eauto | discriminate]. Qed.

Lemma to_float_inv s v : to_float s = Some v -> exists x, v = VFloat x.
Proof.
  unfold to_float. destruct (float_of_str s); cbn; [intros [= <-]; eauto | discriminate].
Qed.

Ltac other_key :=
  rewrite lookup_insert_ne by (intros E; vm_compute in E; discriminate E).

Lemma read_row_numeric r r' : read_row r = Ok r' -> numeric r'.
Proof.
  unfold read_row.
  destruct (convert "size" to_int r) as [r1|] eqn:E1; cbn [rbind]; [|discriminate].
  destruct (convert "time_sec" to_float r1) as [r2|] eqn:E2; cbn [rbind]; [|discriminate].
  destruct (convert "max_rss_kb" to_int r2) as [r3|] eqn:E3; cbn [rbind]; [|discriminate].
  destruct (convert "nodes" to_int r3) as [r4|] eqn:E4; cbn [rbind]; [|discriminate].
  intros E5.
  apply convert_inv in E1 as (s1 & v1 & C1 & ->). apply to_int_inv in C1 as [n ->].
  apply convert_inv in E2 as (s2 & v2 & C2 & ->). apply to_float_inv in C2 as [t ->].
  apply convert_inv in E3 as (s3 & v3 & C3 & ->). apply to_int_inv in C3 as [m ->].
  apply convert_inv in E4 as (s4 & v4 & C4 & ->). apply to_int_inv in C4 as [k ->].
  apply convert_inv in E5 as (s5 & v5 & C5 & ->). apply to_float_inv in C5 as [s ->].
  exists n, t, m, k, s. repeat split.
  - do 4 other_key. apply lookup_insert_eq.
  - do 3 other_key. apply lookup_insert_eq.
  - do 2 other_key. apply lookup_insert_eq.
  - other_key. apply lookup_insert_eq.
  - apply lookup_insert_eq.
Qed.

Lemma convert_text key conv r r' :
  convert key conv r = Ok r' ->
  holds_text conv key r /\ exists v, r' = <[lit key := v]> r.
Proof.
  unfold convert, holds_text. destruct (r !! lit key) as [[s|n|x|]|]; try discriminate.
  destruct (conv s) as [v|] eqn:E; [|discriminate].
  intros [= <-]. split; [exists s, v; auto | exists v; reflexivity].
Qed.

Lemma holds_text_convert key conv r :
  holds_text conv key r -> exists v, convert key conv r = Ok (<[lit key := v]> r).
Proof.
  intros (s & v & Hs & Hv). unfold convert. rewrite Hs, Hv. eauto.
Qed.

Lemma holds_text_other conv key key' v r :
  lit key <> lit key' ->
  holds_text conv key (<[lit key' := v]> r) <-> holds_text conv key r.
Proof.
  intros Hk. unfold holds_text. rewrite lookup_insert_ne by congruence. reflexivity.
Qed.

Ltac distinct_keys := intros E; vm_compute in E; discriminate E.

Lemma read_row_text r r' : read_row r = Ok r' -> numeric_text r.
Proof.
  unfold read_row.
  destruct (convert "size" to_int r) as [r1|] eqn:E1; cbn [rbind]; [|discriminate].
  destruct (convert "time_sec" to_float r1) as [r2|] eqn:E2; cbn [rbind]; [|discriminate].
  destruct (convert "max_rss_kb" to_int r2) as [r3|] eqn:E3; cbn [rbind]; [|discriminate].
  destruct (convert "nodes" to_int r3) as [r4|] eqn:E4; cbn [rbind]; [|discriminate].
  intros E5.
  apply convert_text in E1 as (T1 & v1 & ->).
  apply convert_text in E2 as (T2 & v2 & ->).
  apply convert_text in E3 as (T3 & v3 & ->).
  apply convert_text in E4 as (T4 & v4 & ->).
  apply convert_text in E5 as (T5 & _).
  apply holds_text_other in T2; [|distinct_keys].
  do 2 (apply holds_text_other in T3; [|distinct_keys]).
  do 3 (apply holds_text_other in T4; [|distinct_keys]).
  do 4 (apply holds_text_other in T5; [|distinct_keys]).
  repeat split; assumption.
Qed.

Lemma numeric_text_read r : numeric_text r -> exists r', read_row r = Ok r'.
Proof.
  intros (T1 & T2 & T3 & T4 & T5). unfold read_row.
  destruct (holds_text_convert _ _ _ T1) as [v1 ->]. cbn [rbind].
  assert (T2' : holds_text to_float "time_sec" (<[lit "size" := v1]> r))
    by (apply holds_text_other; [distinct_keys | exact T2]).
  destruct (holds_text_convert _ _ _ T2') as [v2 ->]. cbn [rbind].
  assert (T3' : holds_text to_int "max_rss_kb"
                  (<[lit "time_sec" := v2]> (<[lit "size" := v1]> r)))
    by (do 2 (apply holds_text_other; [distinct_keys|]); exact T3).
  destruct (holds_text_convert _ _ _ T3') as [v3 ->]. cbn [rbind].
  assert (T4' : holds_text to_int "nodes"
                  (<[lit "max_rss_kb" := v3]>
                     (<[lit "time_sec" := v2]> (<[lit "size" := v1]> r))))
    by (do 3 (apply holds_text_other; [distinct_keys|]); exact T4).
  destruct (holds_text_convert _ _ _ T4') as [v4 ->]. cbn [rbind].
  assert (T5' : holds_text to_float "solutions"
                  (<[lit "nodes" := v4]>
                     (<[lit "max_rss_kb" := v3]>
                        (<[lit "time_sec" := v2]> (<[lit "size" := v1]> r)))))
    by (do 4 (apply holds_text_other; [distinct_keys|]); exact T5).
  destruct (holds_text_convert _ _ _ T5') as [v5 ->]. eauto.
Qed.

(** Property X26.  Every row that [read_rows] returns has its five
    measures as numbers: [size], [max_rss_kb] and [nodes] are
    integers, [time_sec] and [solutions] are floats.  And a table is
    read as a whole or not at all: for a file whose text splits into
    records, [read_rows] returns rows exactly when every row of the
    table holds, in each of the five columns, text that reads as a
    number of the kind of the column, and the rows returned are then
    the rows of the table, converted, one for one.  So a table in
    which some row lacks one of the measures, or has text there that
    is not a number, is not read at all. *)
Theorem read_rows_numeric f csv_path :
  (forall rows, read_rows f csv_path = Ok rows -> Forall numeric rows)
  /\ (forall m data records,
        f !! csv_path = Some (File m data) ->
        csv_reader parse_reset (file_lines (universal_newlines data)) = Ok records ->
        ((exists rows, read_rows f csv_path = Ok rows)
         <-> Forall numeric_text (dict_reader records))
        /\ (forall rows, read_rows f csv_path = Ok rows ->
              Forall2 (fun r r' => read_row r = Ok r') (dict_reader records) rows)).
Proof.
  split.
  - intros rows. unfold read_rows.
    destruct (f !! csv_path) as [[m data|m]|]; try discriminate.
    destruct (csv_reader _ _) as [records|]; cbn [rbind]; [|discriminate].
    apply map_result_Forall. apply read_row_numeric.
  - intros m data records Hf Hc. unfold read_rows. rewrite Hf, Hc. cbn [rbind].
    split; [split|].
    + intros [rows E]. apply map_result_Forall2 in E.
      induction E as [|r r' l l' Hr _ IH]; constructor; [|exact IH].
      eapply read_row_text. exact Hr.
    + intros Hall. apply map_result_all.
      eapply List.Forall_impl; [|exact Hall]. apply numeric_text_read.
    + intros rows. apply map_result_Forall2.
Qed.

Lemma fold_insert_other (l : list (list ascii * pyval)) (d : gmap (list ascii) pyval) k :
  ~ In k (map fst l) ->
  fold_left (fun d kv => <[fst kv := snd kv]> d) l d !! k = d !! k.
Proof.
  revert d. induction l as [|[k' v] l IH]; intros d Hk; cbn; [reflexivity|].
  rewrite IH by (intros Hin; apply Hk; right; exact Hin).
  apply lookup_insert_ne. intros ->. apply Hk. left. reflexivity.
Qed.

Lemma zip_row_other names rec k : ~ In k names -> zip_row names rec !! k = None.
Proof.
  intros Hk. unfold zip_row. rewrite fold_insert_other; [apply lookup_empty|].
  rewrite map_app, in_app_iff. intros [Hin|Hin]; apply Hk.
  - apply in_map_iff in Hin as ([k' v] & <- & Hin). cbn.
    apply in_combine_l in Hin. exact Hin.
  - rewrite map_map in Hin. cbn in Hin. rewrite map_id in Hin.
    revert Hin. generalize (length rec). intros n. revert names Hk.
    induction n as [|n IH]; intros names Hk Hin; [exact Hin|].
    destruct names as [|x names]; [exact Hin|].
    right. apply (IH names); [|exact Hin]. intros Hx. apply Hk. right. exact Hx.
Qed.

(** Property X27.  A table with at least one row whose header has no
    [size] column cannot be read: [read_rows] fails with the
    [KeyError] of that column on the first row.  The table is any
    text [csv.writer] writes for records of two fields or more. *)
Theorem read_rows_missing_column f csv_path m names rec recs :
  Forall several (names :: rec :: recs) ->
  f !! csv_path = Some (File m (concat (map csv_record (names :: rec :: recs)))) ->
  ~ In (lit "size") (map universal_newlines names) ->
  read_rows f csv_path = Raise (KeyError (lit "size")).
Proof.
  intros Hs Hf Hn. unfold read_rows. rewrite Hf, (csv_reader_table _ Hs).
  cbn [rbind map dict_reader].
  assert (Hrec : map universal_newlines rec <> []).
  { inversion Hs as [|? ? _ Hs']. inversion Hs' as [|? ? Hr _].
    unfold several in Hr. destruct rec; cbn in *; [lia | discriminate]. }
  destruct (map universal_newlines rec) as [|x xs] eqn:E; [congruence|].
  cbn [List.filter is_nil negb map map_result].
  unfold read_row at 1. unfold convert at 1.
  rewrite (zip_row_other _ _ _ Hn). reflexivity.
Qed.

(** Property X28.  A table that holds a header and no row is read as
    no rows, whatever its columns are: a missing column is an error
    only once there is a row to convert. *)
Theorem read_rows_header_only f csv_path m names :
  several names ->
  f !! csv_path = Some (File m (csv_record names)) ->
  read_rows f csv_path = Ok [].
Proof.
  intros Hs Hf. unfold read_rows. rewrite Hf.
  assert (E : csv_record names = concat (map csv_record [names]))
    by (cbn; rewrite app_nil_r; reflexivity).
  rewrite E, (csv_reader_table [names]); [reflexivity|].
  constructor; [exact Hs | constructor].
Qed.

End ReadingOutcomes.

Lemma read_rows_numeric_witness :
  Forall (@numeric whole_floats) [first_row]
  /\ ((exists rows,
         @read_rows whole_floats
           (table_file (table_text [lit "BuDDy,C,4,7,1000,10,2" ++ [CR; LF]]))
           bench_output = Ok rows)
      <-> Forall (@numeric_text whole_floats)
            (@dict_reader whole_floats
               [ words ["implementation"; "language"; "size"; "time_sec";
                        "max_rss_kb"; "nodes"; "solutions"];
                 words ["BuDDy"; "C"; "4"; "7"; "1000"; "10"; "2"] ])).
Proof.
  destruct (@read_rows_numeric whole_floats
              (table_file (table_text [lit "BuDDy,C,4,7,1000,10,2" ++ [CR; LF]]))
              bench_output) as [H1 H2].
  split.
  - apply H1. reflexivity.
  - apply (H2 420 (table_text [lit "BuDDy,C,4,7,1000,10,2" ++ [CR; LF]])).
    + reflexivity.
    + vm_compute. reflexivity.
Defined.

Lemma read_rows_missing_column_witness :
  @read_rows whole_floats (table_file (concat (map csv_record sizeless_table))) bench_output
  = Raise (KeyError (lit "size")).
Proof.
  apply (@read_rows_missing_column whole_floats
           (table_file (concat (map csv_record sizeless_table))) bench_output 420
           (words ["implementation"; "nodes"]) (words ["BuDDy"; "10"]) []).
  - repeat constructor.
  - reflexivity.
  - vm_compute. intros [E|[E|[]]]; discriminate E.
Defined.

Lemma read_rows_header_only_witness :
  @read_rows whole_floats (table_file (csv_record (words ["implementation"; "nodes"])))
    bench_output
  = Ok [].
Proof.
  apply (@read_rows_header_only whole_floats
           (table_file (csv_record (words ["implementation"; "nodes"]))) bench_output 420
           (words ["implementation"; "nodes"])).
  - repeat constructor.
  - reflexivity.
Defined.
